(** * Retrieval and match-scoring core of the job-application agent

    A shallow embedding of [src/utils/rag_engine.py] (class [RAGEngine]) and
    [src/utils/match_calculator.py] (class [MatchCalculator]), together with
    the properties their specification states about them.

    Conventions of the embedding.
    - Python values read from JSON are the inductive [value]; a [dict] is the
      list of its items in insertion order.
    - An operation that can raise returns a [result]; the exception classes
      that the two modules can meet are the constructors of [exn].
    - Text is a [string] of 8-bit characters.  Lower-casing, the word class
      [\w] and white space are the ASCII ones: the embedding speaks about
      ASCII text, on which Python's [str.lower], [\b] and [str.split] agree
      with [py_lower], [is_word] and [is_space] below.
    - Python integers are [Z] (or [nat] for lengths and counters that only
      grow).  A Python float is the rational number [Q] that it denotes, and
      every operation on floats rounds its exact result to the nearest
      double, a tie going to the even one ([Float64.fl]); the infinities and
      NaN have no counterpart, since no score of this program exceeds 180.
    - A Python [set] of strings is a [gset string]; the order in which Python
      iterates over a set is not determined by its elements, so it is a
      parameter [set_iter] of the match calculator.
    - Two results of the Python library are parameters as well: the text of
      a number or a container inside an f-string ([py_repr]) and the list
      that [re.findall] returns for the pattern of capitalised phrases
      ([findall_capitalized]).
    - The engine is embedded twice.  Module [Console] has its methods as
      they run: with the three lines that the engine prints, each of which
      can raise, and with the keywords as the callers pass them, a list of
      unchecked JSON values.  Module [RAGEngine] has the same methods on a
      standard output that takes every line and on keywords of the annotated
      type, a list of strings; [console_takes_lines] relates the two.  What
      the other modules print is not part of the embedding. *)

From Stdlib Require Import ZArith QArith Qround Qabs Qpower Qreduction Qminmax Lqa Ascii String.
From stdpp Require Import base tactics list sorting gmap strings.

Local Open Scope Z_scope.

Set Warnings "-register-all".

(** ** Exceptions *)

Inductive exn : Type :=
| AttributeError
| TypeError
| ZeroDivisionError
| OSError
| ValueError
| UnicodeEncodeError.

Inductive result (A : Type) : Type :=
| Ok (a : A)
| Raise (e : exn).

Arguments Ok {A} a.
Arguments Raise {A} e.

Definition bind {A B : Type} (m : result A) (f : A → result B) : result B :=
  match m with
  | Ok a => f a
  | Raise e => Raise e
  end.

Notation "'do' x <- m ; f" := (bind m (fun x => f))
  (at level 10, x name, m at level 99, f at level 200,
   format "'[v' 'do'  x  <-  m ; '/' f ']'").

(** [for x in xs: body(x)] where the body yields one list of results. *)
Fixpoint mapM {A B : Type} (f : A → result B) (xs : list A) : result (list B) :=
  match xs with
  | [] => Ok []
  | x :: rest =>
      do y <- f x;
      do ys <- mapM f rest;
      Ok (y :: ys)
  end.

(** ** Text *)

Module Text.

Definition code (c : ascii) : N := N_of_ascii c.

Definition in_range (lo hi : N) (c : ascii) : bool :=
  ((lo <=? code c) && (code c <=? hi))%N.

Definition is_upper (c : ascii) : bool := in_range 65 90 c.
Definition is_lower (c : ascii) : bool := in_range 97 122 c.
Definition is_digit (c : ascii) : bool := in_range 48 57 c.

(** The class [\w]: letters, digits and the underscore. *)
Definition is_word (c : ascii) : bool :=
  is_upper c || is_lower c || is_digit c || (code c =? 95)%N.

(** White space of [str.split()]: TAB, LF, VT, FF, CR, FS, GS, RS, US and
    the space. *)
Definition is_space (c : ascii) : bool :=
  in_range 9 13 c || in_range 28 31 c || (code c =? 32)%N.

Definition lower_ascii (c : ascii) : ascii :=
  if is_upper c then ascii_of_N (code c + 32) else c.

(** [s.lower()] *)
Fixpoint py_lower (s : string) : string :=
  match s with
  | EmptyString => EmptyString
  | String c rest => String (lower_ascii c) (py_lower rest)
  end.

Definition chars (s : string) : list ascii := list_ascii_of_string s.

(** [s.split()]: the maximal runs of characters that are not white
    space. [word] is the run read so far. *)
Fixpoint split_from (word : string) (s : string) : list string :=
  match s with
  | EmptyString => if decide (word = EmptyString) then [] else [word]
  | String c rest =>
      if is_space c
      then (if decide (word = EmptyString) then split_from EmptyString rest
            else word :: split_from EmptyString rest)
      else split_from (word +:+ String c EmptyString) rest
  end.

Definition py_split (s : string) : list string := split_from EmptyString s.

(** [sep.join(parts)] *)
Fixpoint py_join (sep : string) (parts : list string) : string :=
  match parts with
  | [] => EmptyString
  | [p] => p
  | p :: rest => p +:+ sep +:+ py_join sep rest
  end.

(** *** Substring test, [kw in text] *)

Fixpoint starts_with (kw text : list ascii) : bool :=
  match kw, text with
  | [], _ => true
  | _ :: _, [] => false
  | c :: kw', d :: text' => bool_decide (c = d) && starts_with kw' text'
  end.

Fixpoint occurs_in (kw text : list ascii) : bool :=
  starts_with kw text ||
  match text with
  | [] => false
  | _ :: text' => occurs_in kw text'
  end.

Definition py_in (kw text : string) : bool := occurs_in (chars kw) (chars text).

(** *** The search [re.search(r'\b' + re.escape(kw) + r'\b', text)]

    [re.escape] makes the keyword a literal, so the pattern matches at a
    position when there is a word boundary, then the characters of the
    keyword, then a word boundary again.  [\b] holds between two
    neighbouring positions exactly when one side is a word character and
    the other is not; the outside of the text counts as not a word
    character. *)

Definition is_word_at (c : option ascii) : bool :=
  match c with
  | Some c => is_word c
  | None => false
  end.

Definition boundary (prev next : option ascii) : bool :=
  xorb (is_word_at prev) (is_word_at next).

(** The literal [kw] and the closing [\b], with [prev] the character just
    before [text]. *)
Fixpoint literal_then_boundary (kw text : list ascii) (prev : option ascii) : bool :=
  match kw with
  | [] => boundary prev (head text)
  | c :: kw' =>
      match text with
      | [] => false
      | d :: text' => bool_decide (c = d) && literal_then_boundary kw' text' (Some d)
      end
  end.

Definition match_here (kw text : list ascii) (prev : option ascii) : bool :=
  boundary prev (head text) && literal_then_boundary kw text prev.

(** The search tries every start position from left to right. *)
Fixpoint search_from (kw text : list ascii) (prev : option ascii) : bool :=
  match_here kw text prev ||
  match text with
  | [] => false
  | d :: text' => search_from kw text' (Some d)
  end.

Definition re_search_word (kw text : string) : bool :=
  search_from (chars kw) (chars text) None.

End Text.

Export Text.

(** ** Python values *)

Inductive value : Type :=
| VNone
| VBool (b : bool)
| VNum (x : Q)
| VStr (s : string)
| VList (items : list value)
| VDict (items : list (string * value)).

(** [d.get(key, default)] on the items of a dict. *)
Fixpoint dict_get (items : list (string * value)) (key : string) (default : value) : value :=
  match items with
  | [] => default
  | (k, v) :: rest => if decide (k = key) then v else dict_get rest key default
  end.

(** [v.get(key, default)]: only a dict has the method. *)
Definition py_get (v : value) (key : string) (default : value) : result value :=
  match v with
  | VDict items => Ok (dict_get items key default)
  | _ => Raise AttributeError
  end.

(** The characters of a string, each as a string of length one. *)
Fixpoint string_items (s : string) : list value :=
  match s with
  | EmptyString => []
  | String c rest => VStr (String c EmptyString) :: string_items rest
  end.

(** [for x in v]: a list gives its elements, a dict its keys, a string its
    characters; nothing else is iterable. *)
Definition py_iter (v : value) : result (list value) :=
  match v with
  | VList items => Ok items
  | VDict items => Ok (map (fun kv => VStr (fst kv)) items)
  | VStr s => Ok (string_items s)
  | _ => Raise TypeError
  end.

(** [v.lower()]: only a string has the method. *)
Definition str_lower (v : value) : result string :=
  match v with
  | VStr s => Ok (py_lower s)
  | _ => Raise AttributeError
  end.

(** ** The retrieval engine, [RAGEngine] *)

Inductive Metadata : Type :=
| ExperienceMeta (company title dates : value)
| ProjectMeta (name : value).

Record Snippet : Type := mkSnippet {
  content : value;
  metadata : Metadata
}.

(** Code that appends to [self.snippets] and may raise half-way: the store
    is threaded through, and it is kept when an exception is raised. *)
Definition Store (A : Type) : Type := list Snippet → result A * list Snippet.

Definition ret {A : Type} (a : A) : Store A := fun st => (Ok a, st).

Definition lift {A : Type} (r : result A) : Store A := fun st => (r, st).

Definition bindS {A B : Type} (m : Store A) (f : A → Store B) : Store B :=
  fun st =>
    match m st with
    | (Ok a, st') => f a st'
    | (Raise e, st') => (Raise e, st')
    end.

Notation "'run' x <- m ; f" := (bindS m (fun x => f))
  (at level 10, x name, m at level 99, f at level 200,
   format "'[v' 'run'  x  <-  m ; '/' f ']'").

(** [self.snippets.append(s)] *)
Definition append (s : Snippet) : Store unit := fun st => (Ok tt, st ++ [s]).

(** [for x in xs: body(x)] *)
Fixpoint for_each {X : Type} (xs : list X) (body : X → Store unit) : Store unit :=
  match xs with
  | [] => ret tt
  | x :: rest => run _u <- body x; for_each rest body
  end.

Module RAGEngine.

Section Initialize.

(** [str(v)] of a number, a list or a dict, as an f-string prints it: the
    decimal and [repr] formats of Python are not part of this repository. *)
Variable py_repr : value → string.

(** [f"{v}"] *)
Definition py_format (v : value) : string :=
  match v with
  | VStr s => s
  | VNone => "None"
  | VBool true => "True"
  | VBool false => "False"
  | _ => py_repr v
  end.

(** The body of the loop over the roles (lines 29-42). *)
Definition add_role_snippets (role : value) : Store unit :=
  run company <- lift (py_get role "company" (VStr "Unknown"));
  run title <- lift (py_get role "title" (VStr "Position"));
  run responsibilities <- lift (py_get role "responsibilities" (VList []));
  run achievements <- lift (py_get role "achievements" responsibilities);
  run entries <- lift (py_iter achievements);
  for_each entries (fun ach =>
    run dates <- lift (py_get role "dates" (VStr ""));
    append {| content := ach;
              metadata := ExperienceMeta company title dates |}).

(** The body of the loop over the projects (lines 46-49). *)
Definition add_project_snippet (project : value) : Store unit :=
  run name <- lift (py_get project "name" VNone);
  run description <- lift (py_get project "description" VNone);
  run name' <- lift (py_get project "name" VNone);
  append {| content := VStr ("Project " +:+ py_format name +:+ ": "
                               +:+ py_format description);
            metadata := ProjectMeta name' |}.

(** The statements under [try] once the file is read (lines 28-49). *)
Definition build_snippets (profile : value) : Store unit :=
  run experience <- lift (py_get profile "experience" (VList []));
  run roles <- lift (py_iter experience);
  run _u <- for_each roles add_role_snippets;
  run projects <- lift (py_get profile "projects" (VList []));
  run entries <- lift (py_iter projects);
  for_each entries add_project_snippet.

(** [_initialize_snippets] on a standard output that takes its lines:
    [loaded] is the outcome of opening the file at [profile_path] and of
    [json.load]; the handler then returns normally.  The method with its
    lines is [Console._initialize_snippets]. *)
Definition _initialize_snippets (loaded : result value) : Store unit :=
  fun st =>
    match (run profile <- lift loaded; build_snippets profile) st with
    | (Ok _, st') => (Ok tt, st')
    | (Raise _, st') => (Ok tt, st')
    end.

(** [__init__]: the store starts empty. *)
Definition __init__ (loaded : result value) : result unit * list Snippet :=
  _initialize_snippets loaded [].

End Initialize.

(** The inner loop of [retrieve_relevant_experience] (lines 64-72). *)
Definition snippet_score (content_lower : string) (job_keywords : list string) : Z :=
  fold_left
    (fun score kw =>
       if re_search_word (py_lower kw) content_lower then score + 2
       else if py_in (py_lower kw) content_lower then score + 1
       else score)
    job_keywords 0.

(** The outer loop (lines 63-75): the pairs [(score, snippet)] of the
    snippets whose score is positive, in the order of the store. *)
Fixpoint score_snippets (snippets : list Snippet) (job_keywords : list string)
  : result (list (Z * Snippet)) :=
  match snippets with
  | [] => Ok []
  | snippet :: rest =>
      do content_lower <- str_lower (content snippet);
      let score := snippet_score content_lower job_keywords in
      do scored <- score_snippets rest job_keywords;
      Ok (if 0 <? score then (score, snippet) :: scored else scored)
  end.

(** [list.sort(key=lambda x: x[0], reverse=True)]: a stable sort, so among
    equal keys the earlier element stays first also when reversed. *)
Fixpoint insert_desc (x : Z * Snippet) (sorted : list (Z * Snippet)) : list (Z * Snippet) :=
  match sorted with
  | [] => [x]
  | y :: rest => if fst y <=? fst x then x :: y :: rest else y :: insert_desc x rest
  end.

Definition sort_desc (l : list (Z * Snippet)) : list (Z * Snippet) :=
  foldr insert_desc [] l.

(** The slice [l[:stop]]: a negative [stop] counts from the end. *)
Definition py_slice_to {A : Type} (l : list A) (stop : Z) : list A :=
  let len := Z.of_nat (length l) in
  let stop' := if stop <? 0 then Z.max 0 (len + stop) else Z.min stop len in
  take (Z.to_nat stop') l.

Definition default_top_k : Z := 15.

(** [retrieve_relevant_experience] on keywords of the annotated type and on
    a standard output that takes its line; the method on any keywords and
    with its line is [Console.retrieve_relevant_experience]. *)
Definition retrieve_relevant_experience
    (snippets : list Snippet) (job_keywords : list string) (top_k : Z)
  : result (list Snippet) :=
  do scored_snippets <- score_snippets snippets job_keywords;
  let scored_snippets := sort_desc scored_snippets in
  Ok (map snd (py_slice_to scored_snippets top_k)).

End RAGEngine.

(** ** The retrieval engine as it runs

    The same methods with what [RAGEngine] above leaves out: the line that
    each of them prints, and keywords that are not strings. *)

Module Console.

(** The three lines of the engine: the f-strings of line 51 (the number of
    snippets after a successful initialization), of line 54 (the exception
    that made the initialization fail) and of line 82 (the number of
    snippets retrieved).  Each of them starts with an emoji. *)
Inductive Line : Type :=
| Initialized (n : nat)
| InitializationFailed (e : exn)
| Retrieved (n : nat).

Section Engine.

Variable py_repr : value → string.

(** [print(line)]: writing to the standard output raises when the output
    cannot take the line, for instance [UnicodeEncodeError] when its
    encoding has no emoji. *)
Variable print : Line → result unit.

(** The statements under [try] (lines 24-51); the line of line 51 is
    printed inside the [try]. *)
Definition try_block (loaded : result value) : Store unit :=
  run profile <- lift loaded;
  run _u <- RAGEngine.build_snippets py_repr profile;
  fun st => (print (Initialized (length st)), st).

(** [_initialize_snippets]: the handler prints the exception, and what that
    [print] raises is not caught. *)
Definition _initialize_snippets (loaded : result value) : Store unit :=
  fun st =>
    match try_block loaded st with
    | (Ok _, st') => (Ok tt, st')
    | (Raise e, st') => (print (InitializationFailed e), st')
    end.

(** [__init__]: the store starts empty. *)
Definition __init__ (loaded : result value) : result unit * list Snippet :=
  _initialize_snippets loaded [].

(** The inner loop of [retrieve_relevant_experience] (lines 67-72):
    [kw.lower()] is the first thing evaluated for a keyword. *)
Fixpoint snippet_score (content_lower : string) (job_keywords : list value) (score : Z)
  : result Z :=
  match job_keywords with
  | [] => Ok score
  | kw :: rest =>
      do kw_lower <- str_lower kw;
      let score :=
        if re_search_word kw_lower content_lower then score + 2
        else if py_in kw_lower content_lower then score + 1
        else score in
      snippet_score content_lower rest score
  end.

(** The outer loop (lines 63-75). *)
Fixpoint score_snippets (snippets : list Snippet) (job_keywords : list value)
  : result (list (Z * Snippet)) :=
  match snippets with
  | [] => Ok []
  | snippet :: rest =>
      do content_lower <- str_lower (content snippet);
      do score <- snippet_score content_lower job_keywords 0;
      do scored <- score_snippets rest job_keywords;
      Ok (if 0 <? score then (score, snippet) :: scored else scored)
  end.

(** The callers pass [analysis.get("keywords", {}).get("ats_keywords", [])]
    of a validated analysis, which is a list; its entries are whatever the
    model answered. *)
Definition retrieve_relevant_experience
    (snippets : list Snippet) (job_keywords : list value) (top_k : Z)
  : result (list Snippet) :=
  do scored_snippets <- score_snippets snippets job_keywords;
  let scored_snippets := RAGEngine.sort_desc scored_snippets in
  let results := map snd (RAGEngine.py_slice_to scored_snippets top_k) in
  do _u <- print (Retrieved (length results));
  Ok results.

End Engine.

End Console.

(** ** The match calculator, [MatchCalculator] *)

(** [a + b] on two values that are then iterated: two lists concatenate and
    so do two strings.  Every other sum either raises [TypeError] at once or
    gives a number, whose iteration raises [TypeError]. *)
Definition py_add_iterable (a b : value) : result value :=
  match a, b with
  | VList l1, VList l2 => Ok (VList (l1 ++ l2))
  | VStr s1, VStr s2 => Ok (VStr (s1 +:+ s2))
  | _, _ => Raise TypeError
  end.

(** A string argument of [re.findall] or [str.join]; anything else raises
    [TypeError]. *)
Definition expect_str (v : value) : result string :=
  match v with
  | VStr s => Ok s
  | _ => Raise TypeError
  end.

(** [v.split()]: only a string has the method. *)
Definition str_split (v : value) : result (list string) :=
  match v with
  | VStr s => Ok (py_split s)
  | _ => Raise AttributeError
  end.

(** [' '.join(v)] *)
Definition str_join_space (v : value) : result string :=
  do items <- py_iter v;
  do parts <- mapM expect_str items;
  Ok (py_join " " parts).

(** [set(w.lower() for w in words if len(w) > n)] *)
Definition long_words_lower (n : nat) (words : list string) : gset string :=
  list_to_set (map py_lower (filter (fun w => n < String.length w)%nat words)).

Definition Qltb (x y : Q) : bool := negb (Qle_bool y x).

(** [min(a, b)]: the first argument is kept unless the second is smaller. *)
Definition py_min (a b : Q) : Q := if Qltb b a then b else a.

(** Rounding to the nearest integer, a tie going to the even neighbour. *)
Definition round_half_even (x : Q) : Z :=
  let f := Qfloor x in
  let r := (x - inject_Z f)%Q in
  if Qltb r (1 # 2) then f
  else if Qltb (1 # 2) r then f + 1
  else if Z.even f then f else f + 1.

(** *** Binary64 arithmetic

    Python's [float] is the IEEE 754 double: 53 significant bits, and every
    operation returns the double nearest to the exact result, a tie going to
    the double whose last bit is even. *)

Module Float64.

Definition pow2 (e : Z) : Q := (2 ^ e)%Q.

(** The largest [l] with [2^l <= q], for a positive [q]: the difference of
    the bit lengths of the numerator and the denominator, or one less. *)
Definition floor_log2 (q : Q) : Z :=
  let k := Z.log2 (Qnum q) - Z.log2 (Z.pos (Qden q)) in
  if Qle_bool (pow2 k) q then k else k - 1.

(** The exponent of the smallest subnormal double. *)
Definition emin : Z := -1074.

(** The exponent of the last binary place of the doubles around [q]. *)
Definition ulp_exponent (q : Q) : Z := Z.max (floor_log2 (Qabs q) - 52) emin.

(** The multiple of [2^e] nearest to [q], a tie going to the even
    multiple. *)
Definition round_at (e : Z) (q : Q) : Q :=
  (inject_Z (round_half_even (q / pow2 e)) * pow2 e)%Q.

(** The double nearest to [q], as a fraction in lowest terms. *)
Definition fl (q : Q) : Q :=
  let q := Qred q in
  Qred (round_at (ulp_exponent q) q).

Arguments pow2 : simpl never.
Arguments fl : simpl never.

End Float64.

Export Float64.

(** [a / b] on two integers: the double nearest to the quotient. *)
Definition py_truediv (a b : nat) : result Q :=
  if decide (b = 0%nat) then Raise ZeroDivisionError
  else Ok (fl (inject_Z (Z.of_nat a) / inject_Z (Z.of_nat b)))%Q.

(** [x * y] and [x + y] where one side is a float. *)
Definition py_mul (x y : Q) : Q := fl (x * y)%Q.

Definition py_add (x y : Q) : Q := fl (x + y)%Q.

(** [round(x, 1)]: the decimal with one digit nearest to the exact value of
    [x], a tie going to the even digit, and then the double nearest to that
    decimal. *)
Definition py_round1 (x : Q) : Q := fl (inject_Z (round_half_even (x * 10)) / 10)%Q.

Record MatchResult : Type := mkMatchResult {
  overall_score : Q;
  required_skills_score : Q;
  nice_to_have_score : Q;
  keyword_score : Q;
  required_skills_matched : nat;
  required_skills_total : nat;
  nice_to_have_matched : nat;
  nice_to_have_total : nat;
  keywords_matched : nat;
  keywords_total : nat;
  missing_required_skills : list string;
  missing_nice_to_have_skills : list string;
  recommendations : list string
}.

Definition msg_low_match : string :=
  "⚠️  Low match score. Consider applying to roles better aligned with your skills.".
Definition msg_add_required : string :=
  "📝 Add these required skills to your profile: ".
Definition msg_highlight_nice : string :=
  "💡 Consider highlighting these nice-to-have skills: ".
Definition msg_strong_match : string :=
  "✅ Strong match! Your profile aligns well with this role.".
Definition msg_excellent_match : string :=
  "✅ Excellent match! You have all the key requirements.".

Module MatchCalculator.

Section Calculator.

(** [list(s)] and [for x in s] on a set [s]. *)
Variable set_iter : gset string → list string.

(** [re.findall(r'\b[A-Z][a-z]+(?:\s+[A-Z][a-z]+)*\b', resp)] *)
Variable findall_capitalized : string → list string.

(** [set(x.lower() for x in job_analysis.get(section, {}).get(key, []))]
    (lines 34-45). *)
Definition job_set (job_analysis : value) (section key : string) : result (gset string) :=
  do sec <- py_get job_analysis section (VDict []);
  do entries <- py_get sec key (VList []);
  do items <- py_iter entries;
  do lowered <- mapM str_lower items;
  Ok (list_to_set lowered).

(** [skills_set.update(skill.lower() for skill in skill_list)] *)
Definition update_lower (skills_set : gset string) (skill_list : list value)
  : result (gset string) :=
  do lowered <- mapM str_lower skill_list;
  Ok (skills_set ∪ list_to_set lowered).

(** The loop over [skills_data.items()] (lines 104-106). *)
Fixpoint update_from_categories (skills_set : gset string) (items : list (string * value))
  : result (gset string) :=
  match items with
  | [] => Ok skills_set
  | (category, skill_list) :: rest =>
      do skills_set <-
        match skill_list with
        | VList l => update_lower skills_set l
        | _ => Ok skills_set
        end;
      update_from_categories skills_set rest
  end.

(** The loop over one entry's texts (lines 113-116). *)
Fixpoint update_from_texts (skills_set : gset string) (texts : list value)
  : result (gset string) :=
  match texts with
  | [] => Ok skills_set
  | resp :: rest =>
      do text <- expect_str resp;
      let words := findall_capitalized text in
      update_from_texts (skills_set ∪ long_words_lower 3 words) rest
  end.

(** The loop over the experience entries (lines 111-116). *)
Fixpoint update_from_experience (skills_set : gset string) (entries : list value)
  : result (gset string) :=
  match entries with
  | [] => Ok skills_set
  | exp :: rest =>
      do r <- py_get exp "responsibilities" (VList []);
      do a <- py_get exp "achievements" (VList []);
      do responsibilities <- py_add_iterable r a;
      do texts <- py_iter responsibilities;
      do skills_set <- update_from_texts skills_set texts;
      update_from_experience skills_set rest
  end.

Definition _extract_candidate_skills (profile : value) : result (gset string) :=
  let skills_set : gset string := ∅ in
  do skills_data <- py_get profile "skills" (VDict []);
  do skills_set <-
    match skills_data with
    | VDict items => update_from_categories skills_set items
    | VList l => update_lower skills_set l
    | _ => Ok skills_set
    end;
  do experience <- py_get profile "experience" (VList []);
  do entries <- py_iter experience;
  update_from_experience skills_set entries.

(** The loop over the experience entries (lines 129-131). *)
Fixpoint keywords_from_experience (keywords : gset string) (entries : list value)
  : result (gset string) :=
  match entries with
  | [] => Ok keywords
  | exp :: rest =>
      do r <- py_get exp "responsibilities" (VList []);
      do a <- py_get exp "achievements" (VList []);
      do both <- py_add_iterable r a;
      do text <- str_join_space both;
      keywords_from_experience (keywords ∪ long_words_lower 4 (py_split text)) rest
  end.

Definition _extract_keywords_from_profile (profile : value) : result (gset string) :=
  let keywords : gset string := ∅ in
  do summary <- py_get profile "summary" (VStr "");
  do words <- str_split summary;
  let keywords := keywords ∪ long_words_lower 4 words in
  do experience <- py_get profile "experience" (VList []);
  do entries <- py_iter experience;
  keywords_from_experience keywords entries.

(** The inner loop of [_count_matches] (lines 147-152): the first candidate
    item that shares a word adds one and ends the loop. *)
Fixpoint partial_match (req_words : gset string) (candidates : list string) (matches : nat)
  : nat :=
  match candidates with
  | [] => matches
  | cand_item :: rest =>
      let cand_words : gset string := list_to_set (py_split cand_item) in
      if decide (req_words ∩ cand_words ≠ ∅) then (matches + 1)%nat
      else partial_match req_words rest matches
  end.

(** The body of the outer loop (lines 140-152). *)
Definition count_step (candidate : gset string) (matches : nat) (req_item : string) : nat :=
  if decide (req_item ∈ candidate) then (matches + 1)%nat
  else
    let req_words : gset string := list_to_set (py_split req_item) in
    partial_match req_words (set_iter candidate) matches.

Definition _count_matches (required candidate : gset string) : nat :=
  fold_left (count_step candidate) (set_iter required) 0%nat.

Definition _generate_recommendations
    (score : Q) (missing_required missing_nice_to_have : gset string) : list string :=
  let recommendations : list string := [] in
  let recommendations :=
    if Qltb score 50 then recommendations ++ [msg_low_match] else recommendations in
  let recommendations :=
    if decide (missing_required ≠ ∅)
    then recommendations ++
           [msg_add_required +:+ py_join ", " (take 5 (set_iter missing_required))]
    else recommendations in
  let recommendations :=
    if decide (missing_nice_to_have ≠ ∅)
    then recommendations ++
           [msg_highlight_nice +:+ py_join ", " (take 5 (set_iter missing_nice_to_have))]
    else recommendations in
  let recommendations :=
    if Qle_bool 70 score then recommendations ++ [msg_strong_match] else recommendations in
  let recommendations :=
    if decide (recommendations = []) then recommendations ++ [msg_excellent_match]
    else recommendations in
  recommendations.

(** [matches / len(required) * weight if required else default]
    (lines 57-68). *)
Definition component_score (matches : nat) (required : gset string) (weight default : Q)
  : result Q :=
  if decide (required ≠ ∅)
  then (do ratio <- py_truediv matches (size required); Ok (py_mul ratio weight))
  else Ok default.

Definition calculate_match_score (profile job_analysis : value) : result MatchResult :=
  do required_skills <- job_set job_analysis "requirements" "must_have_skills";
  do nice_to_have_skills <- job_set job_analysis "requirements" "nice_to_have_skills";
  do ats_keywords <- job_set job_analysis "keywords" "ats_keywords";
  do candidate_skills <- _extract_candidate_skills profile;
  do candidate_keywords <- _extract_keywords_from_profile profile;
  let required_matches := _count_matches required_skills candidate_skills in
  let nice_to_have_matches := _count_matches nice_to_have_skills candidate_skills in
  let keyword_matches := _count_matches ats_keywords candidate_keywords in
  do required_score <- component_score required_matches required_skills 100 100;
  do nice_to_have_score <- component_score nice_to_have_matches nice_to_have_skills 50 0;
  do keyword_score <- component_score keyword_matches ats_keywords 30 0;
  let overall_score :=
    py_min 100 (py_add (py_add required_score nice_to_have_score) keyword_score) in
  let missing_required := required_skills ∖ candidate_skills in
  let missing_nice_to_have := nice_to_have_skills ∖ candidate_skills in
  Ok {| overall_score := py_round1 overall_score;
        required_skills_score := py_round1 required_score;
        nice_to_have_score := py_round1 nice_to_have_score;
        keyword_score := py_round1 keyword_score;
        required_skills_matched := required_matches;
        required_skills_total := size required_skills;
        nice_to_have_matched := nice_to_have_matches;
        nice_to_have_total := size nice_to_have_skills;
        keywords_matched := keyword_matches;
        keywords_total := size ats_keywords;
        missing_required_skills := take 10 (set_iter missing_required);
        missing_nice_to_have_skills := take 10 (set_iter missing_nice_to_have);
        recommendations :=
          _generate_recommendations overall_score missing_required missing_nice_to_have |}.

End Calculator.

End MatchCalculator.

(** ** The vocabulary of the specification

    The definitions below follow the words of the specification, not the
    code: an occurrence of a keyword is a decomposition of the text, and it
    is a whole-word occurrence when both of its ends are word boundaries. *)

Module RankerSpec.

Definition Substring (kw text : string) : Prop :=
  ∃ pre post, chars text = pre ++ chars kw ++ post.

Definition WholeWord (kw text : string) : Prop :=
  ∃ pre post,
    chars text = pre ++ chars kw ++ post ∧
    boundary (last pre) (head (chars kw ++ post)) = true ∧
    boundary (last (pre ++ chars kw)) (head post) = true.

(** The character just before the end of [l], when [prev] is the character
    just before its start. *)
Definition last_or (prev : option ascii) (l : list ascii) : option ascii :=
  match last l with
  | Some c => Some c
  | None => prev
  end.

(** Case-insensitive: both sides are compared in lower case. *)
Definition SubstringCI (kw text : string) : Prop :=
  Substring (py_lower kw) (py_lower text).

Definition WholeWordCI (kw text : string) : Prop :=
  WholeWord (py_lower kw) (py_lower text).

(** What one keyword adds to the score of a text. *)
Definition keyword_weight (text kw : string) (w : Z) : Prop :=
  (WholeWordCI kw text ∧ w = 2) ∨
  (¬ WholeWordCI kw text ∧ SubstringCI kw text ∧ w = 1) ∨
  (¬ WholeWordCI kw text ∧ ¬ SubstringCI kw text ∧ w = 0).

(** The score of a text is the sum of the weights of the keywords. *)
Definition text_score (keywords : list string) (text : string) (score : Z) : Prop :=
  ∃ weights,
    Forall2 (keyword_weight text) keywords weights ∧ score = foldr Z.add 0 weights.

(** [score] gives every snippet of the store the score of its content. *)
Definition scores_store
    (keywords : list string) (snippets : list Snippet) (score : Snippet → Z) : Prop :=
  ∀ s, s ∈ snippets → ∃ text, content s = VStr text ∧ text_score keywords text (score s).

(** [ranked] holds the snippets of positive score, by descending score, and
    the snippets of one score are in the order they have in the store. *)
Definition Ranking (score : Snippet → Z) (snippets ranked : list Snippet) : Prop :=
  StronglySorted (fun a b => score b ≤ score a) ranked ∧
  ∀ z, filter (fun s => score s = z) ranked
       = filter (fun s => score s = z ∧ 0 < z) snippets.

Definition has_text (s : Snippet) : Prop := ∃ text, content s = VStr text.

Definition is_text (v : value) : Prop := ∃ text, v = VStr text.

(** The score that the loop of the ranker gives a snippet of the store. *)
Definition store_score (keywords : list string) (s : Snippet) : Z :=
  match content s with
  | VStr text => RAGEngine.snippet_score (py_lower text) keywords
  | _ => 0
  end.

End RankerSpec.

Export RankerSpec.

Module StoreSpec.

(** The roles and the projects of a profile, as the loops visit them. *)
Definition profile_roles (profile : value) : result (list value) :=
  do experience <- py_get profile "experience" (VList []);
  py_iter experience.

Definition profile_projects (profile : value) : result (list value) :=
  do projects <- py_get profile "projects" (VList []);
  py_iter projects.

(** The achievement entries of a role: those under [achievements], else
    those under [responsibilities], else none. *)
Definition role_entries (role : value) : list value :=
  match role with
  | VDict items =>
      match py_iter (dict_get items "achievements"
                       (dict_get items "responsibilities" (VList []))) with
      | Ok entries => entries
      | Raise _ => []
      end
  | _ => []
  end.

(** The content of the snippet of a project. *)
Definition project_content (py_repr : value → string) (project content : value) : Prop :=
  ∃ items,
    project = VDict items ∧
    content = VStr ("Project "
                    +:+ RAGEngine.py_format py_repr (dict_get items "name" VNone)
                    +:+ ": "
                    +:+ RAGEngine.py_format py_repr (dict_get items "description" VNone)).

Definition nonempty_text (v : value) : Prop :=
  ∃ text, v = VStr text ∧ text ≠ EmptyString.


End StoreSpec.

Export StoreSpec.

Module ScorerSpec.

(** Two items share a whole word. *)
Definition SharesWord (a b : string) : Prop :=
  ∃ w, w ∈ py_split a ∧ w ∈ py_split b.

(** A requirement is matched by the candidate set. *)
Definition Matched (candidate : gset string) (req : string) : Prop :=
  req ∈ candidate ∨ ∃ c, c ∈ candidate ∧ SharesWord req c.







End ScorerSpec.

Export ScorerSpec.

(** ** A small store, used to run the definitions *)

Module Sample.

Definition role_meta : Metadata :=
  ExperienceMeta (VStr "Acme") (VStr "Engineer") (VStr "2020-2023").

Definition s_migration : Snippet :=
  mkSnippet (VStr "Led migration to Python microservices") role_meta.
Definition s_tooling : Snippet :=
  mkSnippet (VStr "Built pythonic tooling for SQL audits") role_meta.
Definition s_team : Snippet :=
  mkSnippet (VStr "Managed a team of five") role_meta.
Definition s_reporting : Snippet :=
  mkSnippet (VStr "Python and SQL reporting") role_meta.
Definition s_scripts : Snippet :=
  mkSnippet (VStr "Wrote python scripts") role_meta.

Definition store : list Snippet :=
  [s_migration; s_tooling; s_team; s_reporting; s_scripts].

Definition keywords : list string := ["Python"; "SQL"].

(** Decimal numbers and containers do not occur in the sample profiles. *)
Definition no_repr (v : value) : string := "".



(** A profile whose projects entry is null. *)
Definition profile_null_projects : value :=
  VDict [("experience", VList [VDict [("company", VStr "Acme");
                                      ("achievements", VList [VStr "Built X"])]]);
         ("projects", VNone)].

(** A profile with an empty achievement line. *)
Definition profile_empty_line : value :=
  VDict [("experience", VList [VDict [("company", VStr "Acme");
                                      ("achievements", VList [VStr ""])]])].

(** The pattern search for capitalised phrases runs on experience texts
    only; the profiles given to the match calculator below have none. *)
Definition no_findall (text : string) : list string := [].

(** A job analysis whose three requirement lists are empty. *)
Definition job_empty_lists : value :=
  VDict [("requirements", VDict [("must_have_skills", VList []);
                                 ("nice_to_have_skills", VList [])]);
         ("keywords", VDict [("ats_keywords", VList [])])].

(** A job analysis with two required skills and nothing else. *)
Definition job_python_go : value :=
  VDict [("requirements", VDict [("must_have_skills", VList [VStr "Python"; VStr "Go"])])].

(** A profile with a flat list of skills. *)
Definition profile_python : value :=
  VDict [("skills", VList [VStr "Python"]); ("summary", VStr "Backend developer")].


Definition profile_thirds : value :=
  VDict [("skills", VList [VStr "Python"; VStr "Docker"]);
         ("summary", VStr "Backend developer")].

(** A job analysis whose two required skills that profile lists. *)
Definition job_python_docker : value :=
  VDict [("requirements",
          VDict [("must_have_skills", VList [VStr "PYTHON"; VStr "docker"]);
                 ("nice_to_have_skills", VList [VStr "Kubernetes"])])].

Definition required_sample : gset string :=
  list_to_set ["python"; "machine learning"; "go"].

Definition candidate_sample : gset string :=
  list_to_set ["python"; "deep learning"; "learning systems"].

(** A well-formed profile. *)
Definition profile_ok : value :=
  VDict [("experience",
          VList [VDict [("company", VStr "Acme"); ("title", VStr "Engineer");
                        ("dates", VStr "2020-2023");
                        ("achievements", VList [VStr "Built X"; VStr "Shipped Y"])];
                 VDict [("company", VStr "Initech");
                        ("responsibilities", VList [VStr "Ran Z"])]]);
         ("projects",
          VList [VDict [("name", VStr "Atlas"); ("description", VStr "maps")]])].

End Sample.

(** ** Further vocabulary *)

Module StoreShape.

(** The snippets of one role: one for each entry, each with the company,
    the title and the dates of the role, or their defaults. *)
Definition role_snippets (role : value) : list Snippet :=
  match role with
  | VDict items =>
      map (fun ach =>
             mkSnippet ach
               (ExperienceMeta (dict_get items "company" (VStr "Unknown"))
                               (dict_get items "title" (VStr "Position"))
                               (dict_get items "dates" (VStr ""))))
          (role_entries role)
  | _ => []
  end.

(** The snippet of one project. *)
Definition project_snippet (py_repr : value → string) (project : value) (s : Snippet) : Prop :=
  ∃ items,
    project = VDict items ∧
    project_content py_repr project (content s) ∧
    metadata s = ProjectMeta (dict_get items "name" VNone).

Definition is_project (s : Snippet) : Prop := ∃ name, metadata s = ProjectMeta name.

End StoreShape.

Export StoreShape.

Definition lower_case (x : string) : Prop := py_lower x = x.

(** ** More text operations *)

Module TextMore.

(** [s.lstrip()], [s.rstrip()] and [s.strip()] on the characters. *)
Fixpoint lstrip_chars (s : list ascii) : list ascii :=
  match s with
  | [] => []
  | c :: rest => if is_space c then lstrip_chars rest else s
  end.

Definition rstrip_chars (s : list ascii) : list ascii :=
  reverse (lstrip_chars (reverse s)).

Definition strip_chars (s : list ascii) : list ascii :=
  rstrip_chars (lstrip_chars s).

Definition py_strip (s : string) : string :=
  string_of_list_ascii (strip_chars (chars s)).

(** [s.split(sep)] for a separator of one character: the pieces between
    the separators, empty pieces included; there is always one piece. *)
Fixpoint split_on (sep : ascii) (s : list ascii) : list (list ascii) :=
  match s with
  | [] => [[]]
  | c :: rest =>
      if decide (c = sep) then [] :: split_on sep rest
      else match split_on sep rest with
           | piece :: pieces => (c :: piece) :: pieces
           | [] => [[c]]
           end
  end.

(** [s.startswith(p)] and [s.endswith(p)] *)
Definition ends_with (p s : list ascii) : bool :=
  starts_with (reverse p) (reverse s).

(** The trailing slice [s[:-n]] for [n > 0]. *)
Definition drop_last (n : nat) (s : list ascii) : list ascii :=
  take (length s - n) s.

End TextMore.

Export TextMore.

(** ** File names, [sanitize_filename] of [app.py] and [main.py] *)

Module Filenames.

(** The characters that are removed: the angle brackets, the colon, the
    double quote, the slash, the backslash, the bar, the question mark and
    the star. *)
Definition is_forbidden (c : ascii) : bool :=
  existsb (N.eqb (code c)) [60; 62; 58; 34; 47; 92; 124; 63; 42]%N.

Definition space : ascii := ascii_of_N 32.
Definition underscore : ascii := ascii_of_N 95.

(** [re.sub] of that class by the empty string. *)
Definition remove_forbidden (s : list ascii) : list ascii :=
  filter (fun c => is_forbidden c = false) s.

(** [s.replace(' ', '_')] *)
Definition replace_spaces (s : list ascii) : list ascii :=
  map (fun c => if decide (c = space) then underscore else c) s.

Definition sanitize_chars (name : list ascii) : list ascii :=
  replace_spaces (strip_chars (remove_forbidden name)).

Definition sanitize_filename (name : string) : string :=
  string_of_list_ascii (sanitize_chars (chars name)).

End Filenames.

(** ** The keyword score of [main.py] *)

Module Main.

Record AtsResult : Type := mkAtsResult {
  score : Q;
  total : nat;
  matched_count : nat;
  matched_list : list string;
  missing_list : list string
}.

Section AtsScore.

Variable py_repr : value → string.

(** The loop over the categories of the skills (lines 74-75). *)
Fixpoint add_categories
    (skills_data : list (string * value)) (categories : list string) (cv_text : string)
  : result string :=
  match categories with
  | [] => Ok cv_text
  | category :: rest =>
      do joined <- str_join_space (dict_get skills_data category VNone);
      add_categories skills_data rest (cv_text +:+ joined +:+ " ")
  end.

(** The loop over the roles (lines 78-80). *)
Fixpoint add_roles (roles : list value) (cv_text : string) : result string :=
  match roles with
  | [] => Ok cv_text
  | role :: rest =>
      do title <- py_get role "title" (VStr "");
      let cv_text := cv_text +:+ RAGEngine.py_format py_repr title +:+ " " in
      do achievements <- py_get role "achievements" (VList []);
      do joined <- str_join_space achievements;
      add_roles rest (cv_text +:+ joined +:+ " ")
  end.

(** The flattened, lower-cased text of the CV (lines 68-82). *)
Definition flatten_cv (customized_cv : value) : result string :=
  do summary <- py_get customized_cv "summary" (VStr "");
  let cv_text := RAGEngine.py_format py_repr summary +:+ " " in
  do skills_data <- py_get customized_cv "skills" (VDict []);
  do cv_text <-
    match skills_data with
    | VDict items => add_categories items (map fst items) cv_text
    | _ => Ok cv_text
    end;
  do experience <- py_get customized_cv "experience" (VList []);
  do roles <- py_iter experience;
  do cv_text <- add_roles roles cv_text;
  Ok (py_lower cv_text).

(** The loop over the keywords (lines 88-92): the matched and the missing
    keywords, each in the order of the list. *)
Fixpoint match_keywords (cv_text : string) (job_keywords : list value)
  : result (list string * list string) :=
  match job_keywords with
  | [] => Ok ([], [])
  | kw :: rest =>
      match kw with
      | VStr s =>
          do lists <- match_keywords cv_text rest;
          Ok (if py_in (py_lower s) cv_text
              then (s :: fst lists, snd lists)
              else (fst lists, s :: snd lists))
      | _ => Raise AttributeError
      end
  end.

Definition calculate_match_score (customized_cv job_keywords : value) : result AtsResult :=
  do cv_text <- flatten_cv customized_cv;
  do keywords <- py_iter job_keywords;
  do lists <- match_keywords cv_text keywords;
  let matched := fst lists in
  let missing := snd lists in
  let total := length keywords in
  do score <-
    (if decide (0 < total)%nat
     then (do ratio <- py_truediv (length matched) total; Ok (py_mul ratio 100))
     else Ok 0%Q);
  Ok {| score := py_round1 score;
        total := total;
        matched_count := length matched;
        matched_list := matched;
        missing_list := missing |}.

End AtsScore.

End Main.

Module SampleCv.

Definition customized_cv : value :=
  VDict [("summary", VStr "Backend engineer building Python services");
         ("skills", VDict [("Technical", VList [VStr "Django"; VStr "PostgreSQL"])]);
         ("experience",
          VList [VDict [("title", VStr "Engineer");
                        ("achievements", VList [VStr "Cut latency by 40%"])]])].

Definition job_keywords : value :=
  VList [VStr "python"; VStr "Kubernetes"; VStr "DJANGO"].

End SampleCv.

(** ** The import from LinkedIn, [LinkedInScraper.create_master_profile] *)

Module LinkedInScraper.

Definition default_skills : value :=
  VDict [("Technical", VList []); ("Soft Skills", VList []); ("Tools", VList [])].

Definition create_master_profile (parsed_data : value) : result value :=
  do personal_info <- py_get parsed_data "personal_info" (VDict []);
  do name <- py_get personal_info "name" (VStr "");
  do email <- py_get personal_info "email" (VStr "your.email@example.com");
  do phone <- py_get personal_info "phone" (VStr "+1 555-0000");
  do linkedin <- py_get personal_info "linkedin" (VStr "");
  do location <- py_get personal_info "location" (VStr "");
  do summary <- py_get parsed_data "summary" (VStr "");
  do skills <- py_get parsed_data "skills" default_skills;
  do experience <- py_get parsed_data "experience" (VList []);
  do education <- py_get parsed_data "education" (VList []);
  do certifications <- py_get parsed_data "certifications" (VList []);
  Ok (VDict [("personal_info",
              VDict [("name", name); ("email", email); ("phone", phone);
                     ("linkedin", linkedin); ("location", location)]);
             ("summary", summary);
             ("skills", skills);
             ("experience", experience);
             ("education", education);
             ("certifications", certifications)]).

End LinkedInScraper.

Module SampleImport.

Definition parsed_data : value :=
  VDict [("personal_info", VDict [("name", VStr "Ada")]);
         ("experience",
          VList [VDict [("company", VStr "Acme");
                        ("responsibilities", VList [VStr "Ran Z"])]]);
         ("projects", VList [VDict [("name", VStr "Atlas")]])].

Definition parsed_skills : value :=
  VDict [("summary", VStr "Backend developer");
         ("skills", VDict [("Technical", VList [VStr "Python"])])].

End SampleImport.

(** ** The parsing of a model response, [_parse_json_safe] *)

Module LLMClient.

Definition fence_json : list ascii := chars "```json".
Definition fence : list ascii := chars "```".

(** The text that is given to [json.loads]: the response without the
    surrounding white space and Markdown fence. *)
Definition clean_response_chars (text : list ascii) : list ascii :=
  let cleaned := strip_chars text in
  let cleaned :=
    if starts_with fence_json cleaned then drop 7 cleaned
    else if starts_with fence cleaned then drop 3 cleaned
    else cleaned in
  let cleaned :=
    if ends_with fence cleaned then drop_last 3 cleaned else cleaned in
  strip_chars cleaned.

Definition clean_response (text : string) : string :=
  string_of_list_ascii (clean_response_chars (chars text)).

(** [text.find(c)], with [None] for -1. *)
Fixpoint find_char (c : ascii) (s : list ascii) : option nat :=
  match s with
  | [] => None
  | d :: rest => if decide (d = c) then Some 0%nat else S <$> find_char c rest
  end.

(** [text.rfind(c) + 1]: 0 when the character does not occur. *)
Fixpoint rfind_end (c : ascii) (s : list ascii) : nat :=
  match s with
  | [] => 0
  | d :: rest =>
      match rfind_end c rest with
      | 0%nat => if decide (d = c) then 1%nat else 0%nat
      | S k => S (S k)
      end
  end.

(** [text[start:end]] for indices that are not negative. *)
Definition py_slice (s : list ascii) (start stop : nat) : list ascii :=
  take (stop - start) (drop start s).

Definition open_brace : ascii := ascii_of_N 123.
Definition close_brace : ascii := ascii_of_N 125.

Section Parse.

(** [json.loads], with [None] for a [JSONDecodeError]. *)
Variable json_loads : string → option value.

(** [GeminiClient._parse_json_safe] *)
Definition gemini_parse_json_safe (text : string) : result value :=
  match json_loads (clean_response text) with
  | Some v => Ok v
  | None => Raise ValueError
  end.

(** [DeepSeekClient._parse_json_safe]: when the cleaned text is not JSON,
    the span from the first opening brace to the last closing brace is
    tried. *)
Definition deepseek_parse_json_safe (text : string) : result value :=
  match json_loads (clean_response text) with
  | Some v => Ok v
  | None =>
      match find_char open_brace (chars text) with
      | Some start =>
          let stop := rfind_end close_brace (chars text) in
          match json_loads (string_of_list_ascii (py_slice (chars text) start stop)) with
          | Some v => Ok v
          | None => Raise ValueError
          end
      | None => Raise ValueError
      end
  end.

End Parse.

End LLMClient.

Module SampleResponse.

(** A loader that knows one document. *)
Definition loads_empty_object (s : string) : option value :=
  if decide (s = "{}") then Some (VDict []) else None.

Definition newline : ascii := ascii_of_N 10.

End SampleResponse.

Module ParseSpec.

Definition all_space (ws : list ascii) : Prop := Forall (fun c => is_space c = true) ws.

(** A text without white space at its ends. *)
Definition trimmed (p : list ascii) : Prop := strip_chars p = p.

(** A payload inside a Markdown fence, with white space around it. *)
Definition fenced (opening ws1 : list ascii) (p : string) (ws2 : list ascii) : string :=
  string_of_list_ascii (opening ++ ws1 ++ chars p ++ ws2 ++ LLMClient.fence).

(** A JSON object inside other text. *)
Definition embedded (pre mid post : list ascii) : string :=
  string_of_list_ascii
    (pre ++ (LLMClient.open_brace :: mid ++ [LLMClient.close_brace]) ++ post).

End ParseSpec.

Export ParseSpec.

(** ** The validation of a job analysis, [JobAnalyzer._validate_analysis] *)

Module JobAnalyzer.

(** Besides the exceptions of [exn], an item access can raise [KeyError]. *)
Inductive failure : Type :=
| KeyError
| Builtin (e : exn).

Inductive validation : Type :=
| Validated (analysis : value)
| Failed (f : failure).

(** [d[key] = v]: the value of an existing key is replaced in place, a new
    key is added at the end. *)
Fixpoint dict_set (items : list (string * value)) (key : string) (v : value)
  : list (string * value) :=
  match items with
  | [] => [(key, v)]
  | (k, x) :: rest =>
      if decide (k = key) then (k, v) :: rest else (k, x) :: dict_set rest key v
  end.

(** [key in d] *)
Definition dict_has (items : list (string * value)) (key : string) : bool :=
  bool_decide (key ∈ map fst items).

(** The truth value of a Python value. *)
Definition py_truthy (v : value) : bool :=
  match v with
  | VNone => false
  | VBool b => b
  | VNum x => negb (Qeq_bool x 0)
  | VStr s => negb (bool_decide (s = EmptyString))
  | VList l => negb (bool_decide (l = []))
  | VDict d => negb (bool_decide (d = []))
  end.

(** [v != "Unknown"] *)
Definition not_unknown (v : value) : bool :=
  match v with
  | VStr s => negb (bool_decide (s = "Unknown"))
  | _ => true
  end.

(** The check of the company name (lines 38-43): the items of the analysis
    after it.  [role_info] is the dict under the key, so that the item
    assignment is seen through the analysis. *)
Definition check_company
    (items role_info : list (string * value)) (raw_text : string)
  : result (list (string * value)) :=
  let company := dict_get role_info "company" (VStr "Unknown") in
  if py_truthy company && not_unknown company then
    match company with
    | VStr c =>
        if py_in (py_lower c) (py_lower raw_text) then Ok items
        else Ok (dict_set items "role_info"
                   (VDict (dict_set role_info "company" (VStr "Unknown"))))
    | _ => Raise AttributeError
    end
  else Ok items.

(** The check of the keyword list (lines 46-47). *)
Definition check_keywords (items : list (string * value)) : validation :=
  match dict_get items "keywords" (VDict []) with
  | VDict keywords =>
      match dict_get keywords "ats_keywords" VNone with
      | VList _ => Validated (VDict items)
      | _ =>
          if dict_has items "keywords"
          then Validated
                 (VDict (dict_set items "keywords"
                           (VDict (dict_set keywords "ats_keywords" (VList [])))))
          else Failed KeyError
      end
  | _ => Failed (Builtin AttributeError)
  end.

Definition _validate_analysis (analysis : value) (raw_text : string) : validation :=
  match analysis with
  | VDict items =>
      match dict_get items "role_info" (VDict []) with
      | VDict role_info =>
          match check_company items role_info raw_text with
          | Ok items' => check_keywords items'
          | Raise e => Failed (Builtin e)
          end
      | _ => Failed (Builtin AttributeError)
      end
  | _ => Failed (Builtin AttributeError)
  end.

End JobAnalyzer.

Module AnalysisSpec.

(** The company of an analysis, as the validation reads it. *)
Definition company_of (analysis : value) : value :=
  match analysis with
  | VDict items =>
      match dict_get items "role_info" (VDict []) with
      | VDict role_info => dict_get role_info "company" (VStr "Unknown")
      | _ => VNone
      end
  | _ => VNone
  end.

(** A company name is grounded in the text when it is absent or empty,
    "Unknown", or a string that occurs in the text, case ignored. *)
Definition grounded (company : value) (raw_text : string) : Prop :=
  JobAnalyzer.py_truthy company = false ∨
  company = VStr "Unknown" ∨
  ∃ c, company = VStr c ∧ SubstringCI c raw_text.

(** The keyword list of an analysis, as the callers read it. *)
Definition ats_keywords_of (analysis : value) : result value :=
  do keywords <- py_get analysis "keywords" (VDict []);
  py_get keywords "ats_keywords" (VList []).

End AnalysisSpec.

Export AnalysisSpec.

Module SampleAnalysis.

Definition analysis : value :=
  VDict [("role_info", VDict [("title", VStr "Engineer"); ("company", VStr "Globex")]);
         ("keywords", VDict [("ats_keywords", VNone)])].

Definition raw_text : string := "We are hiring an Engineer to build data pipelines.".

End SampleAnalysis.

(** ** The dispatch of [ResumeParser.parse_resume] *)

Module ResumeParser.

Definition dot : ascii := ascii_of_N 46.
Definition line_feed : ascii := ascii_of_N 10.

(** [filename.split('.')[-1].lower()] *)
Definition extension (filename : string) : string :=
  py_lower (string_of_list_ascii (default [] (last (split_on dot (chars filename))))).

Section Parse.

(** The two extractors catch every exception and return the text read so
    far; the structuring is done by the model client. *)
Variable extract_text_from_pdf : string → string.
Variable extract_text_from_docx : string → string.
Variable generate_json : string → string → result value.

(** The text of the system prompt (lines 51-73). *)
Variable system_prompt : string.

Definition resume_prompt (raw_text : string) : string :=
  "Extract the profile information from this resume text:"
  +:+ String line_feed (String line_feed raw_text).

Definition parse_resume (file_bytes filename : string) : result value :=
  let ext := extension filename in
  do raw_text <-
    (if decide (ext = "pdf") then Ok (extract_text_from_pdf file_bytes)
     else if decide (ext = "docx" ∨ ext = "doc")
          then Ok (extract_text_from_docx file_bytes)
          else Raise ValueError);
  if decide (py_strip raw_text = "") then Raise ValueError
  else match generate_json (resume_prompt raw_text) system_prompt with
       | Ok structured_data => Ok structured_data
       | Raise _ => Raise ValueError
       end.

End Parse.

End ResumeParser.

(** ** The body of a cover letter, [DocumentBuilder.create_cover_letter] *)

Module DocumentBuilder.

(** The texts of the paragraphs that the loop over the lines of the letter
    adds to the document (lines 197-200). *)
Definition body_paragraphs (letter_body : string) : list string :=
  map string_of_list_ascii
    (filter (fun p => p ≠ [])
       (map strip_chars (split_on ResumeParser.line_feed (chars letter_body)))).

(** The characters of a text that are not white space. *)
Definition ink (s : list ascii) : list ascii :=
  filter (fun c => is_space c = false) s.

End DocumentBuilder.

(* further-definitions *)

(** ** Facts about text *)

Section TextFacts.

Implicit Types (kw text pre post : list ascii) (prev : option ascii).

Lemma starts_with_spec kw text :
  starts_with kw text = true ↔ ∃ post, text = kw ++ post.
Proof.
  revert text. induction kw as [|c kw IH]; intros text; simpl.
  - split; [eauto|done].
  - destruct text as [|d text].
    + split; [done | intros [post ?]; discriminate].
    + rewrite andb_true_iff, bool_decide_eq_true, IH. split.
      * intros [-> [post ->]]. eauto.
      * intros [post [= -> ->]]. eauto.
Qed.

Lemma occurs_in_spec kw text :
  occurs_in kw text = true ↔ ∃ pre post, text = pre ++ kw ++ post.
Proof.
  induction text as [|d text IH]; simpl;
    rewrite orb_true_iff, starts_with_spec.
  - split.
    + intros [[post ->] | ?]; [by exists [], post | done].
    + intros (pre & post & E). left. destruct pre; [eauto | discriminate].
  - rewrite IH. split.
    + intros [[post ->] | (pre & post & ->)].
      * by exists [], post.
      * by exists (d :: pre), post.
    + intros (pre & post & E). destruct pre as [|d' pre]; simpl in E.
      * left. eauto.
      * right. injection E as -> ->. eauto.
Qed.

Lemma last_or_nil prev : last_or prev [] = prev.
Proof. done. Qed.

Lemma last_or_cons prev c l : last_or prev (c :: l) = last_or (Some c) l.
Proof.
  unfold last_or. destruct l as [|d l]; [done|].
  rewrite last_cons. by destruct (last (d :: l)).
Qed.

Lemma last_or_None l : last_or None l = last l.
Proof. unfold last_or. by destruct (last l). Qed.

Lemma literal_then_boundary_spec kw text prev :
  literal_then_boundary kw text prev = true ↔
  ∃ post, text = kw ++ post ∧ boundary (last_or prev kw) (head post) = true.
Proof.
  revert text prev. induction kw as [|c kw IH]; intros text prev; simpl.
  - rewrite last_or_nil. split; [eauto | by intros (post & -> & ?)].
  - destruct text as [|d text].
    + split; [done | intros (post & ? & _); discriminate].
    + rewrite andb_true_iff, bool_decide_eq_true, IH. split.
      * intros [-> (post & -> & Hb)]. exists post. by rewrite last_or_cons.
      * intros (post & [= -> ->] & Hb). rewrite last_or_cons in Hb. eauto.
Qed.

Lemma search_from_spec kw text prev :
  search_from kw text prev = true ↔
  ∃ pre post,
    text = pre ++ kw ++ post ∧
    boundary (last_or prev pre) (head (kw ++ post)) = true ∧
    boundary (last_or prev (pre ++ kw)) (head post) = true.
Proof.
  revert prev. induction text as [|d text IH]; intros prev; simpl;
    unfold match_here; rewrite orb_true_iff, andb_true_iff,
      literal_then_boundary_spec.
  - split.
    + intros [[Hb (post & E & Hb')] | ?]; [|done].
      exists [], post. by rewrite <- E.
    + intros (pre & post & E & Hb & Hb'). left.
      destruct pre; [|discriminate]. simpl in *. rewrite <- E in Hb. eauto.
  - rewrite IH. split.
    + intros [[Hb (post & E & Hb')] | (pre & post & -> & Hb & Hb')].
      * exists [], post. by rewrite <- E.
      * exists (d :: pre), post. simpl. by rewrite !last_or_cons.
    + intros (pre & post & E & Hb & Hb'). destruct pre as [|d' pre]; simpl in *.
      * left. rewrite <- E in Hb. eauto.
      * right. injection E as -> ->. rewrite !last_or_cons in *. eauto.
Qed.

Lemma py_in_spec (kw text : string) :
  py_in kw text = true ↔ Substring kw text.
Proof. apply occurs_in_spec. Qed.

Lemma re_search_word_spec (kw text : string) :
  re_search_word kw text = true ↔ WholeWord kw text.
Proof.
  unfold re_search_word, WholeWord. rewrite search_from_spec.
  by setoid_rewrite last_or_None.
Qed.

Lemma WholeWord_Substring (kw text : string) :
  WholeWord kw text → Substring kw text.
Proof. intros (pre & post & E & _). by exists pre, post. Qed.

End TextFacts.

(** ** Facts about the ranker *)

Section RankerFacts.

Import RAGEngine.

Implicit Types (snippets ranked : list Snippet) (keywords : list string).
Implicit Types (scored : list (Z * Snippet)) (score : Snippet → Z).

(** *** The score of one snippet *)

Lemma score_loop_shift (t : string) keywords (acc : Z) :
  fold_left
    (fun sc kw =>
       if re_search_word (py_lower kw) t then sc + 2
       else if py_in (py_lower kw) t then sc + 1
       else sc)
    keywords acc
  = acc + snippet_score t keywords.
Proof.
  unfold snippet_score. revert acc.
  induction keywords as [|kw keywords IH]; intros acc; simpl; [lia|].
  rewrite IH, (IH (if re_search_word _ _ then _ else _)).
  repeat case_match; lia.
Qed.

Lemma snippet_score_cons (t : string) kw keywords :
  snippet_score t (kw :: keywords) = snippet_score t [kw] + snippet_score t keywords.
Proof. unfold snippet_score at 1 2. simpl. by rewrite score_loop_shift. Qed.

Lemma snippet_score_app (t : string) keywords1 keywords2 :
  snippet_score t (keywords1 ++ keywords2)
  = snippet_score t keywords1 + snippet_score t keywords2.
Proof.
  induction keywords1 as [|kw keywords1 IH]; simpl; [done|].
  rewrite snippet_score_cons, (snippet_score_cons _ kw keywords1), IH. lia.
Qed.

Lemma snippet_score_nonneg (t : string) keywords : 0 ≤ snippet_score t keywords.
Proof.
  induction keywords as [|kw keywords IH]; [done|].
  rewrite snippet_score_cons. unfold snippet_score at 1. simpl.
  repeat case_match; lia.
Qed.

Lemma snippet_score_whole_word (text kw : string) :
  WholeWordCI kw text → snippet_score (py_lower text) [kw] = 2.
Proof.
  intros H%re_search_word_spec. unfold snippet_score. simpl. by rewrite H.
Qed.

Lemma keyword_weight_code (text kw : string) (w : Z) :
  keyword_weight text kw w ↔ w = snippet_score (py_lower text) [kw].
Proof.
  unfold keyword_weight, WholeWordCI, SubstringCI, snippet_score. simpl.
  rewrite <- re_search_word_spec, <- py_in_spec.
  destruct (re_search_word _ _), (py_in _ _);
    intuition (lia || congruence).
Qed.

Lemma text_score_code keywords (text : string) (z : Z) :
  text_score keywords text z ↔ z = snippet_score (py_lower text) keywords.
Proof.
  unfold text_score. revert z.
  induction keywords as [|kw keywords IH]; intros z.
  - split.
    + intros (ws & H & ->). by inversion H.
    + intros ->. exists []. by split; [constructor|].
  - rewrite snippet_score_cons. split.
    + intros (ws & H & ->). inversion H as [|? w ? ws' Hw Hws]; subst. simpl.
      apply keyword_weight_code in Hw as <-. f_equal. apply IH. eauto.
    + intros ->.
      destruct (proj2 (IH (snippet_score (py_lower text) keywords)) eq_refl)
        as (ws & Hws & E).
      exists (snippet_score (py_lower text) [kw] :: ws). split.
      * constructor; [by apply keyword_weight_code | done].
      * simpl. by rewrite E.
Qed.

(** *** The stable sort *)

Lemma insert_desc_perm (x : Z * Snippet) scored : insert_desc x scored ≡ₚ x :: scored.
Proof.
  induction scored as [|y scored IH]; simpl; [done|].
  case_match; [done|]. rewrite IH. apply Permutation_swap.
Qed.

Lemma sort_desc_perm scored : sort_desc scored ≡ₚ scored.
Proof.
  induction scored as [|x scored IH]; simpl; [done|].
  by rewrite insert_desc_perm, IH.
Qed.

Lemma insert_desc_sorted (x : Z * Snippet) scored :
  StronglySorted (fun a b => fst b ≤ fst a) scored →
  StronglySorted (fun a b => fst b ≤ fst a) (insert_desc x scored).
Proof.
  induction 1 as [|y scored Hs IH Hy]; simpl.
  - repeat constructor.
  - destruct (Z.leb_spec (fst y) (fst x)).
    + constructor; [by constructor|].
      constructor; [done|]. eapply Forall_impl; [exact Hy|]. simpl. lia.
    + constructor; [done|]. rewrite insert_desc_perm.
      constructor; [lia | done].
Qed.

Lemma sort_desc_sorted scored :
  StronglySorted (fun a b => fst b ≤ fst a) (sort_desc scored).
Proof.
  induction scored; simpl; [constructor | by apply insert_desc_sorted].
Qed.

Lemma insert_desc_filter (z : Z) (x : Z * Snippet) scored :
  filter (fun p => fst p = z) (insert_desc x scored)
  = filter (fun p => fst p = z) (x :: scored).
Proof.
  induction scored as [|y scored IH]; simpl; [done|].
  destruct (Z.leb_spec (fst y) (fst x)); [done|].
  rewrite filter_cons, IH, !filter_cons.
  repeat case_decide; try done; lia.
Qed.

Lemma sort_desc_filter (z : Z) scored :
  filter (fun p => fst p = z) (sort_desc scored) = filter (fun p => fst p = z) scored.
Proof.
  induction scored as [|x scored IH]; simpl; [done|].
  by rewrite insert_desc_filter, !filter_cons, IH.
Qed.

(** *** The slice *)

Lemma py_slice_to_nonneg {A} (l : list A) (k : Z) :
  0 ≤ k → py_slice_to l k = take (Z.to_nat k) l.
Proof.
  intros Hk. unfold py_slice_to.
  destruct (Z.ltb_spec k 0); [lia|].
  destruct (Z.le_gt_cases k (Z.of_nat (length l))).
  - by rewrite Z.min_l.
  - rewrite Z.min_r, Nat2Z.id by lia. rewrite !firstn_all2; [done | lia | lia].
Qed.

Lemma py_slice_to_neg {A} (l : list A) (n : nat) :
  (0 < n)%nat →
  py_slice_to l (- Z.of_nat n) = take (length l - Nat.min n (length l)) l.
Proof.
  intros Hn. unfold py_slice_to.
  destruct (Z.ltb_spec (- Z.of_nat n) 0); [|lia]. f_equal. lia.
Qed.

Lemma py_slice_to_map {A B} (f : A → B) (l : list A) (k : Z) :
  map f (py_slice_to l k) = py_slice_to (map f l) k.
Proof. unfold py_slice_to. by rewrite length_map, firstn_map. Qed.

(** *** The whole of [retrieve_relevant_experience] *)

Lemma scores_store_cons keywords s snippets score :
  scores_store keywords (s :: snippets) score →
  (∃ text, content s = VStr text ∧ score s = snippet_score (py_lower text) keywords) ∧
  scores_store keywords snippets score.
Proof.
  intros H. split.
  - destruct (H s) as (text & E & Hs); [left|].
    exists text. split; [done|]. by apply text_score_code.
  - intros s' Hs'. apply H. by right.
Qed.

Lemma score_snippets_spec keywords snippets score :
  scores_store keywords snippets score →
  score_snippets snippets keywords
  = Ok (map (fun s => (score s, s)) (filter (fun s => 0 < score s) snippets)).
Proof.
  induction snippets as [|s snippets IH]; intros H; simpl; [done|].
  apply scores_store_cons in H as [(text & E & Hs) H].
  rewrite E, (IH H). simpl. rewrite <- Hs, filter_cons.
  destruct (Z.ltb_spec 0 (score s)); case_decide; done || lia.
Qed.

Lemma tagged_filter_snd score (z : Z) scored :
  Forall (fun p => fst p = score (snd p)) scored →
  filter (fun s => score s = z) (map snd scored)
  = map snd (filter (fun p => fst p = z) scored).
Proof.
  induction 1 as [|p scored Hp _ IH]; simpl; [done|].
  rewrite !filter_cons, IH, <- Hp. by case_decide.
Qed.

Lemma tagged_sorted_snd score scored :
  Forall (fun p => fst p = score (snd p)) scored →
  StronglySorted (fun a b => fst b ≤ fst a) scored →
  StronglySorted (fun a b => score b ≤ score a) (map snd scored).
Proof.
  intros Ht Hs. induction Hs as [|p scored Hs IH Hp]; simpl; [constructor|].
  apply Forall_cons in Ht as [Hp' Ht]. constructor; [by apply IH|].
  rewrite Forall_forall in Hp, Ht. apply Forall_forall. intros s Hin.
  apply list_elem_of_In, in_map_iff in Hin as [q [<- Hq%list_elem_of_In]].
  specialize (Hp q Hq). specialize (Ht q Hq). simpl in *. lia.
Qed.

Lemma tagged_filter_map score (z : Z) snippets :
  map snd (filter (fun p : Z * Snippet => fst p = z) (map (fun s => (score s, s)) snippets))
  = filter (fun s => score s = z) snippets.
Proof.
  induction snippets as [|s snippets IH]; simpl; [done|].
  rewrite !filter_cons. simpl. case_decide; simpl; by rewrite IH.
Qed.

(** The ranker returns a slice of the ranking of the store. *)
Lemma retrieve_ranked keywords snippets score :
  scores_store keywords snippets score →
  ∃ ranked,
    Ranking score snippets ranked ∧
    ∀ top_k, retrieve_relevant_experience snippets keywords top_k
             = Ok (py_slice_to ranked top_k).
Proof.
  intros H.
  set (scored := map (fun s => (score s, s)) (filter (fun s => 0 < score s) snippets)).
  assert (Ht : Forall (fun p => fst p = score (snd p)) (sort_desc scored)).
  { rewrite sort_desc_perm. subst scored. apply Forall_forall.
    intros p Hp. by apply list_elem_of_In, in_map_iff in Hp as [s [<- _]]. }
  exists (map snd (sort_desc scored)). split; [split|].
  - apply tagged_sorted_snd; [done | apply sort_desc_sorted].
  - intros z. rewrite (tagged_filter_snd _ _ _ Ht), sort_desc_filter.
    subst scored. rewrite tagged_filter_map, list_filter_filter.
    apply list_filter_iff. intros s. split; intros [? ?]; split; lia.
  - intros top_k. unfold retrieve_relevant_experience.
    rewrite (score_snippets_spec _ _ _ H). simpl. by rewrite py_slice_to_map.
Qed.

(** Two rankings of one store are the same list: the result does not depend
    on how the stable sort is carried out. *)
Lemma Ranking_unique score snippets ranked1 ranked2 :
  Ranking score snippets ranked1 → Ranking score snippets ranked2 → ranked1 = ranked2.
Proof.
  intros [Hs1 Hf1] [Hs2 Hf2].
  assert (Hf : ∀ z, filter (fun s => score s = z) ranked1
                    = filter (fun s => score s = z) ranked2)
    by (intros z; by rewrite Hf1, Hf2).
  clear Hf1 Hf2. revert ranked2 Hs2 Hf.
  induction Hs1 as [|a l1 Hs1 IH Ha]; intros ranked2 Hs2 Hf.
  - destruct ranked2 as [|b l2]; [done|].
    specialize (Hf (score b)). by rewrite filter_nil, filter_cons_True in Hf.
  - destruct Hs2 as [|b l2 Hs2 Hb].
    { specialize (Hf (score a)). by rewrite filter_nil, filter_cons_True in Hf. }
    assert (score b ≤ score a).
    { assert (Hin : b ∈ filter (fun s => score s = score b) (a :: l1)).
      { rewrite Hf, filter_cons_True by done. left. }
      apply list_elem_of_filter in Hin as [_ Hin].
      apply elem_of_cons in Hin as [->|Hin]; [lia|].
      rewrite Forall_forall in Ha. by apply Ha. }
    assert (score a ≤ score b).
    { assert (Hin : a ∈ filter (fun s => score s = score a) (b :: l2)).
      { rewrite <- Hf, filter_cons_True by done. left. }
      apply list_elem_of_filter in Hin as [_ Hin].
      apply elem_of_cons in Hin as [->|Hin]; [lia|].
      rewrite Forall_forall in Hb. by apply Hb. }
    assert (a = b) as <-.
    { specialize (Hf (score a)).
      rewrite !filter_cons_True in Hf by lia. by injection Hf. }
    f_equal. apply IH; [done|]. intros z. specialize (Hf z).
    rewrite !filter_cons in Hf. case_decide; [by injection Hf | done].
Qed.

End RankerFacts.

(** ** Properties of the ranker *)

Section RankerProperties.

Import RAGEngine.

Lemma store_score_scores keywords snippets :
  Forall has_text snippets → scores_store keywords snippets (store_score keywords).
Proof.
  intros H s Hs. rewrite Forall_forall in H.
  destruct (H s Hs) as [text E]. exists text. split; [done|].
  apply text_score_code. unfold store_score. by rewrite E.
Qed.

Lemma sample_store_scored :
  scores_store Sample.keywords Sample.store (store_score Sample.keywords).
Proof.
  apply store_score_scores. unfold Sample.store. repeat constructor; by eexists.
Qed.

(** C2: the ranker gives every snippet the sum, over the keywords, of 2 for
    a whole-word case-insensitive occurrence in its content, else 1 for a
    case-insensitive substring occurrence, else 0; it drops the snippets of
    score 0, orders the others by descending score with the order of the
    store kept among equal scores, and returns the first [top_k] of them. *)
Theorem retrieve_ranks_by_score
    (snippets : list Snippet) (keywords : list string)
    (score : Snippet → Z) (top_k : nat) :
  scores_store keywords snippets score →
  ∃ ranked,
    Ranking score snippets ranked ∧
    retrieve_relevant_experience snippets keywords (Z.of_nat top_k)
    = Ok (take top_k ranked).
Proof.
  intros H. destruct (retrieve_ranked _ _ _ H) as (ranked & Hr & E).
  exists ranked. split; [done|].
  rewrite E, py_slice_to_nonneg by lia. by rewrite Nat2Z.id.
Qed.

Lemma retrieve_ranks_by_score_witness :
  scores_store Sample.keywords Sample.store (store_score Sample.keywords) ∧
  ∃ ranked,
    Ranking (store_score Sample.keywords) Sample.store ranked ∧
    retrieve_relevant_experience Sample.store Sample.keywords 3
    = Ok (take 3 ranked).
Proof.
  split; [exact sample_store_scored|].
  exact (retrieve_ranks_by_score Sample.store Sample.keywords
           (store_score Sample.keywords) 3 sample_store_scored).
Defined.

(** C8: for a top_k = k that is not negative the result of the ranker has
    at most k entries, and it is empty for top_k = 0; the ranker does return
    a result on every store whose contents are text. *)
Theorem retrieve_top_k_bound
    (snippets : list Snippet) (keywords : list string) (top_k : Z) :
  0 ≤ top_k →
  (Forall has_text snippets →
   ∃ r, retrieve_relevant_experience snippets keywords top_k = Ok r) ∧
  (∀ r, retrieve_relevant_experience snippets keywords top_k = Ok r →
        Z.of_nat (length r) ≤ top_k ∧ (top_k = 0 → r = [])).
Proof.
  intros Hk. split.
  - intros H%(store_score_scores keywords).
    destruct (retrieve_ranked _ _ _ H) as (ranked & _ & E). rewrite E. eauto.
  - intros r. unfold retrieve_relevant_experience.
    destruct (score_snippets snippets keywords) as [scored|e]; simpl; [|done].
    intros [= <-]. rewrite py_slice_to_nonneg by done. split.
    + rewrite length_map, length_take. lia.
    + intros ->. done.
Qed.

Lemma retrieve_top_k_bound_witness :
  retrieve_relevant_experience Sample.store Sample.keywords 2
  = Ok [Sample.s_reporting; Sample.s_tooling] ∧
  Z.of_nat (length [Sample.s_reporting; Sample.s_tooling]) ≤ 2.
Proof.
  split; [reflexivity|].
  apply (retrieve_top_k_bound Sample.store Sample.keywords 2); [lia | reflexivity].
Defined.

(** C9: adding a keyword that occurs as a whole word in the content of a
    snippet never lowers the score of that snippet. *)
Theorem score_monotone
    (text : string) (keywords1 keywords2 : list string) (kw : string) :
  WholeWordCI kw text →
  snippet_score (py_lower text) (keywords1 ++ keywords2)
  ≤ snippet_score (py_lower text) (keywords1 ++ kw :: keywords2).
Proof.
  intros H. rewrite !snippet_score_app, (snippet_score_cons _ kw).
  rewrite (snippet_score_whole_word _ _ H). lia.
Qed.

Lemma sample_whole_word :
  WholeWordCI "Python" "Led migration to Python microservices".
Proof. by apply re_search_word_spec. Qed.

Lemma score_monotone_witness :
  snippet_score (py_lower "Led migration to Python microservices") ["SQL"; "micro"]
  ≤ snippet_score (py_lower "Led migration to Python microservices")
      ["SQL"; "micro"; "Python"].
Proof.
  exact (score_monotone "Led migration to Python microservices"
           ["SQL"; "micro"] [] "Python" sample_whole_word).
Defined.

(** C10: with a negative top_k = -n the ranker returns the ranking without
    its last min(n, number of matches) entries, which is neither an error
    nor in general the empty list; the bound of the result's length by
    top_k does not hold then. *)
Theorem retrieve_negative_top_k
    (snippets : list Snippet) (keywords : list string)
    (score : Snippet → Z) (n : nat) :
  (0 < n)%nat →
  scores_store keywords snippets score →
  ∃ ranked,
    Ranking score snippets ranked ∧
    retrieve_relevant_experience snippets keywords (- Z.of_nat n)
    = Ok (take (length ranked - Nat.min n (length ranked)) ranked) ∧
    ¬ Z.of_nat (length (take (length ranked - Nat.min n (length ranked)) ranked))
      ≤ - Z.of_nat n.
Proof.
  intros Hn H. destruct (retrieve_ranked _ _ _ H) as (ranked & Hr & E).
  exists ranked. split; [done|]. split; [|lia].
  by rewrite E, py_slice_to_neg.
Qed.

Lemma retrieve_negative_top_k_witness :
  retrieve_relevant_experience Sample.store Sample.keywords (-1)
  = Ok [Sample.s_reporting; Sample.s_tooling; Sample.s_migration] ∧
  ∃ ranked,
    Ranking (store_score Sample.keywords) Sample.store ranked ∧
    retrieve_relevant_experience Sample.store Sample.keywords (- Z.of_nat 1)
    = Ok (take (length ranked - Nat.min 1 (length ranked)) ranked) ∧
    ¬ Z.of_nat (length (take (length ranked - Nat.min 1 (length ranked)) ranked))
      ≤ - Z.of_nat 1.
Proof.
  split; [reflexivity|].
  apply (retrieve_negative_top_k Sample.store Sample.keywords
           (store_score Sample.keywords) 1); [lia | exact sample_store_scored].
Defined.

End RankerProperties.

(** ** Facts about the construction of the store *)

Section StoreFacts.

Import RAGEngine.

Variable py_repr : value → string.

Lemma for_each_ext {X} (body1 body2 : X → Store unit) (xs : list X) st :
  (∀ x st', body1 x st' = body2 x st') →
  for_each xs body1 st = for_each xs body2 st.
Proof.
  intros H. revert st. induction xs as [|x xs IH]; intros st; simpl; [done|].
  unfold bindS. rewrite H. destruct (body2 x st) as [[[]|e] st']; [apply IH | done].
Qed.

Lemma for_each_append {X} (f : X → Snippet) (xs : list X) st :
  for_each xs (fun x => append (f x)) st = (Ok tt, st ++ map f xs).
Proof.
  revert st. induction xs as [|x xs IH]; intros st; simpl.
  - by rewrite app_nil_r.
  - unfold bindS, append at 1. rewrite IH. by rewrite <- app_assoc.
Qed.

(** A role either fails before it appends anything, or appends one snippet
    for each of its entries, in their order. *)
Lemma add_role_snippets_inv (role : value) st :
  (∃ e, add_role_snippets role st = (Raise e, st)) ∨
  (∃ company title dates,
     add_role_snippets role st
     = (Ok tt, st ++ map (fun ach => mkSnippet ach (ExperienceMeta company title dates))
                       (role_entries role))).
Proof.
  destruct role as [| | | | |items]; try (left; by eexists).
  unfold add_role_snippets, role_entries, bindS, lift. simpl.
  destruct (py_iter _) as [entries|e]; simpl; [|left; by eexists].
  right. do 3 eexists.
  erewrite for_each_ext; [apply for_each_append|]. intros x st'. done.
Qed.

Lemma for_each_roles (roles : list value) st st' :
  for_each roles add_role_snippets st = (Ok tt, st') →
  map content st' = map content st ++ flat_map role_entries roles.
Proof.
  revert st. induction roles as [|role roles IH]; intros st; simpl.
  - intros [= <-]. by rewrite app_nil_r.
  - unfold bindS.
    destruct (add_role_snippets_inv role st) as [[e ->] | (c & t & d & ->)]; [done|].
    intros H%IH. rewrite H, map_app, map_map, <- app_assoc. simpl.
    by rewrite map_id.
Qed.

(** A failing role leaves the snippets of the roles before it in place. *)
Lemma for_each_roles_grows (roles : list value) st r st' :
  for_each roles add_role_snippets st = (r, st') → ∃ more, st' = st ++ more.
Proof.
  revert st. induction roles as [|role roles IH]; intros st; simpl.
  - intros [= <- <-]. exists []. by rewrite app_nil_r.
  - unfold bindS.
    destruct (add_role_snippets_inv role st) as [[e ->] | (c & t & d & ->)].
    + intros [= <- <-]. exists []. by rewrite app_nil_r.
    + intros [more ->]%IH. rewrite <- app_assoc. eauto.
Qed.

Lemma add_project_snippet_inv (project : value) st :
  (∃ e, add_project_snippet py_repr project st = (Raise e, st)) ∨
  (∃ c m, project_content py_repr project c ∧
          add_project_snippet py_repr project st = (Ok tt, st ++ [mkSnippet c m])).
Proof.
  destruct project as [| | | | |items]; try (left; by eexists).
  right. do 2 eexists. split; [by eexists|]. done.
Qed.

Lemma for_each_projects (projects : list value) st st' :
  for_each projects (add_project_snippet py_repr) st = (Ok tt, st') →
  ∃ contents,
    Forall2 (project_content py_repr) projects contents ∧
    map content st' = map content st ++ contents.
Proof.
  revert st. induction projects as [|p projects IH]; intros st; simpl.
  - intros [= <-]. exists []. split; [constructor | by rewrite app_nil_r].
  - unfold bindS.
    destruct (add_project_snippet_inv p st) as [[e ->] | (c & m & Hc & ->)]; [done|].
    intros (contents & Hcs & E)%IH. exists (c :: contents).
    split; [by constructor|]. rewrite E, map_app, <- app_assoc. done.
Qed.

Lemma project_content_nonempty (project c : value) :
  project_content py_repr project c → nonempty_text c.
Proof. intros (items & _ & ->). eexists. split; [done|]. done. Qed.

End StoreFacts.

(** ** Properties of the construction of the store *)

Section StoreProperties.

Import RAGEngine.




(** C5, as stated, fails: an empty achievement line is accepted and becomes
    a snippet whose content is the empty string. *)
Lemma empty_line_snippet :
  build_snippets Sample.no_repr Sample.profile_empty_line []
  = (Ok tt, [mkSnippet (VStr "")
               (ExperienceMeta (VStr "Acme") (VStr "Position") (VStr ""))]) ∧
  ¬ nonempty_text (VStr "").
Proof.
  split; [reflexivity|]. intros (text & [= <-] & H). done.
Qed.

(** C5, amended: for every accepted profile the contents of the snippets
    are the achievement entries of the roles, one snippet for each entry, in
    the order of the roles and of the entries within a role, followed by one
    content for each project; the content of a project snippet is never
    empty, and the content of an experience snippet is the entry itself, so
    the contents are all non-empty text when the entries are. *)
Theorem snippets_follow_profile
    (py_repr : value → string) (profile : value) (snippets : list Snippet) :
  build_snippets py_repr profile [] = (Ok tt, snippets) →
  ∃ roles projects project_contents,
    profile_roles profile = Ok roles ∧
    profile_projects profile = Ok projects ∧
    Forall2 (project_content py_repr) projects project_contents ∧
    map content snippets = flat_map role_entries roles ++ project_contents ∧
    (Forall nonempty_text (flat_map role_entries roles) →
     Forall (fun s => nonempty_text (content s)) snippets).
Proof.
  unfold build_snippets, profile_roles, profile_projects, bindS, lift.
  destruct profile as [| | | | |items]; simpl; try done.
  destruct (py_iter (dict_get items "experience" _)) as [roles|e]; [|done].
  destruct (for_each roles add_role_snippets []) as [[[]|e] st] eqn:Hroles; [|done].
  destruct (py_iter (dict_get items "projects" _)) as [projects|e]; [|done].
  intros Hprojects.
  apply for_each_roles in Hroles. simpl in Hroles.
  apply for_each_projects in Hprojects as (contents & Hcs & E).
  exists roles, projects, contents. rewrite E, Hroles.
  repeat split; try done.
  intros Hne.
  assert (Hall : Forall nonempty_text (map content snippets)).
  { rewrite E, Hroles. apply Forall_app. split; [done|].
    clear -Hcs. induction Hcs; constructor; eauto using project_content_nonempty. }
  clear -Hall. induction snippets; inversion Hall; constructor; auto.
Qed.

Lemma snippets_follow_profile_witness :
  ∃ roles projects project_contents,
    profile_roles Sample.profile_ok = Ok roles ∧
    profile_projects Sample.profile_ok = Ok projects ∧
    Forall2 (project_content Sample.no_repr) projects project_contents ∧
    map content (snd (build_snippets Sample.no_repr Sample.profile_ok []))
    = flat_map role_entries roles ++ project_contents ∧
    (Forall nonempty_text (flat_map role_entries roles) →
     Forall (fun s => nonempty_text (content s))
       (snd (build_snippets Sample.no_repr Sample.profile_ok []))).
Proof.
  apply (snippets_follow_profile Sample.no_repr Sample.profile_ok). reflexivity.
Defined.

End StoreProperties.

(** ** Facts about the match calculator *)

Section ScorerFacts.

Import MatchCalculator.

Variable set_iter : gset string → list string.

(** Python iterates over a set in some order, each element once. *)
Hypothesis set_iter_elements : ∀ X, set_iter X ≡ₚ elements X.

Lemma elem_of_set_iter (X : gset string) (x : string) : x ∈ set_iter X ↔ x ∈ X.
Proof. by rewrite set_iter_elements, elem_of_elements. Qed.

Lemma NoDup_set_iter (X : gset string) : NoDup (set_iter X).
Proof. rewrite set_iter_elements. apply NoDup_elements. Qed.

Lemma words_overlap (a b : string) :
  (list_to_set (py_split a) ∩ list_to_set (py_split b) : gset string) ≠ ∅
  ↔ SharesWord a b.
Proof.
  unfold SharesWord. split.
  - intros [w Hw]%set_choose_L. exists w. set_solver.
  - intros (w & Ha & Hb). set_solver.
Qed.

Lemma partial_match_spec (req : string) (candidates : list string) (matches : nat) :
  (partial_match (list_to_set (py_split req)) candidates matches = S matches ∧
   ∃ c, c ∈ candidates ∧ SharesWord req c) ∨
  (partial_match (list_to_set (py_split req)) candidates matches = matches ∧
   ¬ ∃ c, c ∈ candidates ∧ SharesWord req c).
Proof.
  induction candidates as [|c candidates IH]; simpl.
  - right. split; [done|]. intros (c & Hc & _). by inversion Hc.
  - destruct (decide (_ ∩ _ ≠ ∅)) as [Ho|Ho]; rewrite words_overlap in Ho.
    + left. split; [lia|]. exists c. split; [left | done].
    + destruct IH as [[E (c' & Hc' & Hs)] | [E H]].
      * left. split; [done|]. exists c'. split; [by right | done].
      * right. split; [done|]. intros (c' & Hc' & Hs).
        apply elem_of_cons in Hc' as [->|Hc']; [done|]. apply H. eauto.
Qed.

(** One requirement adds one to the count when it is matched, and nothing
    otherwise. *)
Lemma count_step_spec (candidate : gset string) (matches : nat) (req : string) :
  (count_step set_iter candidate matches req = S matches ∧ Matched candidate req) ∨
  (count_step set_iter candidate matches req = matches ∧ ¬ Matched candidate req).
Proof.
  unfold count_step, Matched. case_decide as Hin.
  - left. split; [lia | by left].
  - destruct (partial_match_spec req (set_iter candidate) matches)
      as [[E (c & Hc & Hs)] | [E H]].
    + left. split; [done|]. right. exists c. by rewrite <- elem_of_set_iter.
    + right. split; [done|]. intros [?|(c & Hc & Hs)]; [done|].
      apply H. exists c. by rewrite elem_of_set_iter.
Qed.

Lemma count_step_shift (candidate : gset string) (matches : nat) (req : string) :
  count_step set_iter candidate matches req
  = (matches + count_step set_iter candidate 0 req)%nat.
Proof.
  destruct (count_step_spec candidate matches req) as [[-> H] | [-> H]],
           (count_step_spec candidate 0 req) as [[-> H'] | [-> H']];
    done || lia.
Qed.

Lemma count_step_one (candidate : gset string) (req : string) :
  count_step set_iter candidate 0 req = 1%nat ↔ Matched candidate req.
Proof.
  destruct (count_step_spec candidate 0 req) as [[-> H] | [-> H]];
    split; done || lia.
Qed.

Lemma count_loop (candidate : gset string) (reqs : list string) (matches : nat) :
  fold_left (count_step set_iter candidate) reqs matches
  = (matches + length (filter (fun r => count_step set_iter candidate 0 r = 1%nat) reqs))%nat.
Proof.
  revert matches. induction reqs as [|r reqs IH]; intros matches; simpl; [lia|].
  rewrite IH, filter_cons, count_step_shift.
  destruct (count_step_spec candidate 0 r) as [[-> H] | [-> H]];
    case_decide; simpl; lia.
Qed.

End ScorerFacts.

(** *** Arithmetic of the scores *)

Section ScoreArithmetic.

Import MatchCalculator.

Local Open Scope Q_scope.

Lemma Qltb_lt (x y : Q) : Qltb x y = true ↔ x < y.
Proof.
  unfold Qltb. rewrite negb_true_iff, <- not_true_iff_false, Qle_bool_iff.
  split; [apply Qnot_le_lt | apply Qlt_not_le].
Qed.

Lemma Qltb_ge (x y : Q) : Qltb x y = false ↔ y <= x.
Proof.
  rewrite <- not_true_iff_false, Qltb_lt. split; [apply Qnot_lt_le | apply Qle_not_lt].
Qed.

Lemma pow2_pos (e : Z) : 0 < pow2 e.
Proof. by apply Qpower_0_lt. Qed.

Lemma pow2_plus (a b : Z) : pow2 (a + b) == pow2 a * pow2 b.
Proof. by apply Qpower_plus. Qed.

Lemma pow2_le (a b : Z) : (a ≤ b)%Z → pow2 a <= pow2 b.
Proof. intros H. by apply Qpower_le_compat_l. Qed.

Lemma pow2_lt_inv (a b : Z) : pow2 a < pow2 b → (a < b)%Z.
Proof. intros H. by apply (Qpower_lt_compat_l_inv 2). Qed.

Lemma pow2_inject (n : Z) : (0 ≤ n)%Z → inject_Z (2 ^ n) == pow2 n.
Proof. intros H. by apply (Zpower_Qpower 2). Qed.

(** *** Rounding to the nearest integer *)


Lemma round_half_even_mono (x y : Q) :
  x <= y → (round_half_even x ≤ round_half_even y)%Z.
Proof.
  intros Hxy.
  pose proof (Qfloor_resp_le _ _ Hxy) as Hf.
  assert (Qfloor x ≤ round_half_even x ≤ Qfloor x + 1)%Z as Hx
    by (unfold round_half_even; repeat case_match; lia).
  assert (Qfloor y ≤ round_half_even y ≤ Qfloor y + 1)%Z as Hy
    by (unfold round_half_even; repeat case_match; lia).
  destruct (decide (Qfloor x = Qfloor y)) as [E|Hne]; [|lia].
  unfold round_half_even. rewrite E.
  destruct (Qltb (x - inject_Z (Qfloor y)) (1 # 2)) eqn:X1.
  { repeat case_match; lia. }
  apply Qltb_ge in X1.
  destruct (Qltb (y - inject_Z (Qfloor y)) (1 # 2)) eqn:Y1.
  { apply Qltb_lt in Y1. lra. }
  apply Qltb_ge in Y1.
  destruct (Qltb (1 # 2) (y - inject_Z (Qfloor y))) eqn:Y2.
  { repeat case_match; lia. }
  apply Qltb_ge in Y2.
  destruct (Qltb (1 # 2) (x - inject_Z (Qfloor y))) eqn:X2.
  { apply Qltb_lt in X2. lra. }
  lia.
Qed.

Lemma round_half_even_Z (n : Z) : round_half_even (inject_Z n) = n.
Proof.
  unfold round_half_even. rewrite Qfloor_Z.
  assert (Qltb (inject_Z n - inject_Z n) (1 # 2) = true) as ->; [|done].
  apply Qltb_lt. lra.
Qed.

Lemma round_half_even_le (y : Q) (n : Z) :
  y <= inject_Z n → (round_half_even y ≤ n)%Z.
Proof.
  intros H. rewrite <- (round_half_even_Z n). by apply round_half_even_mono.
Qed.

Lemma round_half_even_ge (y : Q) (n : Z) :
  inject_Z n <= y → (n ≤ round_half_even y)%Z.
Proof.
  intros H. rewrite <- (round_half_even_Z n). by apply round_half_even_mono.
Qed.

(** *** The exponent *)

Lemma floor_log2_spec (q : Q) :
  0 < q → pow2 (floor_log2 q) <= q ∧ q < pow2 (floor_log2 q + 1).
Proof.
  intros Hq. unfold floor_log2.
  destruct q as [a b]. simpl Qnum. simpl Qden.
  assert (0 < a)%Z as Ha.
  { unfold Qlt in Hq. simpl in Hq. lia. }
  set (la := Z.log2 a). set (lb := Z.log2 (Z.pos b)).
  assert (0 ≤ la)%Z as Hla by apply Z.log2_nonneg.
  assert (0 ≤ lb)%Z as Hlb by apply Z.log2_nonneg.
  destruct (Z.log2_spec a Ha) as [A1 A2]. fold la in A1, A2.
  destruct (Z.log2_spec (Z.pos b) ltac:(lia)) as [B1 B2]. fold lb in B1, B2.
  rewrite Zle_Qle in A1, B1. rewrite Zlt_Qlt in A2, B2.
  rewrite pow2_inject in A1, B1 by lia.
  rewrite pow2_inject in A2, B2 by lia.
  set (q := a # b) in *.
  assert (q * inject_Z (Z.pos b) == inject_Z a) as Hqb.
  { unfold q. rewrite (Qmake_Qdiv a b). field.
    intros H. unfold Qeq in H. simpl in H. lia. }
  pose proof (pow2_pos la). pose proof (pow2_pos lb).
  assert (q < pow2 (la - lb + 1)) as Hup.
  { replace (la - lb + 1)%Z with (Z.succ la + - lb)%Z by lia.
    rewrite pow2_plus. unfold pow2 at 2. rewrite Qpower_opp. fold (pow2 lb).
    apply Qlt_shift_div_l; [done|]. nra. }
  assert (pow2 (la - lb - 1) < q) as Hlow.
  { replace (la - lb - 1)%Z with (la + - Z.succ lb)%Z by lia.
    rewrite pow2_plus. unfold pow2 at 2. rewrite Qpower_opp. fold (pow2 (Z.succ lb)).
    pose proof (pow2_pos (Z.succ lb)).
    apply Qlt_shift_div_r; [done|]. nra. }
  destruct (Qle_bool (pow2 (la - lb)) q) eqn:E.
  - apply Qle_bool_iff in E. done.
  - apply not_true_iff_false in E. rewrite Qle_bool_iff in E.
    apply Qnot_le_lt in E.
    replace (la - lb - 1 + 1)%Z with (la - lb)%Z by lia.
    split; [by apply Qlt_le_weak | done].
Qed.

Lemma ulp_exponent_spec (q : Q) :
  0 < q →
  let e := ulp_exponent q in
  (emin ≤ e)%Z ∧ q < pow2 (e + 53) ∧ ((emin < e)%Z → pow2 (e + 52) <= q).
Proof.
  intros Hq e. unfold e, ulp_exponent.
  assert (Qabs q = q) as ->.
  { destruct q as [a b]. unfold Qlt in Hq. simpl in *. f_equal. lia. }
  destruct (floor_log2_spec q Hq) as [L U].
  set (l := floor_log2 q) in *.
  split; [lia|]. split.
  - eapply Qlt_le_trans; [exact U|]. apply pow2_le. lia.
  - intros He. replace (Z.max (l - 52) emin + 52)%Z with l by lia. done.
Qed.

Lemma ulp_exponent_mono (x y : Q) :
  0 < x → x <= y → (ulp_exponent x ≤ ulp_exponent y)%Z.
Proof.
  intros Hx Hxy. assert (0 < y) as Hy by lra.
  destruct (ulp_exponent_spec x Hx) as (Mx & Ux & Lx).
  destruct (ulp_exponent_spec y Hy) as (My & Uy & Ly).
  destruct (decide (ulp_exponent x ≤ ulp_exponent y)%Z) as [|Hgt]; [done|].
  exfalso. assert (emin < ulp_exponent x)%Z as Hm by lia.
  specialize (Lx Hm).
  assert (pow2 (ulp_exponent x + 52) < pow2 (ulp_exponent y + 53)) as Hp by lra.
  apply pow2_lt_inv in Hp. lia.
Qed.

(** *** Rounding to the nearest double *)


Lemma round_at_mono (e : Z) (x y : Q) : x <= y → round_at e x <= round_at e y.
Proof.
  intros H. unfold round_at. pose proof (pow2_pos e) as He.
  apply Qmult_le_compat_r; [|lra].
  rewrite <- Zle_Qle. apply round_half_even_mono.
  apply Qmult_le_compat_r; [done|]. apply Qinv_le_0_compat. lra.
Qed.

Lemma round_at_upper (q : Q) :
  0 < q → round_at (ulp_exponent q) q <= pow2 (ulp_exponent q + 53).
Proof.
  intros Hq. destruct (ulp_exponent_spec q Hq) as (_ & U & _).
  set (e := ulp_exponent q) in *. pose proof (pow2_pos e) as He.
  unfold round_at. rewrite Z.add_comm, pow2_plus.
  apply Qmult_le_compat_r; [|lra].
  change (pow2 53) with (inject_Z (2 ^ 53)). rewrite <- Zle_Qle.
  apply round_half_even_le. change (inject_Z (2 ^ 53)) with (pow2 53).
  apply Qle_shift_div_r; [done|]. rewrite <- pow2_plus, Z.add_comm. lra.
Qed.

Lemma round_at_lower (q : Q) :
  0 < q → (emin < ulp_exponent q)%Z →
  pow2 (ulp_exponent q + 52) <= round_at (ulp_exponent q) q.
Proof.
  intros Hq Hm. destruct (ulp_exponent_spec q Hq) as (_ & _ & L).
  specialize (L Hm).
  set (e := ulp_exponent q) in *. pose proof (pow2_pos e) as He.
  unfold round_at. rewrite Z.add_comm, pow2_plus.
  apply Qmult_le_compat_r; [|lra].
  change (pow2 52) with (inject_Z (2 ^ 52)). rewrite <- Zle_Qle.
  apply round_half_even_ge. change (inject_Z (2 ^ 52)) with (pow2 52).
  apply Qle_shift_div_l; [done|]. rewrite <- pow2_plus, Z.add_comm. done.
Qed.

Lemma fl_round_at (q : Q) : fl q == round_at (ulp_exponent (Qred q)) (Qred q).
Proof. unfold fl. apply Qred_correct. Qed.

Lemma fl_comp (x y : Q) : x == y → fl x = fl y.
Proof. intros H. unfold fl. by rewrite (Qred_complete _ _ H). Qed.

Lemma fl_nonneg (q : Q) : 0 <= q → 0 <= fl q.
Proof.
  intros Hq. rewrite fl_round_at. unfold round_at.
  assert (0 <= Qred q) as Hq' by (by rewrite Qred_correct).
  set (q' := Qred q) in *.
  pose proof (pow2_pos (ulp_exponent q')).
  apply Qmult_le_0_compat; [|lra].
  rewrite <- (Zle_Qle 0). apply round_half_even_ge.
  apply Qle_shift_div_l; [done|]. change (inject_Z 0) with 0. lra.
Qed.

Lemma fl_mono (x y : Q) : 0 <= x → x <= y → fl x <= fl y.
Proof.
  intros Hx Hxy.
  destruct (Qlt_le_dec 0 x) as [Hpos|Hzero].
  2: { assert (x == 0) as E by lra. rewrite (fl_comp _ _ E).
       apply fl_nonneg. lra. }
  rewrite !fl_round_at.
  assert (0 < Qred x) as Hx' by (by rewrite Qred_correct).
  assert (Qred x <= Qred y) as Hxy' by (by rewrite !Qred_correct).
  assert (0 < Qred y) as Hy' by lra.
  set (x' := Qred x) in *. set (y' := Qred y) in *.
  pose proof (ulp_exponent_mono x' y' Hx' Hxy') as He.
  destruct (decide (ulp_exponent x' = ulp_exponent y')) as [E|Hne].
  - rewrite E. by apply round_at_mono.
  - pose proof (round_at_upper x' Hx') as U.
    destruct (ulp_exponent_spec x' Hx') as (Mx & _ & _).
    pose proof (round_at_lower y' Hy' ltac:(lia)) as L.
    assert (pow2 (ulp_exponent x' + 53) <= pow2 (ulp_exponent y' + 52)) as Hp
      by (apply pow2_le; lia).
    lra.
Qed.

Lemma fl_exact (x y : Q) : fl y = y → x == y → fl x == y.
Proof. intros Hy E. by rewrite (fl_comp _ _ E), Hy. Qed.

Lemma fl_le (x y : Q) : 0 <= x → x <= y → fl y = y → fl x <= y.
Proof. intros H0 Hxy Hy. rewrite <- Hy. by apply fl_mono. Qed.

Lemma fl_ge (x y : Q) : 0 <= y → y <= x → fl y = y → y <= fl x.
Proof. intros H0 Hxy Hy. rewrite <- Hy at 1. by apply fl_mono. Qed.


(** The integers that the calculator multiplies by and compares with are
    doubles. *)
Lemma fl_0 : fl 0 = 0.
Proof. reflexivity. Qed.

Lemma fl_1 : fl 1 = 1.
Proof. reflexivity. Qed.

Lemma fl_30 : fl 30 = 30.
Proof. reflexivity. Qed.

Lemma fl_50 : fl 50 = 50.
Proof. reflexivity. Qed.

Lemma fl_100 : fl 100 = 100.
Proof. reflexivity. Qed.

(** Two values that every Python prints: [0.1] is the double
    3602879701896397 / 2^55, and [0.1 + 0.2] is not the double [0.3] but
    the next one. *)
Example float_one_tenth : fl (1 # 10) = 3602879701896397 # 36028797018963968.
Proof. reflexivity. Qed.

Example float_three_tenths :
  fl (3 # 10) = 5404319552844595 # 18014398509481984 ∧
  py_add (fl (1 # 10)) (fl (2 # 10)) = 1351079888211149 # 4503599627370496.
Proof. by split. Qed.

(** *** The arithmetic of the scores *)

Lemma round_half_even_bounds (y : Q) (n : Z) :
  0 <= y → y <= inject_Z n → (0 ≤ round_half_even y ≤ n)%Z.
Proof.
  intros H0 Hn. split; [by apply round_half_even_ge | by apply round_half_even_le].
Qed.

Lemma py_round1_le (x : Q) (n : Z) :
  0 <= x → x <= inject_Z n → fl (inject_Z n) = inject_Z n →
  0 <= py_round1 x ∧ py_round1 x <= inject_Z n.
Proof.
  intros H0 Hn Hfl. unfold py_round1.
  destruct (round_half_even_bounds (x * 10) (n * 10)) as [Hl Hu]; [lra | |].
  { rewrite inject_Z_mult. change (inject_Z 10) with 10. lra. }
  rewrite Zle_Qle in Hl, Hu. rewrite inject_Z_mult in Hu.
  change (inject_Z 0) with 0 in Hl. change (inject_Z 10) with 10 in Hu.
  set (k := inject_Z (round_half_even (x * 10))) in *.
  assert (0 <= k / 10) as Hk0 by (apply Qle_shift_div_l; lra).
  assert (k / 10 <= inject_Z n) as Hkn by (apply Qle_shift_div_r; lra).
  split; [by apply fl_nonneg|].
  rewrite <- Hfl. by apply fl_mono.
Qed.

Lemma py_round1_ge (x : Q) (n : Z) :
  0 <= inject_Z n → inject_Z n <= x → fl (inject_Z n) = inject_Z n →
  inject_Z n <= py_round1 x.
Proof.
  intros H0 Hn Hfl. unfold py_round1.
  assert (n * 10 ≤ round_half_even (x * 10))%Z as Hle.
  { apply round_half_even_ge. rewrite inject_Z_mult.
    change (inject_Z 10) with 10. lra. }
  rewrite Zle_Qle, inject_Z_mult in Hle. change (inject_Z 10) with 10 in Hle.
  set (k := inject_Z (round_half_even (x * 10))) in *.
  assert (inject_Z n <= k / 10) as Hkn by (apply Qle_shift_div_l; lra).
  rewrite <- Hfl at 1. by apply fl_mono.
Qed.


Lemma py_truediv_nonneg (a b : nat) (q : Q) : py_truediv a b = Ok q → 0 <= q.
Proof.
  unfold py_truediv. case_decide; [done|]. intros [= <-].
  apply fl_nonneg.
  apply Qmult_le_0_compat; [|apply Qinv_le_0_compat];
    rewrite <- (Zle_Qle 0); lia.
Qed.

Lemma py_mul_nonneg (x y : Q) : 0 <= x → 0 <= y → 0 <= py_mul x y.
Proof. intros Hx Hy. apply fl_nonneg. by apply Qmult_le_0_compat. Qed.


Lemma component_score_ok (matches : nat) (required : gset string) (weight default : Q) :
  ∃ q, component_score matches required weight default = Ok q ∧
       (required = ∅ → q = default) ∧
       (0 <= weight → 0 <= default → 0 <= q).
Proof.
  unfold component_score. case_decide as Hne.
  - assert (size required ≠ 0%nat) as Hsize.
    { intros E%size_empty_iff. by apply Hne, leibniz_equiv. }
    destruct (py_truediv matches (size required)) as [ratio|e] eqn:Hdiv.
    + exists (py_mul ratio weight). simpl. split; [done|]. split; [done|].
      intros Hw _. apply py_mul_nonneg; [|done].
      by apply py_truediv_nonneg in Hdiv.
    + unfold py_truediv in Hdiv. by rewrite decide_False in Hdiv.
  - exists default. split; [done|]. split; [done|]. auto.
Qed.


End ScoreArithmetic.

(** *** The whole of [calculate_match_score] *)

Section ScorerRun.

Import MatchCalculator.

Variable set_iter : gset string → list string.
Variable findall_capitalized : string → list string.

(** Once the five extractions have returned, the scoring itself returns. *)
Lemma calculate_match_score_runs (profile job : value) (rs ns ks cs ck : gset string) :
  job_set job "requirements" "must_have_skills" = Ok rs →
  job_set job "requirements" "nice_to_have_skills" = Ok ns →
  job_set job "keywords" "ats_keywords" = Ok ks →
  _extract_candidate_skills findall_capitalized profile = Ok cs →
  _extract_keywords_from_profile profile = Ok ck →
  ∃ rq nq kq : Q,
    component_score (_count_matches set_iter rs cs) rs 100 100 = Ok rq ∧
    component_score (_count_matches set_iter ns cs) ns 50 0 = Ok nq ∧
    component_score (_count_matches set_iter ks ck) ks 30 0 = Ok kq ∧
    (rs = ∅ → rq = 100%Q) ∧ (ns = ∅ → nq = 0%Q) ∧ (ks = ∅ → kq = 0%Q) ∧
    (0 <= rq)%Q ∧ (0 <= nq)%Q ∧ (0 <= kq)%Q ∧
    calculate_match_score set_iter findall_capitalized profile job
    = Ok {| overall_score := py_round1 (py_min 100 (py_add (py_add rq nq) kq));
            required_skills_score := py_round1 rq;
            nice_to_have_score := py_round1 nq;
            keyword_score := py_round1 kq;
            required_skills_matched := _count_matches set_iter rs cs;
            required_skills_total := size rs;
            nice_to_have_matched := _count_matches set_iter ns cs;
            nice_to_have_total := size ns;
            keywords_matched := _count_matches set_iter ks ck;
            keywords_total := size ks;
            missing_required_skills := take 10 (set_iter (rs ∖ cs));
            missing_nice_to_have_skills := take 10 (set_iter (ns ∖ cs));
            recommendations :=
              _generate_recommendations set_iter (py_min 100 (py_add (py_add rq nq) kq))
                (rs ∖ cs) (ns ∖ cs) |}.
Proof.
  intros Hrs Hns Hks Hcs Hck.
  destruct (component_score_ok (_count_matches set_iter rs cs) rs 100 100)
    as (rq & Erq & Drq & Prq).
  destruct (component_score_ok (_count_matches set_iter ns cs) ns 50 0)
    as (nq & Enq & Dnq & Pnq).
  destruct (component_score_ok (_count_matches set_iter ks ck) ks 30 0)
    as (kq & Ekq & Dkq & Pkq).
  exists rq, nq, kq.
  do 3 (split; [done|]). do 3 (split; [done|]).
  split; [apply Prq; lra|]. split; [apply Pnq; lra|]. split; [apply Pkq; lra|].
  unfold calculate_match_score.
  rewrite Hrs, Hns, Hks, Hcs, Hck. simpl. by rewrite Erq, Enq, Ekq.
Qed.

End ScorerRun.

(** ** Properties of the match calculator *)

Section ScorerProperties.

Import MatchCalculator.

(** C3: a requirement is counted when it is a member of the candidate set
    or some candidate item shares a word with it, and only then; it adds
    exactly one to the count however many candidate items overlap it, so the
    count is the number of matched requirements. *)
Theorem count_matches_counts_matched
    (set_iter : gset string → list string) (required candidate : gset string) :
  (∀ X, set_iter X ≡ₚ elements X) →
  (∀ matches req_item,
     (Matched candidate req_item →
      count_step set_iter candidate matches req_item = S matches) ∧
     (¬ Matched candidate req_item →
      count_step set_iter candidate matches req_item = matches)) ∧
  ∃ matched : gset string,
    (∀ req_item, req_item ∈ matched ↔ req_item ∈ required ∧ Matched candidate req_item) ∧
    _count_matches set_iter required candidate = size matched.
Proof.
  intros Hiter. split.
  - intros matches req.
    destruct (count_step_spec set_iter Hiter candidate matches req)
      as [[-> H] | [-> H]]; split; done.
  - exists (list_to_set (filter (fun r => count_step set_iter candidate 0 r = 1%nat)
                           (set_iter required))).
    split.
    + intros req. rewrite elem_of_list_to_set, list_elem_of_filter.
      rewrite (count_step_one set_iter Hiter), (elem_of_set_iter set_iter Hiter).
      tauto.
    + unfold _count_matches. rewrite (count_loop set_iter Hiter).
      rewrite size_list_to_set; [done|].
      apply NoDup_filter, (NoDup_set_iter set_iter Hiter).
Qed.

Lemma count_matches_counts_matched_witness :
  _count_matches elements Sample.required_sample Sample.candidate_sample = 2%nat ∧
  ∃ matched : gset string,
    (∀ req_item, req_item ∈ matched ↔
       req_item ∈ Sample.required_sample ∧ Matched Sample.candidate_sample req_item) ∧
    _count_matches elements Sample.required_sample Sample.candidate_sample = size matched.
Proof.
  split; [by vm_compute|].
  apply (count_matches_counts_matched elements). intros X. reflexivity.
Defined.

(** C1, as stated, fails: with the three requirement lists empty the score
    is 100, so the rule for scores of 70 and more fires, and the only
    recommendation is the strong-match one, not the excellent-match one. *)
Lemma empty_requirements_not_excellent :
  job_set Sample.job_empty_lists "requirements" "must_have_skills" = Ok ∅ ∧
  job_set Sample.job_empty_lists "requirements" "nice_to_have_skills" = Ok ∅ ∧
  job_set Sample.job_empty_lists "keywords" "ats_keywords" = Ok ∅ ∧
  ∃ r, calculate_match_score elements Sample.no_findall
         Sample.profile_python Sample.job_empty_lists = Ok r ∧
       (overall_score r == 100)%Q ∧
       recommendations r = [msg_strong_match] ∧
       msg_excellent_match ∉ recommendations r.
Proof.
  do 3 (split; [reflexivity|]). eexists. split; [by vm_compute|]. simpl.
  split; [reflexivity|]. split; [reflexivity|].
  intros [=]%list_elem_of_singleton.
Qed.

(** C1, amended: when the three requirement sets are empty the overall
    score is 100.0 and the recommendations are the strong-match message and
    nothing else. *)
Theorem empty_requirements_strong_match
    (set_iter : gset string → list string) (findall_capitalized : string → list string)
    (profile job : value) (cs ck : gset string) :
  job_set job "requirements" "must_have_skills" = Ok ∅ →
  job_set job "requirements" "nice_to_have_skills" = Ok ∅ →
  job_set job "keywords" "ats_keywords" = Ok ∅ →
  _extract_candidate_skills findall_capitalized profile = Ok cs →
  _extract_keywords_from_profile profile = Ok ck →
  ∃ r, calculate_match_score set_iter findall_capitalized profile job = Ok r ∧
       (overall_score r == 100)%Q ∧
       recommendations r = [msg_strong_match].
Proof.
  intros Hrs Hns Hks Hcs Hck.
  destruct (calculate_match_score_runs set_iter findall_capitalized
              _ _ _ _ _ _ _ Hrs Hns Hks Hcs Hck)
    as (rq & nq & kq & _ & _ & _ & Drq & Dnq & Dkq & _ & _ & _ & E).
  rewrite E, Drq, Dnq, Dkq by done. eexists. split; [done|]. simpl.
  split; [reflexivity|]. by rewrite !empty_difference_L.
Qed.

Lemma empty_requirements_strong_match_witness :
  ∃ r, calculate_match_score elements Sample.no_findall
         Sample.profile_python Sample.job_empty_lists = Ok r ∧
       (overall_score r == 100)%Q ∧
       recommendations r = [msg_strong_match].
Proof.
  apply (empty_requirements_strong_match elements Sample.no_findall
           Sample.profile_python Sample.job_empty_lists
           (list_to_set ["python"]) (list_to_set ["backend"; "developer"]));
    reflexivity.
Defined.

(** C6: an empty must-have set gives the required score 100, an empty
    nice-to-have set the nice-to-have score 0 and an empty keyword set the
    keyword score 0; no requirement set, empty or not, makes a component
    score raise a division by zero, and the scoring returns a result. *)
Theorem empty_requirement_defaults
    (set_iter : gset string → list string) (findall_capitalized : string → list string)
    (profile job : value) (rs ns ks cs ck : gset string) :
  job_set job "requirements" "must_have_skills" = Ok rs →
  job_set job "requirements" "nice_to_have_skills" = Ok ns →
  job_set job "keywords" "ats_keywords" = Ok ks →
  _extract_candidate_skills findall_capitalized profile = Ok cs →
  _extract_keywords_from_profile profile = Ok ck →
  (∀ matches required weight default,
     component_score matches required weight default ≠ Raise ZeroDivisionError) ∧
  ∃ r, calculate_match_score set_iter findall_capitalized profile job = Ok r ∧
       (rs = ∅ → (required_skills_score r == 100)%Q) ∧
       (ns = ∅ → (nice_to_have_score r == 0)%Q) ∧
       (ks = ∅ → (keyword_score r == 0)%Q).
Proof.
  intros Hrs Hns Hks Hcs Hck. split.
  { intros matches required weight default.
    destruct (component_score_ok matches required weight default) as (q & -> & _).
    done. }
  destruct (calculate_match_score_runs set_iter findall_capitalized
              _ _ _ _ _ _ _ Hrs Hns Hks Hcs Hck)
    as (rq & nq & kq & _ & _ & _ & Drq & Dnq & Dkq & _ & _ & _ & E).
  rewrite E. eexists. split; [done|]. simpl.
  split; [|split]; intros H.
  - by rewrite (Drq H).
  - by rewrite (Dnq H).
  - by rewrite (Dkq H).
Qed.

Lemma empty_requirement_defaults_witness :
  (∀ matches required weight default,
     component_score matches required weight default ≠ Raise ZeroDivisionError) ∧
  ∃ r, calculate_match_score elements Sample.no_findall
         Sample.profile_python Sample.job_python_go = Ok r ∧
       (list_to_set ["python"; "go"] = (∅ : gset string) →
        (required_skills_score r == 100)%Q) ∧
       ((∅ : gset string) = ∅ → (nice_to_have_score r == 0)%Q) ∧
       ((∅ : gset string) = ∅ → (keyword_score r == 0)%Q).
Proof.
  apply (empty_requirement_defaults elements Sample.no_findall
           Sample.profile_python Sample.job_python_go
           (list_to_set ["python"; "go"]) ∅ ∅
           (list_to_set ["python"]) (list_to_set ["backend"; "developer"]));
    reflexivity.
Defined.

End ScorerProperties.

(** ** The scenarios of the specification, run on the embedding *)

Section Scenarios.

Import RAGEngine MatchCalculator.

(** Scenario A: a whole-word match has score 2 and is returned. *)
Example scenario_whole_word :
  snippet_score (py_lower "Led migration to Python microservices") ["Python"] = 2 ∧
  retrieve_relevant_experience [Sample.s_migration] ["Python"] 5
  = Ok [Sample.s_migration].
Proof. by split. Qed.

(** Scenario B: a keyword that does not occur gives the empty result. *)
Example scenario_no_match :
  retrieve_relevant_experience [Sample.s_migration] ["Java"] 5 = Ok [].
Proof. reflexivity. Qed.

(** A keyword inside a longer word counts 1, and the default top_k is 15. *)
Example scenario_sub_word :
  snippet_score (py_lower "Built pythonic tooling for SQL audits") ["Python"] = 1 ∧
  retrieve_relevant_experience Sample.store Sample.keywords default_top_k
  = Ok [Sample.s_reporting; Sample.s_tooling; Sample.s_migration; Sample.s_scripts].
Proof. by split. Qed.

(** Scenario C: one of two required skills is matched. *)
Example scenario_half_required :
  ∃ r, calculate_match_score elements Sample.no_findall
         Sample.profile_python Sample.job_python_go = Ok r ∧
       (required_skills_score r == 50)%Q ∧
       missing_required_skills r = ["go"].
Proof. eexists. split; [by vm_compute|]. by split. Qed.

(** The excellent-match message is what [_generate_recommendations] gives
    when no other rule fires: a score from 50 up to 70 with nothing
    missing. *)
Example excellent_match_fallback :
  _generate_recommendations elements 60 ∅ ∅ = [msg_excellent_match].
Proof. reflexivity. Qed.

(** A well-formed profile gives one snippet for each achievement and one
    for each project. *)
Example sample_profile_store :
  map content (snd (__init__ Sample.no_repr (Ok Sample.profile_ok)))
  = [VStr "Built X"; VStr "Shipped Y"; VStr "Ran Z"; VStr "Project Atlas: maps"].
Proof. reflexivity. Qed.

End Scenarios.

(** ** Further properties of the ranker *)

Section RankerMore.

Import RAGEngine.

Lemma lower_ascii_idem (c : ascii) : lower_ascii (lower_ascii c) = lower_ascii c.
Proof. destruct c as [[] [] [] [] [] [] [] []]; reflexivity. Qed.

Lemma py_lower_idem (s : string) : py_lower (py_lower s) = py_lower s.
Proof. induction s as [|c s IH]; simpl; [done|]. by rewrite lower_ascii_idem, IH. Qed.

Lemma py_lower_length (s : string) : String.length (py_lower s) = String.length s.
Proof. induction s as [|c s IH]; simpl; [done|]. by rewrite IH. Qed.

Lemma snippet_score_single_le (t kw : string) : 0 ≤ snippet_score t [kw] ≤ 2.
Proof. unfold snippet_score. simpl. repeat case_match; lia. Qed.

Lemma snippet_score_perm (t : string) (keywords1 keywords2 : list string) :
  keywords1 ≡ₚ keywords2 → snippet_score t keywords1 = snippet_score t keywords2.
Proof.
  induction 1 as [|kw l1 l2 _ IH|kw1 kw2 l|l1 l2 l3 _ IH1 _ IH2].
  - done.
  - by rewrite snippet_score_cons, (snippet_score_cons _ kw l2), IH.
  - rewrite !(snippet_score_cons _ _ (_ :: _)), (snippet_score_cons _ kw1 l),
      (snippet_score_cons _ kw2 l). lia.
  - by rewrite IH1.
Qed.

Lemma snippet_score_same_lower (t : string) (keywords1 keywords2 : list string) :
  Forall2 (fun a b => py_lower a = py_lower b) keywords1 keywords2 →
  snippet_score t keywords1 = snippet_score t keywords2.
Proof.
  induction 1 as [|kw1 kw2 l1 l2 E _ IH]; [done|].
  rewrite snippet_score_cons, (snippet_score_cons _ kw2 l2), IH. f_equal.
  unfold snippet_score. simpl. by rewrite E.
Qed.

(** The scores decide the result: two keyword lists that give every text
    the same score give the same result. *)
Lemma retrieve_same_scores (snippets : list Snippet) (keywords1 keywords2 : list string)
    (top_k : Z) :
  (∀ t, snippet_score t keywords1 = snippet_score t keywords2) →
  retrieve_relevant_experience snippets keywords1 top_k
  = retrieve_relevant_experience snippets keywords2 top_k.
Proof.
  intros H. unfold retrieve_relevant_experience. f_equal.
  induction snippets as [|s snippets IH]; simpl; [done|].
  destruct (str_lower (content s)) as [t|e]; simpl; [|done]. by rewrite IH, H.
Qed.

(** X1: every snippet that the ranker returns is a snippet of the store
    whose score is positive. *)
Theorem retrieve_returns_matching
    (snippets : list Snippet) (keywords : list string) (score : Snippet → Z)
    (top_k : Z) (r : list Snippet) :
  scores_store keywords snippets score →
  retrieve_relevant_experience snippets keywords top_k = Ok r →
  ∀ s, s ∈ r → s ∈ snippets ∧ 0 < score s.
Proof.
  intros H E s Hs. destruct (retrieve_ranked _ _ _ H) as (ranked & [_ Hf] & E').
  rewrite E' in E. injection E as <-.
  assert (Hin : s ∈ ranked).
  { unfold py_slice_to in Hs. by apply subseteq_take in Hs. }
  assert (Hin' : s ∈ filter (fun s' => score s' = score s) ranked)
    by by apply list_elem_of_filter.
  rewrite Hf in Hin'. apply list_elem_of_filter in Hin' as [[_ Hpos] Hin'']. done.
Qed.

Lemma retrieve_returns_matching_witness :
  Sample.s_tooling ∈ Sample.store ∧
  0 < store_score Sample.keywords Sample.s_tooling.
Proof.
  apply (retrieve_returns_matching Sample.store Sample.keywords
           (store_score Sample.keywords) 2 [Sample.s_reporting; Sample.s_tooling]
           sample_store_scored eq_refl).
  right. left.
Defined.

(** On keywords that are strings the ranker returns a result exactly when
    every content of the store is text. *)
Lemma retrieve_on_strings
    (snippets : list Snippet) (keywords : list string) (top_k : Z) :
  (Forall has_text snippets ∧
   ∃ r, retrieve_relevant_experience snippets keywords top_k = Ok r) ∨
  (¬ Forall has_text snippets ∧
   retrieve_relevant_experience snippets keywords top_k = Raise AttributeError).
Proof.
  unfold retrieve_relevant_experience.
  induction snippets as [|s snippets IH]; simpl.
  - left. split; [constructor | eauto].
  - destruct (content s) as [| | |text| |] eqn:E; simpl;
      try (right; split; [|done]; intros [[text E'] _]%Forall_cons; congruence).
    destruct IH as [[Hall [r Hr]] | [Hnot Hr]];
      destruct (score_snippets snippets keywords) as [scored|e]; simpl in *;
      try done.
    + left. split; [|eauto]. constructor; [by exists text | done].
    + right. split; [|done]. by intros [_ ?]%Forall_cons.
Qed.

(** The keywords are all strings, or one of them is not. *)
Lemma keywords_cases (job_keywords : list value) :
  (∃ keywords, job_keywords = map VStr keywords) ∨ ¬ Forall is_text job_keywords.
Proof.
  induction job_keywords as [|kw rest [[keywords ->]|Hnot]].
  - left. by exists [].
  - destruct kw as [| | |text| |];
      try (right; intros [[text E] _]%Forall_cons; congruence).
    left. by exists (text :: keywords).
  - right. by intros [_ ?]%Forall_cons.
Qed.

Lemma map_VStr_inj (k1 k2 : list string) : map VStr k1 = map VStr k2 → k1 = k2.
Proof.
  revert k2. induction k1 as [|a k1 IH]; intros [|b k2]; simpl; try done.
  intros [= -> E]. by rewrite (IH _ E).
Qed.

Lemma is_text_strings (keywords : list string) : Forall is_text (map VStr keywords).
Proof. induction keywords; constructor; [by eexists | done]. Qed.

(** On strings the inner loop as it runs is the inner loop of
    [RAGEngine]. *)
Lemma console_snippet_score (content_lower : string) (keywords : list string) (score : Z) :
  Console.snippet_score content_lower (map VStr keywords) score
  = Ok (fold_left
          (fun score kw =>
             if re_search_word (py_lower kw) content_lower then score + 2
             else if py_in (py_lower kw) content_lower then score + 1
             else score)
          keywords score).
Proof.
  revert score. induction keywords as [|kw keywords IH]; intros score; simpl; [done|].
  apply IH.
Qed.

Lemma console_score_snippets (snippets : list Snippet) (keywords : list string) :
  Console.score_snippets snippets (map VStr keywords) = score_snippets snippets keywords.
Proof.
  induction snippets as [|s snippets IH]; simpl; [done|].
  destruct (str_lower (content s)) as [content_lower|e]; simpl; [|done].
  rewrite console_snippet_score, IH. done.
Qed.

(** On keywords that are strings the ranker as it runs is the ranker of
    [RAGEngine], followed by its line. *)
Lemma console_retrieve
    (print : Console.Line → result unit)
    (snippets : list Snippet) (keywords : list string) (top_k : Z) :
  Console.retrieve_relevant_experience print snippets (map VStr keywords) top_k
  = (do results <- retrieve_relevant_experience snippets keywords top_k;
     do _u <- print (Console.Retrieved (length results));
     Ok results).
Proof.
  unfold Console.retrieve_relevant_experience, retrieve_relevant_experience.
  rewrite console_score_snippets.
  by destruct (score_snippets snippets keywords).
Qed.

(** On a standard output that takes every line the engine as it runs is
    the engine of [RAGEngine]. *)
Lemma console_takes_lines
    (py_repr : value → string) (print : Console.Line → result unit)
    (loaded : result value) (snippets : list Snippet) (keywords : list string)
    (top_k : Z) :
  (∀ line, print line = Ok tt) →
  Console.__init__ py_repr print loaded = __init__ py_repr loaded ∧
  Console.retrieve_relevant_experience print snippets (map VStr keywords) top_k
  = retrieve_relevant_experience snippets keywords top_k.
Proof.
  intros Hprint. split.
  - unfold Console.__init__, Console._initialize_snippets, Console.try_block,
      __init__, _initialize_snippets, bindS, lift.
    destruct loaded as [profile|e]; [|by rewrite Hprint].
    destruct (build_snippets py_repr profile []) as [[[]|e] st];
      by rewrite Hprint.
  - rewrite console_retrieve.
    destruct (retrieve_relevant_experience snippets keywords top_k) as [r|e];
      simpl; [|done].
    by rewrite Hprint.
Qed.

(** A keyword that is not a string stops the inner loop. *)
Lemma console_snippet_score_raises
    (content_lower : string) (job_keywords : list value) (score : Z) :
  ¬ Forall is_text job_keywords →
  Console.snippet_score content_lower job_keywords score = Raise AttributeError.
Proof.
  revert score. induction job_keywords as [|kw rest IH]; intros score Hnot; simpl.
  - destruct Hnot. constructor.
  - destruct kw as [| | |text| |]; simpl; try done.
    apply IH. intros Hrest. apply Hnot. constructor; [by eexists | done].
Qed.

(** X2: the ranker, as it runs on the keywords that its callers pass,
    completes its scoring exactly when every content of the store is text
    and, unless the store is empty, every keyword is a string; it then
    prints its line and returns the result, which for string keywords is
    the result of the ranker of [RAGEngine].  Otherwise it raises
    [AttributeError], whatever top_k is: one content that is not text is
    enough, and so is one keyword that is not a string when the store has a
    snippet. *)
Theorem retrieve_raises_on_non_text
    (print : Console.Line → result unit)
    (snippets : list Snippet) (job_keywords : list value) (top_k : Z) :
  (Forall has_text snippets ∧
   (snippets = [] ∨ Forall is_text job_keywords) ∧
   ∃ r, Console.retrieve_relevant_experience print snippets job_keywords top_k
        = (do _u <- print (Console.Retrieved (length r)); Ok r) ∧
        ∀ keywords, job_keywords = map VStr keywords →
                    retrieve_relevant_experience snippets keywords top_k = Ok r) ∨
  ((¬ Forall has_text snippets ∨
    (snippets ≠ [] ∧ ¬ Forall is_text job_keywords)) ∧
   Console.retrieve_relevant_experience print snippets job_keywords top_k
   = Raise AttributeError).
Proof.
  destruct (keywords_cases job_keywords) as [[keywords ->]|Hnot].
  - rewrite console_retrieve.
    destruct (retrieve_on_strings snippets keywords top_k) as [[Hall [r Hr]]|[Hno Hr]];
      rewrite Hr; simpl.
    + left. split; [done|]. split; [right; apply is_text_strings|].
      exists r. split; [done|].
      intros keywords' E. by apply map_VStr_inj in E as <-.
    + right. split; [by left | done].
  - destruct snippets as [|s snippets].
    + left. split; [constructor|]. split; [by left|]. exists []. split.
      * unfold Console.retrieve_relevant_experience, py_slice_to. simpl.
        by rewrite firstn_nil.
      * intros keywords _. unfold retrieve_relevant_experience, py_slice_to. simpl.
        by rewrite firstn_nil.
    + right. split; [by right|].
      unfold Console.retrieve_relevant_experience. simpl.
      destruct (content s) as [| | |text| |]; simpl; try done.
      by rewrite console_snippet_score_raises.
Qed.

(** With no keyword nothing is retrieved. *)
Theorem retrieve_no_keywords (snippets : list Snippet) (top_k : Z) :
  Forall has_text snippets →
  retrieve_relevant_experience snippets [] top_k = Ok [].
Proof.
  intros H. unfold retrieve_relevant_experience.
  assert (score_snippets snippets [] = Ok []) as ->.
  { induction H as [|s snippets [text E] _ IH]; simpl; [done|].
    rewrite E. simpl. by rewrite IH. }
  simpl. unfold py_slice_to. simpl. by rewrite firstn_nil.
Qed.

Lemma retrieve_no_keywords_witness :
  retrieve_relevant_experience Sample.store [] 15 = Ok [].
Proof.
  apply retrieve_no_keywords. unfold Sample.store. repeat constructor; by eexists.
Defined.

(** X3: the order of the keywords does not matter. *)
Theorem retrieve_keyword_order
    (snippets : list Snippet) (keywords1 keywords2 : list string) (top_k : Z) :
  keywords1 ≡ₚ keywords2 →
  retrieve_relevant_experience snippets keywords1 top_k
  = retrieve_relevant_experience snippets keywords2 top_k.
Proof.
  intros H. apply retrieve_same_scores. intros t. by apply snippet_score_perm.
Qed.

Lemma retrieve_keyword_order_witness :
  retrieve_relevant_experience Sample.store ["Python"; "SQL"] 3
  = retrieve_relevant_experience Sample.store ["SQL"; "Python"] 3.
Proof.
  apply retrieve_keyword_order. apply Permutation_swap.
Defined.

(** X4: the case of the keywords does not matter: keyword lists that agree
    in lower case retrieve the same snippets. *)
Theorem retrieve_keyword_case
    (snippets : list Snippet) (keywords1 keywords2 : list string) (top_k : Z) :
  Forall2 (fun a b => py_lower a = py_lower b) keywords1 keywords2 →
  retrieve_relevant_experience snippets keywords1 top_k
  = retrieve_relevant_experience snippets keywords2 top_k.
Proof.
  intros H. apply retrieve_same_scores. intros t. by apply snippet_score_same_lower.
Qed.

Lemma retrieve_keyword_case_witness :
  retrieve_relevant_experience Sample.store ["PYTHON"; "sql"] 3
  = retrieve_relevant_experience Sample.store ["Python"; "SQL"] 3.
Proof.
  apply retrieve_keyword_case. repeat constructor.
Defined.

(** X5: the score of a snippet lies between 0 and twice the number of
    keywords. *)
Theorem snippet_score_bounds (t : string) (keywords : list string) :
  0 ≤ snippet_score t keywords ≤ 2 * Z.of_nat (length keywords).
Proof.
  induction keywords as [|kw keywords IH]; [done|].
  rewrite snippet_score_cons. pose proof (snippet_score_single_le t kw).
  simpl length. lia.
Qed.

(** X6: asking for fewer snippets gives the first ones of what asking for
    more gives. *)
Theorem retrieve_prefix
    (snippets : list Snippet) (keywords : list string) (k k' : Z) (r' : list Snippet) :
  0 ≤ k ≤ k' →
  retrieve_relevant_experience snippets keywords k' = Ok r' →
  retrieve_relevant_experience snippets keywords k = Ok (take (Z.to_nat k) r').
Proof.
  intros Hk. unfold retrieve_relevant_experience.
  destruct (score_snippets snippets keywords) as [scored|e]; simpl; [|done].
  intros [= <-]. rewrite !py_slice_to_nonneg by lia.
  rewrite <- !firstn_map, firstn_firstn.
  do 2 f_equal. lia.
Qed.

Lemma retrieve_prefix_witness :
  retrieve_relevant_experience Sample.store Sample.keywords 1
  = Ok (take (Z.to_nat 1) [Sample.s_reporting; Sample.s_tooling; Sample.s_migration]).
Proof.
  apply (retrieve_prefix Sample.store Sample.keywords 1 3); [lia | reflexivity].
Defined.

End RankerMore.

(** ** Further properties of the construction of the store *)

Section StoreMore.

Import RAGEngine.

Variable py_repr : value → string.

Lemma add_role_snippets_exact (role : value) st :
  (∃ e, add_role_snippets role st = (Raise e, st)) ∨
  add_role_snippets role st = (Ok tt, st ++ role_snippets role).
Proof.
  destruct role as [| | | | |items]; try (left; by eexists).
  unfold add_role_snippets, role_snippets, role_entries, bindS, lift. simpl.
  destruct (py_iter _) as [entries|e]; simpl; [|left; by eexists].
  right. erewrite for_each_ext; [apply for_each_append|]. intros x st'. done.
Qed.

Lemma for_each_roles_exact (roles : list value) st r st' :
  for_each roles add_role_snippets st = (r, st') →
  ∃ n, (n ≤ length roles)%nat ∧
       st' = st ++ flat_map role_snippets (take n roles) ∧
       (r = Ok tt ↔ n = length roles).
Proof.
  revert st. induction roles as [|role roles IH]; intros st; simpl.
  - intros [= <- <-]. exists 0%nat. by rewrite app_nil_r.
  - unfold bindS.
    destruct (add_role_snippets_exact role st) as [[e ->] | ->].
    + intros [= <- <-]. exists 0%nat. simpl. rewrite app_nil_r.
      split; [lia|]. split; [done|]. split; [done | lia].
    + intros (n & Hn & -> & Hr)%IH. exists (S n). simpl.
      rewrite <- app_assoc. split; [lia|]. split; [done|].
      rewrite Hr. lia.
Qed.

Lemma add_project_snippet_exact (project : value) st :
  (∃ e, add_project_snippet py_repr project st = (Raise e, st)) ∨
  (∃ s, project_snippet py_repr project s ∧
        add_project_snippet py_repr project st = (Ok tt, st ++ [s])).
Proof.
  destruct project as [| | | | |items]; try (left; by eexists).
  right. eexists. split; [|reflexivity]. exists items. split; [done|].
  split; [by eexists | done].
Qed.

Lemma project_snippet_is_project (project : value) (s : Snippet) :
  project_snippet py_repr project s → is_project s.
Proof. intros (items & _ & _ & E). by eexists. Qed.

Lemma for_each_projects_exact (projects : list value) st r st' :
  for_each projects (add_project_snippet py_repr) st = (r, st') →
  ∃ n ps, (n ≤ length projects)%nat ∧
          st' = st ++ ps ∧
          Forall2 (project_snippet py_repr) (take n projects) ps ∧
          (r = Ok tt ↔ n = length projects).
Proof.
  revert st. induction projects as [|p projects IH]; intros st; simpl.
  - intros [= <- <-]. exists 0%nat, []. rewrite app_nil_r.
    split; [done|]. split; [done|]. split; [constructor | done].
  - unfold bindS.
    destruct (add_project_snippet_exact p st) as [[e ->] | (s & Hs & ->)].
    + intros [= <- <-]. exists 0%nat, []. rewrite app_nil_r. simpl.
      split; [lia|]. split; [done|]. split; [constructor|]. split; [done | lia].
    + intros (n & ps & Hn & -> & Hps & Hr)%IH. exists (S n), (s :: ps). simpl.
      rewrite <- app_assoc. split; [lia|]. split; [done|].
      split; [by constructor|]. rewrite Hr. lia.
Qed.

End StoreMore.

Section StoreShapeProperties.

Import RAGEngine.

(** X7: for an accepted profile the store is, role after role, one snippet
    for each entry of the role, tagged with the company, title and dates of
    that role (or "Unknown", "Position" and the empty string), and then one
    snippet for each project, tagged with the name of the project. *)
Theorem store_of_accepted_profile
    (py_repr : value → string) (profile : value) (snippets : list Snippet) :
  build_snippets py_repr profile [] = (Ok tt, snippets) →
  ∃ roles projects project_snippets,
    profile_roles profile = Ok roles ∧
    profile_projects profile = Ok projects ∧
    Forall2 (project_snippet py_repr) projects project_snippets ∧
    snippets = flat_map role_snippets roles ++ project_snippets.
Proof.
  unfold build_snippets, profile_roles, profile_projects, bindS, lift.
  destruct profile as [| | | | |items]; simpl; try done.
  destruct (py_iter (dict_get items "experience" _)) as [roles|e]; [|done].
  destruct (for_each roles add_role_snippets []) as [[[]|e] st] eqn:Hroles; [|done].
  destruct (py_iter (dict_get items "projects" _)) as [projects|e]; [|done].
  intros Hprojects.
  apply for_each_roles_exact in Hroles as (n & _ & -> & Hn).
  apply (for_each_projects_exact py_repr) in Hprojects as (m & ps & _ & -> & Hps & Hm).
  rewrite (proj1 Hn eq_refl), firstn_all.
  rewrite (proj1 Hm eq_refl), firstn_all in Hps.
  by exists roles, projects, ps.
Qed.

Lemma store_of_accepted_profile_witness :
  ∃ roles projects project_snippets,
    profile_roles Sample.profile_ok = Ok roles ∧
    profile_projects Sample.profile_ok = Ok projects ∧
    Forall2 (project_snippet Sample.no_repr) projects project_snippets ∧
    snd (build_snippets Sample.no_repr Sample.profile_ok [])
    = flat_map role_snippets roles ++ project_snippets.
Proof.
  apply (store_of_accepted_profile Sample.no_repr Sample.profile_ok). reflexivity.
Defined.

(** X8: whatever goes wrong, the store that the construction leaves holds
    the snippets of the first roles of the profile, each role with all of
    its entries or not at all, and project snippets only after every role
    was stored. *)
Theorem store_after_failure
    (py_repr : value → string) (profile : value) (roles : list value) :
  profile_roles profile = Ok roles →
  ∃ n project_snippets,
    (n ≤ length roles)%nat ∧
    snd (__init__ py_repr (Ok profile))
    = flat_map role_snippets (take n roles) ++ project_snippets ∧
    Forall is_project project_snippets ∧
    (project_snippets ≠ [] → n = length roles).
Proof.
  unfold __init__, _initialize_snippets, build_snippets, profile_roles, bindS, lift.
  destruct profile as [| | | | |items]; simpl; try done.
  intros ->.
  destruct (for_each roles add_role_snippets []) as [r st] eqn:Hroles.
  apply for_each_roles_exact in Hroles as (n & Hle & -> & Hn). simpl.
  destruct r as [[]|e]; simpl.
  - rewrite (proj1 Hn eq_refl).
    destruct (py_iter (dict_get items "projects" _)) as [projects|e]; simpl.
    + destruct (for_each projects _ _) as [r st] eqn:Hprojects.
      apply (for_each_projects_exact py_repr) in Hprojects
        as (m & ps & _ & -> & Hps & _).
      exists (length roles), ps. split; [done|].
      split; [by destruct r as [[]|]|]. split; [|done].
      clear -Hps. induction Hps; constructor;
        eauto using project_snippet_is_project.
    + exists (length roles), []. by rewrite app_nil_r.
  - exists n, []. rewrite app_nil_r. split; [done|]. split; [done|].
    split; [constructor | done].
Qed.

Lemma store_after_failure_witness :
  ∃ n project_snippets,
    (n ≤ length [VDict [("company", VStr "Acme"); ("achievements", VList [VStr "Built X"])]])%nat ∧
    snd (__init__ Sample.no_repr (Ok Sample.profile_null_projects))
    = flat_map role_snippets
        (take n [VDict [("company", VStr "Acme"); ("achievements", VList [VStr "Built X"])]])
      ++ project_snippets ∧
    Forall is_project project_snippets ∧
    (project_snippets ≠ [] →
     n = length [VDict [("company", VStr "Acme"); ("achievements", VList [VStr "Built X"])]]).
Proof.
  apply (store_after_failure Sample.no_repr Sample.profile_null_projects). reflexivity.
Defined.

End StoreShapeProperties.

(** ** Further facts about the match calculator *)

Section ScorerMoreFacts.

Import MatchCalculator.

Variable set_iter : gset string → list string.
Hypothesis set_iter_elements : ∀ X, set_iter X ≡ₚ elements X.

(** The count is the size of the set of the matched requirements. *)
Lemma count_matches_matched_set (required candidate : gset string) :
  ∃ matched : gset string,
    (∀ req, req ∈ matched ↔ req ∈ required ∧ Matched candidate req) ∧
    _count_matches set_iter required candidate = size matched.
Proof.
  exists (list_to_set (filter (fun r => count_step set_iter candidate 0 r = 1%nat)
                         (set_iter required))).
  split.
  - intros req. rewrite elem_of_list_to_set, list_elem_of_filter.
    rewrite (count_step_one set_iter set_iter_elements),
      (elem_of_set_iter set_iter set_iter_elements).
    tauto.
  - unfold _count_matches. rewrite (count_loop set_iter set_iter_elements).
    rewrite size_list_to_set; [done|].
    apply NoDup_filter, (NoDup_set_iter set_iter set_iter_elements).
Qed.

Lemma count_matches_le (required candidate : gset string) :
  (_count_matches set_iter required candidate ≤ size required)%nat.
Proof.
  destruct (count_matches_matched_set required candidate) as (m & Hm & ->).
  apply subseteq_size. intros x Hx. by apply Hm in Hx as [? _].
Qed.

Lemma count_matches_exact (required candidate : gset string) :
  (size (required ∩ candidate) ≤ _count_matches set_iter required candidate)%nat.
Proof.
  destruct (count_matches_matched_set required candidate) as (m & Hm & ->).
  apply subseteq_size. intros x [Hr Hc]%elem_of_intersection.
  apply Hm. split; [done | by left].
Qed.

Lemma count_matches_full (required candidate : gset string) :
  required ⊆ candidate → _count_matches set_iter required candidate = size required.
Proof.
  intros Hsub. apply Nat.le_antisymm; [apply count_matches_le|].
  etrans; [|apply count_matches_exact]. apply subseteq_size. set_solver.
Qed.

Lemma count_matches_mono (required candidate candidate' : gset string) :
  candidate ⊆ candidate' →
  (_count_matches set_iter required candidate
   ≤ _count_matches set_iter required candidate')%nat.
Proof.
  intros Hsub.
  destruct (count_matches_matched_set required candidate) as (m & Hm & ->).
  destruct (count_matches_matched_set required candidate') as (m' & Hm' & ->).
  apply subseteq_size. intros x [Hr HM]%Hm. apply Hm'. split; [done|].
  destruct HM as [?|(c & Hc & Hs)]; [left; by apply Hsub|].
  right. exists c. split; [by apply Hsub | done].
Qed.

Lemma set_iter_length (X : gset string) : length (set_iter X) = size X.
Proof. by rewrite set_iter_elements. Qed.

End ScorerMoreFacts.

Section ScoreArithmeticMore.

Import MatchCalculator.

Local Open Scope Q_scope.

Lemma py_truediv_le_1 (a b : nat) (q : Q) :
  (a ≤ b)%nat → py_truediv a b = Ok q → q <= 1.
Proof.
  unfold py_truediv. case_decide as Hb; [done|]. intros Hab [= <-].
  rewrite <- fl_1. apply fl_mono.
  - apply Qmult_le_0_compat; [|apply Qinv_le_0_compat];
      rewrite <- (Zle_Qle 0); lia.
  - apply Qle_shift_div_r.
    + rewrite <- (Zlt_Qlt 0). lia.
    + rewrite Qmult_1_l, <- Zle_Qle. lia.
Qed.

Lemma py_truediv_self (a : nat) (q : Q) : py_truediv a a = Ok q → q == 1.
Proof.
  unfold py_truediv. case_decide as Hb; [done|]. intros [= <-].
  apply (fl_exact _ 1 fl_1).
  apply Qmult_inv_r. intros E. apply Hb.
  unfold Qeq in E. simpl in E. lia.
Qed.

Lemma component_score_le (matches : nat) (required : gset string)
    (weight default q : Q) :
  (matches ≤ size required)%nat → 0 <= weight → default <= weight →
  fl weight = weight →
  component_score matches required weight default = Ok q → q <= weight.
Proof.
  intros Hm Hw Hd Hfl. unfold component_score. case_decide; [|by intros [= <-]].
  destruct (py_truediv _ _) as [ratio|e] eqn:E; simpl; [|done]. intros [= <-].
  pose proof (py_truediv_le_1 _ _ _ Hm E). pose proof (py_truediv_nonneg _ _ _ E).
  unfold py_mul. rewrite <- Hfl at 2. apply fl_mono; nra.
Qed.

Lemma component_score_full (required : gset string) (weight q : Q) :
  fl weight = weight →
  component_score (size required) required weight weight = Ok q → q == weight.
Proof.
  intros Hfl. unfold component_score. case_decide; [|by intros [= <-]].
  destruct (py_truediv _ _) as [ratio|e] eqn:E; simpl; [|done]. intros [= <-].
  apply (fl_exact _ weight Hfl).
  rewrite (py_truediv_self _ _ E). lra.
Qed.

(** A sum whose first term is 100 is at least 100. *)
Lemma py_add_full (rq nq kq : Q) :
  rq == 100 → 0 <= nq → 0 <= kq → 100 <= py_add (py_add rq nq) kq.
Proof.
  intros Hrq Hnq Hkq.
  assert (100 <= py_add rq nq) as H1.
  { unfold py_add. rewrite <- fl_100 at 1. apply fl_mono; lra. }
  unfold py_add at 1. rewrite <- fl_100 at 1. apply fl_mono; lra.
Qed.

Lemma py_min_full (x : Q) : 100 <= x → py_min 100 x = 100.
Proof.
  intros H. unfold py_min. destruct (Qltb x 100) eqn:E; [|done].
  apply Qltb_lt in E. lra.
Qed.

Lemma Qle_bool_false (x y : Q) : Qle_bool x y = false ↔ y < x.
Proof.
  rewrite <- not_true_iff_false, Qle_bool_iff.
  split; [apply Qnot_le_lt | apply Qlt_not_le].
Qed.

Lemma Qltb_false (x y : Q) : Qltb x y = false ↔ y <= x.
Proof. apply Qltb_ge. Qed.

End ScoreArithmeticMore.

(** *** How far the floating-point score is from the exact one *)

Section ScoreAccuracy.

Import MatchCalculator.

Local Open Scope Q_scope.








End ScoreAccuracy.

Section ScoreAccuracyProperties.

Import MatchCalculator.




End ScoreAccuracyProperties.

(** ** Further properties of the match calculator *)

Section ScorerMore.

Import MatchCalculator.

Lemma calculate_match_score_inv
    (set_iter : gset string → list string) (findall_capitalized : string → list string)
    (profile job : value) (r : MatchResult) :
  calculate_match_score set_iter findall_capitalized profile job = Ok r →
  ∃ rs ns ks cs ck,
    job_set job "requirements" "must_have_skills" = Ok rs ∧
    job_set job "requirements" "nice_to_have_skills" = Ok ns ∧
    job_set job "keywords" "ats_keywords" = Ok ks ∧
    _extract_candidate_skills findall_capitalized profile = Ok cs ∧
    _extract_keywords_from_profile profile = Ok ck.
Proof.
  unfold calculate_match_score.
  destruct (job_set job "requirements" "must_have_skills") as [rs|]; [|done].
  destruct (job_set job "requirements" "nice_to_have_skills") as [ns|]; [|done].
  destruct (job_set job "keywords" "ats_keywords") as [ks|]; [|done].
  destruct (_extract_candidate_skills _ _) as [cs|]; [|done].
  destruct (_extract_keywords_from_profile _) as [ck|]; [|done].
  intros _. by exists rs, ns, ks, cs, ck.
Qed.

(** The messages of the four rules are not the excellent-match message. *)
Lemma excellent_only_fallback
    (set_iter : gset string → list string) (score : Q) (mr mn : gset string) :
  msg_excellent_match ∈ _generate_recommendations set_iter score mr mn →
  Qltb score 50 = false ∧ mr = ∅ ∧ mn = ∅ ∧ Qle_bool 70 score = false.
Proof.
  unfold _generate_recommendations.
  destruct (Qltb score 50), (decide (mr ≠ ∅)) as [?|?%dec_stable],
    (decide (mn ≠ ∅)) as [?|?%dec_stable], (Qle_bool 70 score);
    simpl; intros H; try done;
    repeat (apply elem_of_cons in H as [H|H]; [discriminate H|]);
    by apply elem_of_nil in H.
Qed.

(** X9: in every result the number of matched items of a category is at
    most the number of items of that category. *)
Theorem matched_at_most_total
    (set_iter : gset string → list string) (findall_capitalized : string → list string)
    (profile job : value) (r : MatchResult) :
  (∀ X, set_iter X ≡ₚ elements X) →
  calculate_match_score set_iter findall_capitalized profile job = Ok r →
  (required_skills_matched r ≤ required_skills_total r)%nat ∧
  (nice_to_have_matched r ≤ nice_to_have_total r)%nat ∧
  (keywords_matched r ≤ keywords_total r)%nat.
Proof.
  intros Hiter H.
  destruct (calculate_match_score_inv _ _ _ _ _ H)
    as (rs & ns & ks & cs & ck & Hrs & Hns & Hks & Hcs & Hck).
  destruct (calculate_match_score_runs set_iter findall_capitalized
              _ _ _ _ _ _ _ Hrs Hns Hks Hcs Hck)
    as (rq & nq & kq & _ & _ & _ & _ & _ & _ & _ & _ & _ & E).
  rewrite E in H. injection H as <-. simpl.
  repeat split; by apply count_matches_le.
Qed.

Lemma matched_at_most_total_witness :
  ∃ r, calculate_match_score elements Sample.no_findall
         Sample.profile_python Sample.job_python_go = Ok r ∧
       (required_skills_matched r ≤ required_skills_total r)%nat ∧
       (nice_to_have_matched r ≤ nice_to_have_total r)%nat ∧
       (keywords_matched r ≤ keywords_total r)%nat.
Proof.
  eexists. split; [by vm_compute|].
  apply (matched_at_most_total elements Sample.no_findall
           Sample.profile_python Sample.job_python_go);
    [intros X; reflexivity | by vm_compute].
Defined.

(** X10: the three component scores of a result stay within their weights:
    the required score within 0 and 100, the nice-to-have score within 0
    and 50, the keyword score within 0 and 30. *)
Theorem component_scores_in_range
    (set_iter : gset string → list string) (findall_capitalized : string → list string)
    (profile job : value) (r : MatchResult) :
  (∀ X, set_iter X ≡ₚ elements X) →
  calculate_match_score set_iter findall_capitalized profile job = Ok r →
  (0 <= required_skills_score r ∧ required_skills_score r <= 100)%Q ∧
  (0 <= nice_to_have_score r ∧ nice_to_have_score r <= 50)%Q ∧
  (0 <= keyword_score r ∧ keyword_score r <= 30)%Q.
Proof.
  intros Hiter H.
  destruct (calculate_match_score_inv _ _ _ _ _ H)
    as (rs & ns & ks & cs & ck & Hrs & Hns & Hks & Hcs & Hck).
  destruct (calculate_match_score_runs set_iter findall_capitalized
              _ _ _ _ _ _ _ Hrs Hns Hks Hcs Hck)
    as (rq & nq & kq & Erq & Enq & Ekq & _ & _ & _ & Prq & Pnq & Pkq & E).
  rewrite E in H. injection H as <-. simpl.
  apply component_score_le in Erq; [|by apply count_matches_le|lra|lra|exact fl_100].
  apply component_score_le in Enq; [|by apply count_matches_le|lra|lra|exact fl_50].
  apply component_score_le in Ekq; [|by apply count_matches_le|lra|lra|exact fl_30].
  split; [|split].
  - apply (py_round1_le rq 100); [done|done|exact fl_100].
  - apply (py_round1_le nq 50); [done|done|exact fl_50].
  - apply (py_round1_le kq 30); [done|done|exact fl_30].
Qed.

Lemma component_scores_in_range_witness :
  ∃ r, calculate_match_score elements Sample.no_findall
         Sample.profile_python Sample.job_python_go = Ok r ∧
       (0 <= required_skills_score r ∧ required_skills_score r <= 100)%Q ∧
       (0 <= nice_to_have_score r ∧ nice_to_have_score r <= 50)%Q ∧
       (0 <= keyword_score r ∧ keyword_score r <= 30)%Q.
Proof.
  eexists. split; [by vm_compute|].
  apply (component_scores_in_range elements Sample.no_findall
           Sample.profile_python Sample.job_python_go);
    [intros X; reflexivity | by vm_compute].
Defined.

(** X11: each of the two lists of missing skills has at most ten entries
    and no repetition, and every entry is a skill that the job asks for (in
    lower case) and that is not, as such, in the candidate's skill set. *)
Theorem missing_lists_sound
    (set_iter : gset string → list string) (findall_capitalized : string → list string)
    (profile job : value) (r : MatchResult) (rs ns cs : gset string) :
  (∀ X, set_iter X ≡ₚ elements X) →
  job_set job "requirements" "must_have_skills" = Ok rs →
  job_set job "requirements" "nice_to_have_skills" = Ok ns →
  _extract_candidate_skills findall_capitalized profile = Ok cs →
  calculate_match_score set_iter findall_capitalized profile job = Ok r →
  ((length (missing_required_skills r) ≤ 10)%nat ∧
   NoDup (missing_required_skills r) ∧
   ∀ m, m ∈ missing_required_skills r → m ∈ rs ∧ m ∉ cs) ∧
  ((length (missing_nice_to_have_skills r) ≤ 10)%nat ∧
   NoDup (missing_nice_to_have_skills r) ∧
   ∀ m, m ∈ missing_nice_to_have_skills r → m ∈ ns ∧ m ∉ cs).
Proof.
  intros Hiter Hrs Hns Hcs H.
  destruct (calculate_match_score_inv _ _ _ _ _ H)
    as (rs' & ns' & ks & cs' & ck & Hrs' & Hns' & Hks & Hcs' & Hck).
  assert (rs' = rs) as -> by congruence.
  assert (ns' = ns) as -> by congruence.
  assert (cs' = cs) as -> by congruence.
  destruct (calculate_match_score_runs set_iter findall_capitalized
              _ _ _ _ _ _ _ Hrs Hns Hks Hcs Hck)
    as (rq & nq & kq & _ & _ & _ & _ & _ & _ & _ & _ & _ & E).
  rewrite E in H. injection H as <-. simpl.
  assert (Hgen : ∀ X : gset string,
             (length (take 10 (set_iter X)) ≤ 10)%nat ∧
             NoDup (take 10 (set_iter X)) ∧
             ∀ m, m ∈ take 10 (set_iter X) → m ∈ X).
  { intros X. split; [rewrite length_take; lia|]. split.
    - eapply sublist_NoDup; [|apply sublist_take].
      apply (NoDup_set_iter set_iter Hiter).
    - intros m Hm%subseteq_take. by apply (elem_of_set_iter set_iter Hiter). }
  split.
  - destruct (Hgen (rs ∖ cs)) as (Hlen & Hnd & Hin).
    split; [done|]. split; [done|].
    intros m Hm%Hin. by apply elem_of_difference in Hm.
  - destruct (Hgen (ns ∖ cs)) as (Hlen & Hnd & Hin).
    split; [done|]. split; [done|].
    intros m Hm%Hin. by apply elem_of_difference in Hm.
Qed.

Lemma missing_lists_sound_witness :
  ∃ r, calculate_match_score elements Sample.no_findall
         Sample.profile_python Sample.job_python_go = Ok r ∧
       ((length (missing_required_skills r) ≤ 10)%nat ∧
        NoDup (missing_required_skills r) ∧
        ∀ m, m ∈ missing_required_skills r →
             m ∈ (list_to_set ["python"; "go"] : gset string) ∧
             m ∉ (list_to_set ["python"] : gset string)) ∧
       ((length (missing_nice_to_have_skills r) ≤ 10)%nat ∧
        NoDup (missing_nice_to_have_skills r) ∧
        ∀ m, m ∈ missing_nice_to_have_skills r →
             m ∈ (∅ : gset string) ∧ m ∉ (list_to_set ["python"] : gset string)).
Proof.
  eexists. split; [by vm_compute|].
  apply (missing_lists_sound elements Sample.no_findall
           Sample.profile_python Sample.job_python_go);
    [intros X; reflexivity | reflexivity | reflexivity | reflexivity | by vm_compute].
Defined.

(** X12: the excellent-match message is never among the recommendations of
    a result: when nothing is missing the score is 100, and the rule for
    scores of 70 and more has fired before the fallback is tried. *)
Theorem excellent_match_unreachable
    (set_iter : gset string → list string) (findall_capitalized : string → list string)
    (profile job : value) (r : MatchResult) :
  (∀ X, set_iter X ≡ₚ elements X) →
  calculate_match_score set_iter findall_capitalized profile job = Ok r →
  msg_excellent_match ∉ recommendations r.
Proof.
  intros Hiter H.
  destruct (calculate_match_score_inv _ _ _ _ _ H)
    as (rs & ns & ks & cs & ck & Hrs & Hns & Hks & Hcs & Hck).
  destruct (calculate_match_score_runs set_iter findall_capitalized
              _ _ _ _ _ _ _ Hrs Hns Hks Hcs Hck)
    as (rq & nq & kq & Erq & _ & _ & _ & _ & _ & _ & Pnq & Pkq & E).
  rewrite E in H. injection H as <-. simpl.
  intros (_ & Hmr & _ & Hs)%excellent_only_fallback.
  apply empty_difference_subseteq_L in Hmr.
  rewrite (count_matches_full set_iter Hiter _ _ Hmr) in Erq.
  apply component_score_full in Erq; [|exact fl_100].
  pose proof (py_add_full rq nq kq Erq Pnq Pkq) as Hsum.
  apply Qle_bool_false in Hs. rewrite (py_min_full _ Hsum) in Hs. lra.
Qed.

Lemma excellent_match_unreachable_witness :
  ∃ r, calculate_match_score elements Sample.no_findall
         Sample.profile_python Sample.job_empty_lists = Ok r ∧
       msg_excellent_match ∉ recommendations r.
Proof.
  eexists. split; [by vm_compute|].
  apply (excellent_match_unreachable elements Sample.no_findall
           Sample.profile_python Sample.job_empty_lists);
    [intros X; reflexivity | by vm_compute].
Defined.

(** X13: there are always between one and three recommendations: the
    low-match warning and the strong-match message exclude each other. *)
Theorem recommendations_count
    (set_iter : gset string → list string) (score : Q) (mr mn : gset string) :
  (1 ≤ length (_generate_recommendations set_iter score mr mn) ≤ 3)%nat.
Proof.
  unfold _generate_recommendations.
  destruct (Qltb score 50) eqn:Hlow, (Qle_bool 70 score) eqn:Hhigh.
  { apply Qltb_lt in Hlow. apply Qle_bool_iff in Hhigh. lra. }
  all: destruct (decide (mr ≠ ∅)), (decide (mn ≠ ∅)); simpl; lia.
Qed.

(** X14: a requirement that is itself in the candidate set always counts,
    and a larger candidate set never gives a smaller count. *)
Theorem count_matches_monotone
    (set_iter : gset string → list string) (required candidate candidate' : gset string) :
  (∀ X, set_iter X ≡ₚ elements X) →
  candidate ⊆ candidate' →
  (size (required ∩ candidate) ≤ _count_matches set_iter required candidate)%nat ∧
  (_count_matches set_iter required candidate
   ≤ _count_matches set_iter required candidate')%nat.
Proof.
  intros Hiter Hsub. split.
  - by apply count_matches_exact.
  - by apply count_matches_mono.
Qed.

Lemma count_matches_monotone_witness :
  (size (Sample.required_sample ∩ {["python"]})
   ≤ _count_matches elements Sample.required_sample {["python"]})%nat ∧
  (_count_matches elements Sample.required_sample {["python"]}
   ≤ _count_matches elements Sample.required_sample Sample.candidate_sample)%nat.
Proof.
  apply (count_matches_monotone elements); [intros X; reflexivity|].
  intros x ->%elem_of_singleton. apply elem_of_list_to_set. left.
Defined.

(** X15: when every required skill is itself in the candidate's skill set,
    all of them are matched, the required score and the overall score are
    100, no required skill is reported missing and the strong-match message
    is among the recommendations. *)
Theorem full_coverage
    (set_iter : gset string → list string) (findall_capitalized : string → list string)
    (profile job : value) (r : MatchResult) (rs cs : gset string) :
  (∀ X, set_iter X ≡ₚ elements X) →
  job_set job "requirements" "must_have_skills" = Ok rs →
  _extract_candidate_skills findall_capitalized profile = Ok cs →
  rs ⊆ cs →
  calculate_match_score set_iter findall_capitalized profile job = Ok r →
  required_skills_matched r = required_skills_total r ∧
  (required_skills_score r == 100)%Q ∧
  (overall_score r == 100)%Q ∧
  missing_required_skills r = [] ∧
  msg_strong_match ∈ recommendations r.
Proof.
  intros Hiter Hrs Hcs Hsub H.
  destruct (calculate_match_score_inv _ _ _ _ _ H)
    as (rs' & ns & ks & cs' & ck & Hrs' & Hns & Hks & Hcs' & Hck).
  assert (rs' = rs) as -> by congruence.
  assert (cs' = cs) as -> by congruence.
  destruct (calculate_match_score_runs set_iter findall_capitalized
              _ _ _ _ _ _ _ Hrs Hns Hks Hcs Hck)
    as (rq & nq & kq & Erq & _ & _ & _ & _ & _ & _ & Pnq & Pkq & E).
  rewrite E in H. injection H as <-. simpl.
  rewrite (count_matches_full set_iter Hiter _ _ Hsub) in *.
  apply component_score_full in Erq; [|exact fl_100].
  pose proof (py_add_full rq nq kq Erq Pnq Pkq) as Hsum.
  rewrite (py_min_full _ Hsum).
  assert (rs ∖ cs = ∅) as -> by by apply subseteq_empty_difference_L.
  assert (set_iter ∅ = []) as Hnil.
  { apply Permutation_nil. by rewrite Hiter, elements_empty. }
  split; [done|]. split.
  { assert (0 <= rq)%Q by (rewrite Erq; done).
    assert (rq <= inject_Z 100)%Q by (rewrite Erq; done).
    assert (inject_Z 100 <= rq)%Q by (rewrite Erq; done).
    apply Qle_antisym.
    - apply (py_round1_le rq 100); [done|done|exact fl_100].
    - apply (py_round1_ge rq 100); [done|done|exact fl_100]. }
  split; [reflexivity|]. split; [by rewrite Hnil|].
  unfold _generate_recommendations. simpl.
  destruct (decide (ns ∖ cs ≠ ∅)); simpl.
  - right. left.
  - left.
Qed.

Lemma full_coverage_witness :
  ∃ r, calculate_match_score elements Sample.no_findall
         Sample.profile_thirds Sample.job_python_docker = Ok r ∧
       required_skills_total r = 2%nat ∧
       required_skills_matched r = required_skills_total r ∧
       (required_skills_score r == 100)%Q ∧
       (overall_score r == 100)%Q ∧
       missing_required_skills r = [] ∧
       msg_strong_match ∈ recommendations r.
Proof.
  eexists. split; [by vm_compute|]. split; [reflexivity|].
  apply (full_coverage elements Sample.no_findall
           Sample.profile_thirds Sample.job_python_docker _
           (list_to_set ["python"; "docker"]) (list_to_set ["python"; "docker"]));
    [intros X; reflexivity | reflexivity | reflexivity | done | by vm_compute].
Defined.

End ScorerMore.

(** ** Properties of the extraction of the sets *)

Section ExtractionFacts.

Import MatchCalculator.

Variable findall_capitalized : string → list string.

Lemma mapM_str_lower (items : list value) (lowered : list string) :
  mapM str_lower items = Ok lowered →
  Forall lower_case lowered ∧
  ∀ s, VStr s ∈ items → py_lower s ∈ lowered.
Proof.
  revert lowered. induction items as [|v items IH]; intros lowered; simpl.
  - intros [= <-]. split; [constructor|]. intros s Hs. by inversion Hs.
  - destruct v as [| | |s0| |]; simpl; try done.
    destruct (mapM str_lower items) as [l|e]; simpl; [|done]. intros [= <-].
    destruct (IH l eq_refl) as [Hl Hin]. split.
    + constructor; [apply py_lower_idem | done].
    + intros s [[= ->]|Hs]%elem_of_cons; [left | right; by apply Hin].
Qed.

Lemma update_lower_spec (S S' : gset string) (l : list value) :
  update_lower S l = Ok S' →
  S ⊆ S' ∧ (∀ s, VStr s ∈ l → py_lower s ∈ S') ∧
  ((∀ x, x ∈ S → lower_case x) → ∀ x, x ∈ S' → lower_case x).
Proof.
  unfold update_lower. destruct (mapM str_lower l) as [lowered|e] eqn:E; [|done].
  simpl. intros [= <-]. apply mapM_str_lower in E as [Hl Hin].
  split; [apply union_subseteq_l|]. split.
  - intros s Hs. apply elem_of_union. right. apply elem_of_list_to_set. auto.
  - intros HS x [Hx|Hx%elem_of_list_to_set]%elem_of_union; [auto|].
    rewrite Forall_forall in Hl. auto.
Qed.

Lemma update_from_categories_spec (S S' : gset string) (items : list (string * value)) :
  update_from_categories S items = Ok S' →
  S ⊆ S' ∧
  (∀ category l s, (category, VList l) ∈ items → VStr s ∈ l → py_lower s ∈ S') ∧
  ((∀ x, x ∈ S → lower_case x) → ∀ x, x ∈ S' → lower_case x).
Proof.
  revert S. induction items as [|[category v] items IH]; intros S; simpl.
  - intros [= <-]. split; [done|]. split; [|done]. intros ? ? ? H. by inversion H.
  - destruct (match v with VList l => update_lower S l | _ => Ok S end)
      as [S1|e] eqn:E1; simpl; [|done].
    intros (Hsub & Hin & Hlow)%IH.
    assert (S ⊆ S1 ∧ (∀ l s, v = VList l → VStr s ∈ l → py_lower s ∈ S1) ∧
            ((∀ x, x ∈ S → lower_case x) → ∀ x, x ∈ S1 → lower_case x))
      as (Hsub1 & Hin1 & Hlow1).
    { destruct v as [| | | |l|]; try (injection E1 as <-; by repeat split).
      apply update_lower_spec in E1 as (Ha & Hb & Hc).
      split; [done|]. split; [|done]. intros ? ? [= <-]. apply Hb. }
    split; [by etrans|]. split; [|auto].
    intros c l s [[= <- <-]|Hc]%elem_of_cons Hs.
    + apply Hsub. by eapply Hin1.
    + by eapply Hin.
Qed.

Lemma long_words_lower_spec (n : nat) (words : list string) (x : string) :
  x ∈ long_words_lower n words → lower_case x ∧ (n < String.length x)%nat.
Proof.
  unfold long_words_lower. rewrite elem_of_list_to_set.
  intros Hx. apply list_elem_of_In, in_map_iff in Hx as (w & <- & Hw).
  apply list_elem_of_In, list_elem_of_filter in Hw as [Hlen _].
  split; [apply py_lower_idem | by rewrite py_lower_length].
Qed.

Lemma update_from_texts_spec (S S' : gset string) (texts : list value) :
  update_from_texts findall_capitalized S texts = Ok S' →
  S ⊆ S' ∧ ((∀ x, x ∈ S → lower_case x) → ∀ x, x ∈ S' → lower_case x).
Proof.
  revert S. induction texts as [|v texts IH]; intros S; simpl.
  - by intros [= <-].
  - destruct v as [| | |s| |]; simpl; try done.
    intros (Hsub & Hlow)%IH. split; [etrans; [|exact Hsub]; apply union_subseteq_l|].
    intros HS. apply Hlow.
    intros x [Hx|Hx%long_words_lower_spec]%elem_of_union; [auto | tauto].
Qed.

Lemma update_from_experience_spec (S S' : gset string) (entries : list value) :
  update_from_experience findall_capitalized S entries = Ok S' →
  S ⊆ S' ∧ ((∀ x, x ∈ S → lower_case x) → ∀ x, x ∈ S' → lower_case x).
Proof.
  revert S. induction entries as [|exp entries IH]; intros S; simpl.
  - by intros [= <-].
  - destruct (py_get exp "responsibilities" _) as [r|]; simpl; [|done].
    destruct (py_get exp "achievements" _) as [a|]; simpl; [|done].
    destruct (py_add_iterable r a) as [both|]; simpl; [|done].
    destruct (py_iter both) as [texts|]; simpl; [|done].
    destruct (update_from_texts _ S texts) as [S1|] eqn:E1; simpl; [|done].
    apply update_from_texts_spec in E1 as [Hsub1 Hlow1].
    intros (Hsub & Hlow)%IH. split; [by etrans | auto].
Qed.

Lemma keywords_from_experience_spec (K K' : gset string) (entries : list value) :
  keywords_from_experience K entries = Ok K' →
  (∀ x, x ∈ K → lower_case x ∧ (4 < String.length x)%nat) →
  ∀ x, x ∈ K' → lower_case x ∧ (4 < String.length x)%nat.
Proof.
  revert K. induction entries as [|exp entries IH]; intros K; simpl.
  - by intros [= <-].
  - destruct (py_get exp "responsibilities" _) as [r|]; simpl; [|done].
    destruct (py_get exp "achievements" _) as [a|]; simpl; [|done].
    destruct (py_add_iterable r a) as [both|]; simpl; [|done].
    destruct (str_join_space both) as [text|]; simpl; [|done].
    intros H HK. apply (IH _ H).
    intros x [Hx|Hx%long_words_lower_spec]%elem_of_union; auto.
Qed.

Lemma mapM_length {A B} (f : A → result B) (xs : list A) (ys : list B) :
  mapM f xs = Ok ys → length ys = length xs.
Proof.
  revert ys. induction xs as [|x xs IH]; intros ys; simpl; [by intros [= <-]|].
  destruct (f x); simpl; [|done]. destruct (mapM f xs); simpl; [|done].
  intros [= <-]. simpl. by rewrite (IH _ eq_refl).
Qed.

Lemma size_list_to_set_le (l : list string) :
  (size (list_to_set l : gset string) ≤ length l)%nat.
Proof.
  induction l as [|x l IH]; [done|].
  rewrite list_to_set_cons, size_union_alt, size_singleton. simpl.
  assert (size (list_to_set l ∖ {[x]} : gset string) ≤ size (list_to_set l : gset string))%nat
    by apply subseteq_size, subseteq_difference_l, reflexivity.
  lia.
Qed.

End ExtractionFacts.

Section ExtractionProperties.

Import MatchCalculator.

Lemma candidate_skills_facts
    (findall_capitalized : string → list string) (profile : value) (cs : gset string) :
  _extract_candidate_skills findall_capitalized profile = Ok cs →
  (∀ x, x ∈ cs → lower_case x) ∧
  ∃ skills_data,
    py_get profile "skills" (VDict []) = Ok skills_data ∧
    (∀ l s, skills_data = VList l → VStr s ∈ l → py_lower s ∈ cs) ∧
    (∀ items category l s,
       skills_data = VDict items → (category, VList l) ∈ items → VStr s ∈ l →
       py_lower s ∈ cs).
Proof.
  unfold _extract_candidate_skills.
  destruct (py_get profile "skills" _) as [skills_data|] eqn:E0; simpl; [|done].
  destruct (match skills_data with
            | VDict items => update_from_categories ∅ items
            | VList l => update_lower ∅ l
            | _ => Ok ∅
            end) as [S1|] eqn:E1; simpl; [|done].
  destruct (py_get profile "experience" _) as [experience|]; simpl; [|done].
  destruct (py_iter experience) as [entries|]; simpl; [|done].
  intros [Hsub Hlow]%update_from_experience_spec.
  assert ((∀ x, x ∈ S1 → lower_case x) ∧
          (∀ l s, skills_data = VList l → VStr s ∈ l → py_lower s ∈ S1) ∧
          (∀ items category l s,
             skills_data = VDict items → (category, VList l) ∈ items → VStr s ∈ l →
             py_lower s ∈ S1)) as (Hl1 & Hlist & Hdict).
  { destruct skills_data as [| | | |l|items];
      try (injection E1 as <-; split; [intros y Hy; exfalso; revert Hy; apply not_elem_of_empty|];
           split; intros; congruence).
    - apply update_lower_spec in E1 as (_ & Hin & Hl).
      split; [apply Hl; intros y Hy; exfalso; revert Hy; apply not_elem_of_empty|].
      split; [|intros; congruence]. intros ? ? [= <-]. apply Hin.
    - apply update_from_categories_spec in E1 as (_ & Hin & Hl).
      split; [apply Hl; intros y Hy; exfalso; revert Hy; apply not_elem_of_empty|].
      split; [intros; congruence|]. intros ? ? ? ? [= <-]. apply Hin. }
  split; [by apply Hlow|]. exists skills_data. split; [done|]. split.
  - intros l s E Hs. apply Hsub. by eapply Hlist.
  - intros items c l s E Hc Hs. apply Hsub. by eapply Hdict.
Qed.

(** X16: every element of the candidate's skill set is in lower case, and
    every skill that the profile lists, in a flat list or under a category,
    is in the set in lower case. *)
Theorem candidate_skills_listed
    (findall_capitalized : string → list string) (profile : value) (cs : gset string) :
  _extract_candidate_skills findall_capitalized profile = Ok cs →
  (∀ x, x ∈ cs → py_lower x = x) ∧
  ∃ skills_data,
    py_get profile "skills" (VDict []) = Ok skills_data ∧
    (∀ l s, skills_data = VList l → VStr s ∈ l → py_lower s ∈ cs) ∧
    (∀ items category l s,
       skills_data = VDict items → (category, VList l) ∈ items → VStr s ∈ l →
       py_lower s ∈ cs).
Proof. apply candidate_skills_facts. Qed.

Lemma candidate_skills_listed_witness :
  (∀ x, x ∈ (list_to_set ["python"] : gset string) → py_lower x = x) ∧
  ∃ skills_data,
    py_get Sample.profile_python "skills" (VDict []) = Ok skills_data ∧
    (∀ l s, skills_data = VList l → VStr s ∈ l →
            py_lower s ∈ (list_to_set ["python"] : gset string)) ∧
    (∀ items category l s,
       skills_data = VDict items → (category, VList l) ∈ items → VStr s ∈ l →
       py_lower s ∈ (list_to_set ["python"] : gset string)).
Proof.
  apply (candidate_skills_listed Sample.no_findall Sample.profile_python).
  reflexivity.
Defined.

(** X17: every keyword taken from the profile is in lower case and has at
    least five characters. *)
Theorem profile_keywords_long (profile : value) (ck : gset string) :
  _extract_keywords_from_profile profile = Ok ck →
  ∀ x, x ∈ ck → py_lower x = x ∧ (4 < String.length x)%nat.
Proof.
  unfold _extract_keywords_from_profile.
  destruct (py_get profile "summary" _) as [summary|]; simpl; [|done].
  destruct (str_split summary) as [words|]; simpl; [|done].
  destruct (py_get profile "experience" _) as [experience|]; simpl; [|done].
  destruct (py_iter experience) as [entries|]; simpl; [|done].
  intros H. apply (keywords_from_experience_spec _ _ _ H).
  intros x [Hx|Hx%long_words_lower_spec]%elem_of_union; [|done].
  exfalso. revert Hx. apply not_elem_of_empty.
Qed.

Lemma profile_keywords_long_witness :
  py_lower "developer" = "developer" ∧ (4 < String.length "developer")%nat.
Proof.
  apply (profile_keywords_long Sample.profile_python
           (list_to_set ["backend"; "developer"])); [reflexivity|].
  apply elem_of_list_to_set. right. left.
Defined.

(** X18: a skill that the profile lists in its flat list of skills is never
    reported missing, in whatever case the profile and the job write it. *)
Theorem listed_skill_never_missing
    (set_iter : gset string → list string) (findall_capitalized : string → list string)
    (profile job : value) (r : MatchResult) (l : list value) (s : string) :
  (∀ X, set_iter X ≡ₚ elements X) →
  py_get profile "skills" (VDict []) = Ok (VList l) →
  VStr s ∈ l →
  calculate_match_score set_iter findall_capitalized profile job = Ok r →
  (py_lower s ∉ missing_required_skills r) ∧
  (py_lower s ∉ missing_nice_to_have_skills r).
Proof.
  intros Hiter Hskills Hs H.
  destruct (calculate_match_score_inv _ _ _ _ _ H)
    as (rs & ns & ks & cs & ck & Hrs & Hns & Hks & Hcs & Hck).
  destruct (calculate_match_score_runs set_iter findall_capitalized
              _ _ _ _ _ _ _ Hrs Hns Hks Hcs Hck)
    as (rq & nq & kq & _ & _ & _ & _ & _ & _ & _ & _ & _ & E).
  rewrite E in H. injection H as <-. simpl.
  destruct (candidate_skills_facts _ _ _ Hcs) as (_ & sd & Hsd & Hlist & _).
  assert (sd = VList l) as -> by congruence.
  assert (py_lower s ∈ cs) as Hin by by eapply Hlist.
  split; intros Hm%subseteq_take%(elem_of_set_iter set_iter Hiter);
    by apply elem_of_difference in Hm as [_ ?].
Qed.

Lemma listed_skill_never_missing_witness :
  ∃ r, calculate_match_score elements Sample.no_findall
         Sample.profile_python Sample.job_python_go = Ok r ∧
       (py_lower "Python" ∉ missing_required_skills r) ∧
       (py_lower "Python" ∉ missing_nice_to_have_skills r).
Proof.
  eexists. split; [by vm_compute|].
  apply (listed_skill_never_missing elements Sample.no_findall
           Sample.profile_python Sample.job_python_go _ [VStr "Python"] "Python");
    [intros X; reflexivity | reflexivity | left | by vm_compute].
Defined.

(** X19: every element of a job-side set is in lower case, and the lower
    case of every string of the list is in the set, so entries that differ
    only in case are one element. *)
Theorem job_set_lower_case (job : value) (section key : string) (S : gset string) :
  job_set job section key = Ok S →
  (∀ x, x ∈ S → py_lower x = x) ∧
  ∃ sec entries items,
    py_get job section (VDict []) = Ok sec ∧
    py_get sec key (VList []) = Ok entries ∧
    py_iter entries = Ok items ∧
    (∀ s, VStr s ∈ items → py_lower s ∈ S) ∧
    (size S ≤ length items)%nat.
Proof.
  unfold job_set.
  destruct (py_get job section _) as [sec|] eqn:E1; simpl; [|done].
  destruct (py_get sec key _) as [entries|] eqn:E2; simpl; [|done].
  destruct (py_iter entries) as [items|] eqn:E3; simpl; [|done].
  destruct (mapM str_lower items) as [lowered|] eqn:E; simpl; [|done].
  intros [= <-]. pose proof (mapM_str_lower _ _ E) as [Hl Hin]. split.
  - intros x Hx%elem_of_list_to_set. rewrite Forall_forall in Hl. by apply Hl.
  - exists sec, entries, items. split; [reflexivity|]. split; [exact E2|].
    split; [exact E3|]. split.
    + intros s Hs. apply elem_of_list_to_set. auto.
    + rewrite <- (mapM_length _ _ _ E). apply size_list_to_set_le.
Qed.

Lemma job_set_lower_case_witness :
  (∀ x, x ∈ (list_to_set ["python"; "go"] : gset string) → py_lower x = x) ∧
  ∃ sec entries items,
    py_get Sample.job_python_go "requirements" (VDict []) = Ok sec ∧
    py_get sec "must_have_skills" (VList []) = Ok entries ∧
    py_iter entries = Ok items ∧
    (∀ s, VStr s ∈ items → py_lower s ∈ (list_to_set ["python"; "go"] : gset string)) ∧
    (size (list_to_set ["python"; "go"] : gset string) ≤ length items)%nat.
Proof.
  apply (job_set_lower_case Sample.job_python_go "requirements" "must_have_skills").
  reflexivity.
Defined.

End ExtractionProperties.

(** ** Properties of the text operations and of the file names *)

Section StripFacts.

Lemma chars_of_string (l : list ascii) : chars (string_of_list_ascii l) = l.
Proof. apply list_ascii_of_string_of_list_ascii. Qed.

Lemma string_of_chars (s : string) : string_of_list_ascii (chars s) = s.
Proof. apply string_of_list_ascii_of_string. Qed.

Lemma lstrip_chars_idem (s : list ascii) : lstrip_chars (lstrip_chars s) = lstrip_chars s.
Proof.
  induction s as [|c s IH]; simpl; [done|].
  destruct (is_space c) eqn:E; [done|]. simpl. by rewrite E.
Qed.

Lemma lstrip_chars_sublist (s : list ascii) : lstrip_chars s `sublist_of` s.
Proof.
  induction s as [|c s IH]; simpl; [done|].
  destruct (is_space c); [by apply sublist_cons | done].
Qed.

Lemma lstrip_chars_suffix (s : list ascii) :
  ∃ spaces, s = spaces ++ lstrip_chars s ∧ Forall (fun c => is_space c = true) spaces.
Proof.
  induction s as [|c s (sp & E & Hsp)]; simpl; [by exists []|].
  destruct (is_space c) eqn:Ec.
  - exists (c :: sp). simpl. split; [by f_equal | by constructor].
  - by exists [].
Qed.

(** Stripping on the left keeps a list that does not begin with white
    space, and only such a list. *)
Lemma lstrip_chars_fixed (s : list ascii) :
  lstrip_chars s = s ↔ (∀ c, head s = Some c → is_space c = false).
Proof.
  destruct s as [|c s]; simpl; [done|]. destruct (is_space c) eqn:E.
  - split.
    + intros H. pose proof (sublist_length _ _ (lstrip_chars_sublist s)) as Hl.
      rewrite H in Hl. simpl in Hl. lia.
    + intros H. specialize (H c eq_refl). congruence.
  - split; [by intros _ ? [= <-] | done].
Qed.

Lemma lstrip_chars_head (s : list ascii) (c : ascii) :
  head (lstrip_chars s) = Some c → is_space c = false.
Proof. apply lstrip_chars_fixed, lstrip_chars_idem. Qed.

Lemma rstrip_chars_fixed (s : list ascii) :
  rstrip_chars s = s ↔ (∀ c, last s = Some c → is_space c = false).
Proof.
  unfold rstrip_chars. rewrite <- head_reverse, <- lstrip_chars_fixed.
  split; [intros H | intros ->; apply reverse_involutive].
  apply (f_equal reverse) in H. by rewrite reverse_involutive in H.
Qed.

Lemma rstrip_chars_last (s : list ascii) (c : ascii) :
  last (rstrip_chars s) = Some c → is_space c = false.
Proof.
  unfold rstrip_chars. rewrite last_reverse. apply lstrip_chars_head.
Qed.

End StripFacts.

Section FilenameProperties.

Import Filenames.

Lemma rstrip_chars_prefix (s : list ascii) :
  ∃ spaces, s = rstrip_chars s ++ spaces ∧ Forall (fun c => is_space c = true) spaces.
Proof.
  destruct (lstrip_chars_suffix (reverse s)) as (sp & E & Hsp).
  exists (reverse sp). split.
  - apply (f_equal reverse) in E. rewrite reverse_involutive, reverse_app in E.
    exact E.
  - apply Forall_forall. intros c Hc. rewrite elem_of_reverse in Hc.
    exact (proj1 (Forall_forall _ _) Hsp c Hc).
Qed.

Lemma strip_chars_elem (s : list ascii) (c : ascii) : c ∈ strip_chars s → c ∈ s.
Proof.
  unfold strip_chars. intros Hc.
  destruct (rstrip_chars_prefix (lstrip_chars s)) as (sp & E & _).
  destruct (lstrip_chars_suffix s) as (sp' & E' & _).
  rewrite E', E. apply elem_of_app. right. apply elem_of_app. by left.
Qed.

Lemma strip_chars_head (s : list ascii) (c : ascii) :
  head (strip_chars s) = Some c → is_space c = false.
Proof.
  unfold strip_chars. intros Hc. apply (lstrip_chars_head s).
  destruct (rstrip_chars_prefix (lstrip_chars s)) as (sp & E & _).
  rewrite E. destruct (rstrip_chars (lstrip_chars s)); [done | exact Hc].
Qed.

Lemma strip_chars_last (s : list ascii) (c : ascii) :
  last (strip_chars s) = Some c → is_space c = false.
Proof. apply rstrip_chars_last. Qed.

Lemma strip_chars_fixed (s : list ascii) :
  (∀ c, head s = Some c → is_space c = false) →
  (∀ c, last s = Some c → is_space c = false) →
  strip_chars s = s.
Proof.
  intros Hh Hl. unfold strip_chars.
  rewrite (proj2 (lstrip_chars_fixed s) Hh). by apply rstrip_chars_fixed.
Qed.

Lemma replace_spaces_char (c : ascii) :
  is_space c = false → (if decide (c = space) then underscore else c) = c.
Proof. intros H. case_decide as E; [|done]. by rewrite E in H. Qed.

Lemma sanitize_chars_clean (name : list ascii) (c : ascii) :
  c ∈ sanitize_chars name → is_forbidden c = false ∧ c ≠ space.
Proof.
  unfold sanitize_chars, replace_spaces. intros Hc.
  apply list_elem_of_In, in_map_iff in Hc as (d & <- & Hd%list_elem_of_In).
  case_decide as E; [done|]. split; [|done].
  apply strip_chars_elem in Hd. unfold remove_forbidden in Hd.
  by apply list_elem_of_filter in Hd as [? _].
Qed.

Lemma sanitize_chars_ends (name : list ascii) (c : ascii) :
  head (sanitize_chars name) = Some c ∨ last (sanitize_chars name) = Some c →
  is_space c = false.
Proof.
  unfold sanitize_chars, replace_spaces.
  set (t := strip_chars (remove_forbidden name)). intros [H|H].
  - destruct t as [|d t'] eqn:Et; [done|]. simpl in H. injection H as <-.
    assert (is_space d = false) as Hd
      by (apply (strip_chars_head (remove_forbidden name)); fold t; by rewrite Et).
    by rewrite replace_spaces_char.
  - assert (∃ d, last t = Some d ∧ c = (if decide (d = space) then underscore else d))
      as (d & Hd & ->).
    { clear -H. induction t as [|d t' IH]; [done|].
      destruct t' as [|d' t'']; [simpl in H; injection H as <-; by exists d|].
      apply IH. exact H. }
    apply (strip_chars_last (remove_forbidden name)) in Hd.
    by rewrite replace_spaces_char.
Qed.

(** X20: a sanitized file name holds none of the removed characters, in
    particular no slash and no backslash, and no space, and it neither
    begins nor ends with white space. *)
Theorem sanitize_filename_safe (name : string) :
  (∀ c, c ∈ chars (sanitize_filename name) → is_forbidden c = false ∧ c ≠ space) ∧
  (∀ c, head (chars (sanitize_filename name)) = Some c → is_space c = false) ∧
  (∀ c, last (chars (sanitize_filename name)) = Some c → is_space c = false).
Proof.
  unfold sanitize_filename. rewrite chars_of_string. split; [|split].
  - apply sanitize_chars_clean.
  - intros c H. apply (sanitize_chars_ends (chars name)). by left.
  - intros c H. apply (sanitize_chars_ends (chars name)). by right.
Qed.

(** X21: sanitizing a sanitized file name changes nothing. *)
Theorem sanitize_filename_idempotent (name : string) :
  sanitize_filename (sanitize_filename name) = sanitize_filename name.
Proof.
  unfold sanitize_filename. rewrite chars_of_string. f_equal.
  set (r := sanitize_chars (chars name)).
  assert (Hclean : ∀ c, c ∈ r → is_forbidden c = false ∧ c ≠ space)
    by apply sanitize_chars_clean.
  unfold sanitize_chars.
  assert (remove_forbidden r = r) as ->.
  { unfold remove_forbidden. clear -Hclean.
    induction r as [|c r IH]; [done|].
    rewrite filter_cons_True by (apply Hclean; left). f_equal.
    apply IH. intros d Hd. apply Hclean. by right. }
  rewrite strip_chars_fixed.
  - unfold replace_spaces. clear -Hclean.
    induction r as [|c r IH]; [done|]. simpl.
    rewrite decide_False by (apply Hclean; left). f_equal.
    apply IH. intros d Hd. apply Hclean. by right.
  - intros c H. apply (sanitize_chars_ends (chars name)). by left.
  - intros c H. apply (sanitize_chars_ends (chars name)). by right.
Qed.

Example sanitize_filename_sample :
  sanitize_filename "  Senior Dev / ML: Lead?  " = "Senior_Dev__ML_Lead".
Proof. reflexivity. Qed.

End FilenameProperties.

(** ** Properties of the keyword score of [main.py] *)

Section AtsFacts.

Import Main.

Variable py_repr : value → string.

Lemma append_cons (c : ascii) (a b : string) :
  String c a +:+ b = String c (a +:+ b).
Proof. reflexivity. Qed.

Lemma chars_append (a b : string) : chars (a +:+ b) = chars a ++ chars b.
Proof.
  induction a as [|c a IH]; [done|].
  rewrite append_cons. unfold chars in *. simpl. by rewrite IH.
Qed.

Lemma py_lower_append (a b : string) : py_lower (a +:+ b) = py_lower a +:+ py_lower b.
Proof.
  induction a as [|c a IH]; [done|].
  rewrite append_cons. simpl. by rewrite append_cons, IH.
Qed.

Lemma string_app_assoc (a b c : string) : (a +:+ b) +:+ c = a +:+ (b +:+ c).
Proof.
  induction a as [|x a IH]; [done|]. by rewrite !append_cons, IH.
Qed.

Lemma Substring_prefix (kw a b : string) : Substring kw a → Substring kw (a +:+ b).
Proof.
  intros (pre & post & E). exists pre, (post ++ chars b).
  by rewrite chars_append, E, <- !app_assoc.
Qed.

Lemma string_app_nil_r (a : string) : a +:+ "" = a.
Proof. induction a as [|x a IH]; [done|]. by rewrite append_cons, IH. Qed.

Lemma add_categories_extends skills_data categories (cv_text text : string) :
  add_categories skills_data categories cv_text = Ok text →
  ∃ more, text = cv_text +:+ more.
Proof.
  revert cv_text. induction categories as [|c categories IH]; intros cv_text;
    cbn [add_categories].
  - intros [= <-]. exists "". by rewrite string_app_nil_r.
  - destruct (str_join_space _) as [joined|]; cbn [bind]; [|done].
    intros [more ->]%IH. exists ((joined +:+ " ") +:+ more).
    by rewrite string_app_assoc.
Qed.

Lemma add_roles_extends roles (cv_text text : string) :
  add_roles py_repr roles cv_text = Ok text →
  ∃ more, text = cv_text +:+ more.
Proof.
  revert cv_text. induction roles as [|role roles IH]; intros cv_text;
    cbn [add_roles].
  - intros [= <-]. exists "". by rewrite string_app_nil_r.
  - destruct (py_get role "title" _) as [title|]; cbn [bind]; [|done].
    destruct (py_get role "achievements" _) as [achievements|]; cbn [bind]; [|done].
    destruct (str_join_space _) as [joined|]; cbn [bind]; [|done].
    intros [more ->]%IH. eexists. rewrite !string_app_assoc. reflexivity.
Qed.

(** The flattened text begins with the summary, in lower case. *)
Lemma flatten_cv_summary (customized_cv : value) (text : string) :
  flatten_cv py_repr customized_cv = Ok text →
  ∃ summary more,
    py_get customized_cv "summary" (VStr "") = Ok summary ∧
    text = py_lower (RAGEngine.py_format py_repr summary) +:+ more.
Proof.
  unfold flatten_cv.
  destruct (py_get customized_cv "summary" _) as [summary|]; cbn [bind]; [|done].
  destruct (py_get customized_cv "skills" _) as [skills_data|]; cbn [bind]; [|done].
  destruct (match skills_data with VDict items => _ | _ => _ end)
    as [text1|] eqn:E1; cbn [bind]; [|done].
  destruct (py_get customized_cv "experience" _) as [experience|]; cbn [bind]; [|done].
  destruct (py_iter experience) as [roles|]; cbn [bind]; [|done].
  destruct (add_roles py_repr roles text1) as [text2|] eqn:E2; cbn [bind]; [|done].
  intros [= <-]. apply add_roles_extends in E2 as [more2 ->].
  assert (∃ more1, text1 = (RAGEngine.py_format py_repr summary +:+ " ") +:+ more1)
    as [more1 ->].
  { destruct skills_data;
      try (injection E1 as <-; exists ""; by rewrite string_app_nil_r).
    by apply add_categories_extends in E1. }
  exists summary. eexists. split; [done|].
  rewrite !string_app_assoc, py_lower_append. reflexivity.
Qed.

Lemma match_keywords_spec (cv_text : string) (keywords : list value)
    (matched missing : list string) :
  match_keywords cv_text keywords = Ok (matched, missing) →
  (length matched + length missing = length keywords)%nat ∧
  (∀ kw, kw ∈ matched ↔ VStr kw ∈ keywords ∧ Substring (py_lower kw) cv_text) ∧
  (∀ kw, kw ∈ missing ↔ VStr kw ∈ keywords ∧ ¬ Substring (py_lower kw) cv_text).
Proof.
  revert matched missing.
  induction keywords as [|v keywords IH]; intros matched missing; simpl.
  - intros [= <- <-]. split; [done|].
    split; intros kw; split; [intros H | intros [H _] | intros H | intros [H _]];
      by inversion H.
  - destruct v as [| | |s| |]; try done.
    destruct (match_keywords cv_text keywords) as [[m1 m2]|]; simpl; [|done].
    destruct (IH m1 m2 eq_refl) as (Hlen & Hm & Hn).
    destruct (py_in (py_lower s) cv_text) eqn:Hin; intros [= <- <-].
    + apply py_in_spec in Hin. split; [simpl; lia|]. split; intros kw.
      * rewrite !elem_of_cons, Hm. split.
        -- intros [->|[? ?]]; [split; [by left | done] | split; [by right | done]].
        -- intros [[[= ->]|?] ?]; [by left | by right].
      * rewrite elem_of_cons, Hn. split.
        -- intros [? ?]. split; [by right | done].
        -- intros [[[= ->]|?] ?]; [done | by split].
    + apply not_true_iff_false in Hin. rewrite py_in_spec in Hin.
      split; [simpl; lia|]. split; intros kw.
      * rewrite elem_of_cons, Hm. split.
        -- intros [? ?]. split; [by right | done].
        -- intros [[[= ->]|?] ?]; [done | by split].
      * rewrite !elem_of_cons, Hn. split.
        -- intros [->|[? ?]]; [split; [by left | done] | split; [by right | done]].
        -- intros [[[= ->]|?] ?]; [by left | by right].
Qed.

Lemma ats_score_inv (customized_cv job_keywords : value) (r : AtsResult) :
  calculate_match_score py_repr customized_cv job_keywords = Ok r →
  ∃ cv_text keywords q,
    flatten_cv py_repr customized_cv = Ok cv_text ∧
    py_iter job_keywords = Ok keywords ∧
    match_keywords cv_text keywords = Ok (matched_list r, missing_list r) ∧
    total r = length keywords ∧
    matched_count r = length (matched_list r) ∧
    score r = py_round1 q ∧
    (if decide (0 < length keywords)%nat
     then ∃ ratio, py_truediv (length (matched_list r)) (length keywords) = Ok ratio ∧
                   q = py_mul ratio 100
     else q = 0%Q).
Proof.
  unfold calculate_match_score.
  destruct (flatten_cv py_repr customized_cv) as [cv_text|] eqn:Ef; simpl; [|done].
  destruct (py_iter job_keywords) as [keywords|] eqn:Ei; simpl; [|done].
  destruct (match_keywords cv_text keywords) as [[matched missing]|] eqn:Em;
    simpl; [|done].
  case_decide as Ht.
  - destruct (py_truediv _ _) as [ratio|] eqn:Ed; simpl; [|done]. intros [= <-].
    exists cv_text, keywords, (py_mul ratio 100). simpl.
    rewrite decide_True by done. split_and!; try done. eauto.
  - simpl. intros [= <-]. exists cv_text, keywords, 0%Q. simpl.
    rewrite decide_False by done. by split_and!.
Qed.

End AtsFacts.

Section AtsProperties.

Import Main.

(** X22: in the keyword score of [main.py] every keyword is either matched
    or missing: the two lists add up to the total, the matched count is the
    length of the matched list, the score lies between 0 and 100, it is 0
    when there is no keyword and 100 when no keyword is missing. *)
Theorem ats_score_accounting
    (py_repr : value → string) (customized_cv job_keywords : value) (r : AtsResult) :
  calculate_match_score py_repr customized_cv job_keywords = Ok r →
  matched_count r = length (matched_list r) ∧
  (matched_count r + length (missing_list r) = total r)%nat ∧
  (0 <= score r ∧ score r <= 100)%Q ∧
  (total r = 0%nat → (score r == 0)%Q) ∧
  (total r ≠ 0%nat → missing_list r = [] → (score r == 100)%Q).
Proof.
  intros (cv_text & keywords & q & _ & _ & Hm & Ht & Hc & Hs & Hq)%ats_score_inv.
  apply match_keywords_spec in Hm as (Hlen & _ & _).
  rewrite Ht, Hc, Hs. split; [done|]. split; [done|].
  case_decide as Hpos.
  - destruct Hq as (ratio & Ed & ->).
    pose proof (py_truediv_nonneg _ _ _ Ed) as H0.
    assert (length (matched_list r) ≤ length keywords)%nat as Hle by lia.
    pose proof (py_truediv_le_1 _ _ _ Hle Ed) as H1.
    assert (0 <= py_mul ratio 100)%Q as Hlow by (apply py_mul_nonneg; lra).
    assert (py_mul ratio 100 <= inject_Z 100)%Q as Hhigh.
    { apply fl_le; [lra | change (inject_Z 100) with 100%Q; lra | exact fl_100]. }
    split; [apply (py_round1_le _ 100); [done|done|exact fl_100]|].
    split; [lia|]. intros _ Hnil. rewrite Hnil in Hlen. simpl in Hlen.
    rewrite Nat.add_0_r in Hlen. rewrite Hlen in Ed.
    apply py_truediv_self in Ed.
    assert (inject_Z 100 <= py_mul ratio 100)%Q as Hfull.
    { apply fl_ge; [done | change (inject_Z 100) with 100%Q; lra | exact fl_100]. }
    apply Qle_antisym.
    + apply (py_round1_le _ 100); [done|done|exact fl_100].
    + apply (py_round1_ge _ 100); [done|done|exact fl_100].
  - rewrite Hq. split; [by vm_compute|]. split; [done | lia].
Qed.

Lemma ats_score_accounting_witness :
  ∃ r, calculate_match_score Sample.no_repr SampleCv.customized_cv
         SampleCv.job_keywords = Ok r ∧
       matched_count r = length (matched_list r) ∧
       (matched_count r + length (missing_list r) = total r)%nat ∧
       (0 <= score r ∧ score r <= 100)%Q ∧
       (total r = 0%nat → (score r == 0)%Q) ∧
       (total r ≠ 0%nat → missing_list r = [] → (score r == 100)%Q).
Proof.
  eexists. split; [by vm_compute|].
  apply (ats_score_accounting Sample.no_repr SampleCv.customized_cv
           SampleCv.job_keywords). by vm_compute.
Defined.

(** X23: a keyword is matched exactly when its lower case occurs in the
    flattened lower-case text of the CV, and missing exactly when it does
    not; both lists keep to the keywords of the job. *)
Theorem ats_match_criterion
    (py_repr : value → string) (customized_cv job_keywords : value) (r : AtsResult) :
  calculate_match_score py_repr customized_cv job_keywords = Ok r →
  ∃ cv_text keywords,
    flatten_cv py_repr customized_cv = Ok cv_text ∧
    py_iter job_keywords = Ok keywords ∧
    (∀ kw, kw ∈ matched_list r ↔
           VStr kw ∈ keywords ∧ Substring (py_lower kw) cv_text) ∧
    (∀ kw, kw ∈ missing_list r ↔
           VStr kw ∈ keywords ∧ ¬ Substring (py_lower kw) cv_text).
Proof.
  intros (cv_text & keywords & q & Hf & Hi & Hm & _)%ats_score_inv.
  apply match_keywords_spec in Hm as (_ & Hin & Hout).
  by exists cv_text, keywords.
Qed.

Lemma ats_match_criterion_witness :
  ∃ cv_text keywords,
    flatten_cv Sample.no_repr SampleCv.customized_cv = Ok cv_text ∧
    py_iter SampleCv.job_keywords = Ok keywords ∧
    (∀ kw, kw ∈ ["python"; "DJANGO"] ↔
           VStr kw ∈ keywords ∧ Substring (py_lower kw) cv_text) ∧
    (∀ kw, kw ∈ ["Kubernetes"] ↔
           VStr kw ∈ keywords ∧ ¬ Substring (py_lower kw) cv_text).
Proof.
  apply (ats_match_criterion Sample.no_repr SampleCv.customized_cv
           SampleCv.job_keywords
           (mkAtsResult (py_round1 (py_mul (fl (2 # 3)) 100)) 3 2
              ["python"; "DJANGO"] ["Kubernetes"])).
  by vm_compute.
Defined.

(** A keyword that occurs in the summary of the CV, in whatever case, is
    always matched. *)
Theorem ats_summary_keyword
    (py_repr : value → string) (customized_cv job_keywords : value) (r : AtsResult)
    (summary kw : string) (keywords : list value) :
  py_get customized_cv "summary" (VStr "") = Ok (VStr summary) →
  py_iter job_keywords = Ok keywords →
  VStr kw ∈ keywords →
  SubstringCI kw summary →
  calculate_match_score py_repr customized_cv job_keywords = Ok r →
  kw ∈ matched_list r.
Proof.
  intros Hsum Hkws Hkw Hsub
    (cv_text & keywords' & q & Hf & Hi & Hm & _)%ats_score_inv.
  assert (keywords' = keywords) as -> by congruence.
  apply match_keywords_spec in Hm as (_ & Hin & _). apply Hin. split; [done|].
  apply flatten_cv_summary in Hf as (summary' & more & Hsum' & ->).
  assert (summary' = VStr summary) as -> by congruence.
  simpl. by apply Substring_prefix.
Qed.

Lemma ats_summary_keyword_witness :
  ∃ r, calculate_match_score Sample.no_repr SampleCv.customized_cv
         SampleCv.job_keywords = Ok r ∧
       "python" ∈ matched_list r.
Proof.
  eexists. split; [by vm_compute|].
  apply (ats_summary_keyword Sample.no_repr SampleCv.customized_cv
           SampleCv.job_keywords _
           "Backend engineer building Python services" "python"
           [VStr "python"; VStr "Kubernetes"; VStr "DJANGO"]);
    [reflexivity | reflexivity | left | by apply py_in_spec | by vm_compute].
Defined.

End AtsProperties.

(** ** Properties of the import from LinkedIn *)

Section ImportFacts.

Import RAGEngine MatchCalculator LinkedInScraper.

Lemma dict_get_default (items : list (string * value)) (key : string) (d d' : value) :
  dict_get items key d = dict_get items key d' ∨
  (dict_get items key d = d ∧ dict_get items key d' = d').
Proof.
  induction items as [|[k v] items IH]; simpl; [by right|].
  case_decide; [by left | done].
Qed.

(** The store that the construction leaves, when the roles and the projects
    of the profile can be iterated. *)
Lemma init_shape (py_repr : value → string) (profile : value)
    (roles projects : list value) :
  profile_roles profile = Ok roles →
  profile_projects profile = Ok projects →
  ∃ n m project_snippets,
    snd (__init__ py_repr (Ok profile))
    = flat_map role_snippets (take n roles) ++ project_snippets ∧
    Forall2 (project_snippet py_repr) (take m projects) project_snippets.
Proof.
  unfold __init__, _initialize_snippets, build_snippets, profile_roles,
    profile_projects, bindS, lift.
  destruct profile as [| | | | |items]; simpl; try done.
  intros -> ->.
  destruct (for_each roles add_role_snippets []) as [r st] eqn:Hroles.
  apply for_each_roles_exact in Hroles as (n & _ & -> & _). simpl.
  destruct r as [[]|e]; simpl.
  - destruct (for_each projects _ _) as [r st] eqn:Hprojects.
    apply (for_each_projects_exact py_repr) in Hprojects
      as (m & ps & _ & -> & Hps & _).
    exists n, m, ps. split; [by destruct r as [[]|]|done].
  - exists n, 0%nat, []. rewrite app_nil_r. split; [done | constructor].
Qed.

Lemma role_snippets_experience (role : value) (s : Snippet) :
  s ∈ role_snippets role → ∃ c t d, metadata s = ExperienceMeta c t d.
Proof.
  destruct role as [| | | | |items]; simpl; try (intros H; by inversion H).
  intros H. apply list_elem_of_In, in_map_iff in H as (ach & <- & _). by eexists _, _, _.
Qed.

Lemma create_master_profile_inv (parsed_data master : value) :
  create_master_profile parsed_data = Ok master →
  ∃ items pinfo,
    parsed_data = VDict items ∧
    master = VDict [("personal_info", pinfo);
                    ("summary", dict_get items "summary" (VStr ""));
                    ("skills", dict_get items "skills" default_skills);
                    ("experience", dict_get items "experience" (VList []));
                    ("education", dict_get items "education" (VList []));
                    ("certifications", dict_get items "certifications" (VList []))].
Proof.
  unfold create_master_profile.
  destruct parsed_data as [| | | | |items]; simpl; try done.
  destruct (dict_get items "personal_info" _) as [| | | | |pitems]; simpl; try done.
  intros [= <-]. by eexists _, _.
Qed.

End ImportFacts.

Section ImportProperties.

Import RAGEngine MatchCalculator LinkedInScraper.

(** X24: the retrieval store built from an imported profile holds
    experience snippets only, those of the roles of the imported data; the
    projects of the imported data are dropped by the conversion. *)
Theorem imported_store_has_no_projects
    (py_repr : value → string) (parsed_data master : value) :
  create_master_profile parsed_data = Ok master →
  profile_roles master = profile_roles parsed_data ∧
  profile_projects master = Ok [] ∧
  ∀ s, s ∈ snd (__init__ py_repr (Ok master)) →
       ∃ company title dates, metadata s = ExperienceMeta company title dates.
Proof.
  intros (items & pinfo & -> & ->)%create_master_profile_inv.
  split; [reflexivity|]. split; [reflexivity|].
  destruct (py_iter (dict_get items "experience" (VList []))) as [roles|e] eqn:Hroles.
  - destruct (init_shape py_repr
                (VDict [("personal_info", pinfo);
                        ("summary", dict_get items "summary" (VStr ""));
                        ("skills", dict_get items "skills" default_skills);
                        ("experience", dict_get items "experience" (VList []));
                        ("education", dict_get items "education" (VList []));
                        ("certifications", dict_get items "certifications" (VList []))])
                roles []) as (n & m & ps & -> & Hps); [exact Hroles | reflexivity |].
    rewrite firstn_nil in Hps. inversion Hps; subst. rewrite app_nil_r.
    intros s Hs. apply list_elem_of_In, in_flat_map in Hs as (role & _ & Hs).
    by apply (role_snippets_experience role), list_elem_of_In.
  - unfold __init__, _initialize_snippets, build_snippets, bindS, lift. simpl.
    rewrite Hroles. simpl. intros s Hs. by inversion Hs.
Qed.

Lemma imported_store_has_no_projects_witness :
  ∃ master,
    create_master_profile SampleImport.parsed_data = Ok master ∧
    profile_roles master = profile_roles SampleImport.parsed_data ∧
    profile_projects master = Ok [] ∧
    ∀ s, s ∈ snd (__init__ Sample.no_repr (Ok master)) →
         ∃ company title dates, metadata s = ExperienceMeta company title dates.
Proof.
  eexists. split; [reflexivity|].
  apply (imported_store_has_no_projects Sample.no_repr SampleImport.parsed_data).
  reflexivity.
Defined.

(** X25: the conversion does not change what the match calculator sees: the
    match result of the master profile is that of the imported data. *)
Theorem import_keeps_match_score
    (set_iter : gset string → list string) (findall_capitalized : string → list string)
    (parsed_data master job : value) :
  create_master_profile parsed_data = Ok master →
  calculate_match_score set_iter findall_capitalized master job
  = calculate_match_score set_iter findall_capitalized parsed_data job.
Proof.
  intros (items & pinfo & -> & ->)%create_master_profile_inv.
  unfold calculate_match_score.
  assert (_extract_candidate_skills findall_capitalized
            (VDict [("personal_info", pinfo);
                    ("summary", dict_get items "summary" (VStr ""));
                    ("skills", dict_get items "skills" default_skills);
                    ("experience", dict_get items "experience" (VList []));
                    ("education", dict_get items "education" (VList []));
                    ("certifications", dict_get items "certifications" (VList []))])
          = _extract_candidate_skills findall_capitalized (VDict items)) as ->.
  { unfold _extract_candidate_skills. simpl.
    destruct (dict_get_default items "skills" default_skills (VDict []))
      as [-> | [-> ->]]; [done|].
    simpl. by rewrite !union_empty_r_L. }
  assert (_extract_keywords_from_profile
            (VDict [("personal_info", pinfo);
                    ("summary", dict_get items "summary" (VStr ""));
                    ("skills", dict_get items "skills" default_skills);
                    ("experience", dict_get items "experience" (VList []));
                    ("education", dict_get items "education" (VList []));
                    ("certifications", dict_get items "certifications" (VList []))])
          = _extract_keywords_from_profile (VDict items)) as -> by reflexivity.
  reflexivity.
Qed.

Lemma import_keeps_match_score_witness :
  ∃ master,
    create_master_profile SampleImport.parsed_skills = Ok master ∧
    calculate_match_score elements Sample.no_findall master Sample.job_python_go
    = calculate_match_score elements Sample.no_findall SampleImport.parsed_skills
        Sample.job_python_go.
Proof.
  eexists. split; [reflexivity|].
  apply (import_keeps_match_score elements Sample.no_findall SampleImport.parsed_skills).
  reflexivity.
Defined.

End ImportProperties.

(** ** Properties of the parsing of a model response *)

Section ParseFacts.

Import LLMClient.

Lemma lstrip_chars_spaces (ws x : list ascii) :
  all_space ws → lstrip_chars (ws ++ x) = lstrip_chars x.
Proof. induction 1 as [|c ws Hc _ IH]; simpl; [done|]. by rewrite Hc. Qed.

Lemma all_space_reverse (ws : list ascii) : all_space ws → all_space (reverse ws).
Proof.
  unfold all_space. rewrite !Forall_forall. intros H c Hc.
  rewrite elem_of_reverse in Hc. auto.
Qed.

Lemma trimmed_ends (p : list ascii) :
  trimmed p →
  (∀ c, head p = Some c → is_space c = false) ∧
  (∀ c, last p = Some c → is_space c = false).
Proof.
  unfold trimmed. intros E. split; intros c Hc; rewrite <- E in Hc.
  - by apply strip_chars_head in Hc.
  - by apply strip_chars_last in Hc.
Qed.

Lemma strip_chars_padded (ws1 p ws2 : list ascii) :
  all_space ws1 → all_space ws2 → trimmed p → strip_chars (ws1 ++ p ++ ws2) = p.
Proof.
  intros H1 H2 Hp. destruct (trimmed_ends p Hp) as [Hh Hl].
  unfold strip_chars. rewrite lstrip_chars_spaces by done.
  destruct p as [|c p'].
  - simpl. rewrite <- (app_nil_r ws2), lstrip_chars_spaces by done. done.
  - rewrite (proj2 (lstrip_chars_fixed ((c :: p') ++ ws2))); [|exact Hh].
    unfold rstrip_chars. rewrite reverse_app.
    rewrite lstrip_chars_spaces by by apply all_space_reverse.
    by apply rstrip_chars_fixed.
Qed.

Lemma ends_with_app (x g : list ascii) : ends_with g (x ++ g) = true.
Proof.
  unfold ends_with. rewrite reverse_app. apply starts_with_spec. eauto.
Qed.

Lemma drop_last_app (x g : list ascii) : drop_last (length g) (x ++ g) = x.
Proof.
  unfold drop_last. rewrite length_app, Nat.add_sub. apply take_app_length.
Qed.

Lemma backtick_not_space (c : ascii) : c ∈ fence → is_space c = false.
Proof. intros H. repeat (apply elem_of_cons in H as [->|H]; [done|]). by inversion H. Qed.

(** A fenced text is not changed by the first [strip]. *)
Lemma strip_chars_fenced (opening x : list ascii) (c : ascii) :
  head opening = Some c → is_space c = false →
  strip_chars (opening ++ x ++ fence) = opening ++ x ++ fence.
Proof.
  intros Hh Hc. apply strip_chars_fixed.
  - intros d. destruct opening as [|o opening']; [done|]. simpl in *. congruence.
  - intros d.
    assert (opening ++ x ++ fence
            = (opening ++ x ++ [ascii_of_N 96; ascii_of_N 96]) ++ [ascii_of_N 96])
      as -> by (rewrite <- !app_assoc; reflexivity).
    rewrite last_snoc. by intros [= <-].
Qed.

Lemma clean_fenced_json (ws1 ws2 : list ascii) (p : string) :
  all_space ws1 → all_space ws2 → trimmed (chars p) →
  clean_response (fenced fence_json ws1 p ws2) = p.
Proof.
  intros H1 H2 Hp. unfold clean_response, fenced, clean_response_chars.
  rewrite chars_of_string.
  replace (fence_json ++ ws1 ++ chars p ++ ws2 ++ fence)
    with (fence_json ++ (ws1 ++ chars p ++ ws2) ++ fence)
    by (by rewrite <- !app_assoc).
  pose proof (strip_chars_padded ws1 (chars p) ws2 H1 H2 Hp) as Hpad.
  set (X := ws1 ++ chars p ++ ws2) in *.
  rewrite (strip_chars_fenced fence_json X (ascii_of_N 96)) by done.
  assert (starts_with fence_json (fence_json ++ X ++ fence) = true)
    as -> by (apply starts_with_spec; eauto).
  change (drop 7 (fence_json ++ X ++ fence)) with (X ++ fence).
  rewrite ends_with_app.
  rewrite (drop_last_app X fence : drop_last 3 (X ++ fence) = X).
  rewrite Hpad. apply string_of_chars.
Qed.

Lemma clean_fenced_plain (ws1 ws2 : list ascii) (p : string) :
  all_space ws1 → ws1 ≠ [] → all_space ws2 → trimmed (chars p) →
  clean_response (fenced fence ws1 p ws2) = p.
Proof.
  intros H1 Hne H2 Hp. unfold clean_response, fenced, clean_response_chars.
  rewrite chars_of_string.
  replace (fence ++ ws1 ++ chars p ++ ws2 ++ fence)
    with (fence ++ (ws1 ++ chars p ++ ws2) ++ fence)
    by (by rewrite <- !app_assoc).
  pose proof (strip_chars_padded ws1 (chars p) ws2 H1 H2 Hp) as Hpad.
  assert (∃ w rest, ws1 ++ chars p ++ ws2 = w :: rest ∧ is_space w = true)
    as (w & rest & EX & Hw).
  { destruct ws1 as [|w ws1']; [done|]. apply Forall_cons in H1 as [Hw _].
    by eexists _, _. }
  set (X := ws1 ++ chars p ++ ws2) in *.
  rewrite (strip_chars_fenced fence X (ascii_of_N 96)) by done.
  assert (starts_with fence_json (fence ++ X ++ fence) = false) as ->.
  { rewrite EX. simpl.
    apply andb_false_intro1, bool_decide_eq_false. intros <-. done. }
  assert (starts_with fence (fence ++ X ++ fence) = true)
    as -> by (apply starts_with_spec; eauto).
  change (drop 3 (fence ++ X ++ fence)) with (X ++ fence).
  rewrite ends_with_app.
  rewrite (drop_last_app X fence : drop_last 3 (X ++ fence) = X).
  rewrite Hpad. apply string_of_chars.
Qed.

Lemma find_char_first (c : ascii) (pre rest : list ascii) :
  c ∉ pre → find_char c (pre ++ c :: rest) = Some (length pre).
Proof.
  induction pre as [|d pre IH]; intros Hc; simpl; [by rewrite decide_True|].
  apply not_elem_of_cons in Hc as [Hd Hc].
  rewrite decide_False by done. by rewrite IH.
Qed.

Lemma rfind_end_absent (c : ascii) (post : list ascii) :
  c ∉ post → rfind_end c post = 0%nat.
Proof.
  induction post as [|d post IH]; intros Hc; simpl; [done|].
  apply not_elem_of_cons in Hc as [Hd Hc].
  rewrite IH by done. by rewrite decide_False.
Qed.

Lemma rfind_end_last (c : ascii) (xs post : list ascii) :
  c ∉ post → rfind_end c (xs ++ c :: post) = S (length xs).
Proof.
  intros Hc. induction xs as [|d xs IH]; simpl.
  - rewrite rfind_end_absent by done. by rewrite decide_True.
  - by rewrite IH.
Qed.

Lemma py_slice_middle (pre body post : list ascii) :
  py_slice (pre ++ body ++ post) (length pre) (length pre + length body) = body.
Proof.
  unfold py_slice. rewrite drop_app_length.
  replace (length pre + length body - length pre)%nat with (length body) by lia.
  apply take_app_length.
Qed.

End ParseFacts.

Section ParseProperties.

Import LLMClient.

(** X26: a payload inside a Markdown fence, with or without the [json] tag
    and with any white space around it, is parsed by both clients as the
    payload itself is parsed. *)
Theorem fenced_response_parses
    (json_loads : string → option value)
    (ws1 ws2 : list ascii) (p : string) (v : value) :
  all_space ws1 → all_space ws2 → trimmed (chars p) →
  json_loads p = Some v →
  gemini_parse_json_safe json_loads (fenced fence_json ws1 p ws2) = Ok v ∧
  deepseek_parse_json_safe json_loads (fenced fence_json ws1 p ws2) = Ok v ∧
  (ws1 ≠ [] →
   gemini_parse_json_safe json_loads (fenced fence ws1 p ws2) = Ok v ∧
   deepseek_parse_json_safe json_loads (fenced fence ws1 p ws2) = Ok v).
Proof.
  intros H1 H2 Hp Hv.
  unfold gemini_parse_json_safe, deepseek_parse_json_safe.
  rewrite (clean_fenced_json ws1 ws2 p H1 H2 Hp), Hv.
  split; [done|]. split; [done|]. intros Hne.
  by rewrite (clean_fenced_plain ws1 ws2 p H1 Hne H2 Hp), Hv.
Qed.

Lemma fenced_response_parses_witness :
  gemini_parse_json_safe SampleResponse.loads_empty_object
    (fenced fence_json [SampleResponse.newline] "{}" [SampleResponse.newline])
  = Ok (VDict []) ∧
  deepseek_parse_json_safe SampleResponse.loads_empty_object
    (fenced fence_json [SampleResponse.newline] "{}" [SampleResponse.newline])
  = Ok (VDict []) ∧
  ([SampleResponse.newline] ≠ [] →
   gemini_parse_json_safe SampleResponse.loads_empty_object
     (fenced fence [SampleResponse.newline] "{}" [SampleResponse.newline])
   = Ok (VDict []) ∧
   deepseek_parse_json_safe SampleResponse.loads_empty_object
     (fenced fence [SampleResponse.newline] "{}" [SampleResponse.newline])
   = Ok (VDict [])).
Proof.
  apply (fenced_response_parses SampleResponse.loads_empty_object);
    try (by repeat constructor); reflexivity.
Defined.

(** X27: when the cleaned response is not JSON, the DeepSeek client returns
    the JSON object that is embedded in other text, read from the first
    opening brace to the last closing brace; the Gemini client raises
    [ValueError] on the same response. *)
Theorem embedded_json_recovered
    (json_loads : string → option value)
    (pre mid post : list ascii) (v : value) :
  open_brace ∉ pre → close_brace ∉ post →
  json_loads (clean_response (embedded pre mid post)) = None →
  json_loads (string_of_list_ascii (open_brace :: mid ++ [close_brace])) = Some v →
  deepseek_parse_json_safe json_loads (embedded pre mid post) = Ok v ∧
  gemini_parse_json_safe json_loads (embedded pre mid post) = Raise ValueError.
Proof.
  intros Hpre Hpost Hnone Hv.
  unfold deepseek_parse_json_safe, gemini_parse_json_safe. rewrite Hnone.
  split; [|done]. unfold embedded. rewrite chars_of_string.
  change (pre ++ (open_brace :: mid ++ [close_brace]) ++ post)
    with (pre ++ open_brace :: (mid ++ [close_brace]) ++ post) at 1.
  rewrite find_char_first by done.
  assert (rfind_end close_brace (pre ++ (open_brace :: mid ++ [close_brace]) ++ post)
          = (length pre + length (open_brace :: mid ++ [close_brace]))%nat) as ->.
  { replace (pre ++ (open_brace :: mid ++ [close_brace]) ++ post)
      with ((pre ++ open_brace :: mid) ++ close_brace :: post)
      by (rewrite <- !app_assoc; simpl; by rewrite <- app_assoc).
    rewrite rfind_end_last by done. rewrite length_app. simpl.
    rewrite length_app. simpl. lia. }
  by rewrite py_slice_middle, Hv.
Qed.

Lemma embedded_json_recovered_witness :
  deepseek_parse_json_safe SampleResponse.loads_empty_object
    (embedded (chars "Here it is: ") [] (chars " Done."))
  = Ok (VDict []) ∧
  gemini_parse_json_safe SampleResponse.loads_empty_object
    (embedded (chars "Here it is: ") [] (chars " Done."))
  = Raise ValueError.
Proof.
  apply (embedded_json_recovered SampleResponse.loads_empty_object);
    [by vm_compute; intros H; repeat (apply elem_of_cons in H as [H|H]; [done|]);
        inversion H
    | | reflexivity | reflexivity].
  vm_compute. intros H. repeat (apply elem_of_cons in H as [H|H]; [done|]).
  inversion H.
Defined.

End ParseProperties.

(** ** Properties of the validation of a job analysis *)

Section ValidationFacts.

Import JobAnalyzer.

Lemma dict_get_set_eq (items : list (string * value)) (key : string) (v d : value) :
  dict_get (dict_set items key v) key d = v.
Proof.
  induction items as [|[k x] items IH]; simpl; [by rewrite decide_True|].
  case_decide as E; simpl; [by rewrite decide_True | by rewrite decide_False].
Qed.

Lemma dict_get_set_ne (items : list (string * value)) (key key' : string) (v d : value) :
  key ≠ key' → dict_get (dict_set items key v) key' d = dict_get items key' d.
Proof.
  intros Hne. induction items as [|[k x] items IH]; simpl; [by rewrite decide_False|].
  case_decide as E; simpl.
  - subst k. by rewrite !decide_False.
  - case_decide; [done | exact IH].
Qed.

Lemma dict_has_false (items : list (string * value)) (key : string) (d : value) :
  dict_has items key = false → dict_get items key d = d.
Proof.
  unfold dict_has. rewrite bool_decide_eq_false. 
  induction items as [|[k x] items IH]; simpl; [done|].
  intros Hn. apply not_elem_of_cons in Hn as [Hk Hn].
  rewrite decide_False by done. by apply IH.
Qed.

Lemma dict_has_set_ne (items : list (string * value)) (key key' : string) (v : value) :
  key ≠ key' → dict_has (dict_set items key v) key' = dict_has items key'.
Proof.
  intros Hne. unfold dict_has. apply bool_decide_ext.
  induction items as [|[k x] items IH]; simpl.
  - rewrite elem_of_cons. split; [intros [?|?]; [done | done] | by right].
  - case_decide as E; simpl; [done|]. rewrite !elem_of_cons. by rewrite IH.
Qed.

(** The check of the company leaves the keywords as they are and grounds
    the company. *)
Lemma check_company_spec (items role_info items' : list (string * value))
    (raw_text : string) :
  dict_get items "role_info" (VDict []) = VDict role_info →
  check_company items role_info raw_text = Ok items' →
  grounded (company_of (VDict items')) raw_text ∧
  (∀ d, dict_get items' "keywords" d = dict_get items "keywords" d) ∧
  dict_has items' "keywords" = dict_has items "keywords".
Proof.
  intros Hrole. unfold check_company.
  destruct (py_truthy (dict_get role_info "company" (VStr "Unknown"))) eqn:Ht; simpl.
  - destruct (not_unknown (dict_get role_info "company" (VStr "Unknown"))) eqn:Hu.
    + destruct (dict_get role_info "company" (VStr "Unknown")) as [| | |c| |] eqn:Ec;
        try done.
      destruct (py_in (py_lower c) (py_lower raw_text)) eqn:Hin; intros [= <-].
      * split; [|done]. simpl. rewrite Hrole, Ec. right. right.
        exists c. split; [done|]. by apply py_in_spec.
      * split; [|split].
        -- simpl. rewrite dict_get_set_eq, dict_get_set_eq. right. by left.
        -- intros d. by apply dict_get_set_ne.
        -- by apply dict_has_set_ne.
    + intros [= <-]. split; [|done]. simpl. rewrite Hrole.
      destruct (dict_get role_info "company" (VStr "Unknown")) as [| | |c| |];
        try done.
      simpl in Hu. apply negb_false_iff, bool_decide_eq_true in Hu as ->.
      right. by left.
  - intros [= <-]. split; [|done]. simpl. rewrite Hrole. by left.
Qed.

Lemma check_keywords_spec (items : list (string * value)) (analysis' : value) :
  check_keywords items = Validated analysis' →
  dict_has items "keywords" = true ∧
  (∃ l, ats_keywords_of analysis' = Ok (VList l)) ∧
  company_of analysis' = company_of (VDict items).
Proof.
  unfold check_keywords.
  destruct (dict_get items "keywords" (VDict [])) as [| | | | |keywords] eqn:Ek;
    try done.
  assert (Hlist : ∀ l, dict_get keywords "ats_keywords" VNone = VList l →
                       dict_has items "keywords" = true).
  { intros l El. destruct (dict_has items "keywords") eqn:Eh; [done|].
    rewrite (dict_has_false _ _ _ Eh) in Ek. injection Ek as <-. done. }
  destruct (dict_get keywords "ats_keywords" VNone) as [| | | |l|] eqn:Ea;
    try (destruct (dict_has items "keywords") eqn:Eh; [|done]; intros [= <-];
         split; [done|]; split;
         [exists []; unfold ats_keywords_of; simpl;
          rewrite dict_get_set_eq; simpl; by rewrite dict_get_set_eq
         |simpl; by rewrite dict_get_set_ne]).
  intros [= <-]. split; [by eapply Hlist|]. split; [|done].
  exists l. unfold ats_keywords_of. simpl. rewrite Ek. simpl.
  assert (dict_get keywords "ats_keywords" (VList []) = VList l) as ->; [|done].
  destruct (dict_get_default keywords "ats_keywords" (VList []) VNone)
    as [->|[_ E]]; [done | congruence].
Qed.

End ValidationFacts.

Section ValidationProperties.

Import JobAnalyzer.

(** X28: an analysis that the validation returns has a list under
    keywords.ats_keywords and a company that is grounded in the text of the
    job: absent or empty, "Unknown", or a name that occurs in the text,
    case ignored.  An analysis without the key "keywords" is never
    returned: the validation raises [KeyError] or [AttributeError]. *)
Theorem validated_analysis_invariant (analysis analysis' : value) (raw_text : string) :
  _validate_analysis analysis raw_text = Validated analysis' →
  (∃ l, ats_keywords_of analysis' = Ok (VList l)) ∧
  grounded (company_of analysis') raw_text ∧
  ∃ items, analysis = VDict items ∧ dict_has items "keywords" = true.
Proof.
  unfold _validate_analysis.
  destruct analysis as [| | | | |items]; try done.
  destruct (dict_get items "role_info" (VDict [])) as [| | | | |role_info] eqn:Er;
    try done.
  destruct (check_company items role_info raw_text) as [items1|e] eqn:Ec; [|done].
  destruct (check_company_spec _ _ _ _ Er Ec) as (Hg & Hk & Hh).
  intros (Hhas & Hl & Hc)%check_keywords_spec.
  split; [done|]. split; [by rewrite Hc|].
  exists items. split; [done|]. by rewrite <- Hh.
Qed.

Lemma validated_analysis_invariant_witness :
  ∃ analysis',
    _validate_analysis SampleAnalysis.analysis SampleAnalysis.raw_text
    = Validated analysis' ∧
    company_of analysis' = VStr "Unknown" ∧
    (∃ l, ats_keywords_of analysis' = Ok (VList l)) ∧
    grounded (company_of analysis') SampleAnalysis.raw_text ∧
    ∃ items, SampleAnalysis.analysis = VDict items ∧ dict_has items "keywords" = true.
Proof.
  eexists. split; [reflexivity|]. split; [reflexivity|].
  apply (validated_analysis_invariant SampleAnalysis.analysis _ SampleAnalysis.raw_text).
  reflexivity.
Defined.

End ValidationProperties.

(** ** Properties of the resume dispatch and of the cover letter *)

Section SplitFacts.

Lemma split_on_nonempty (sep : ascii) (s : list ascii) : split_on sep s ≠ [].
Proof.
  induction s as [|c s IH]; simpl; [done|].
  case_decide; [done|]. by destruct (split_on sep s).
Qed.

Lemma split_on_app (sep : ascii) (pre rest : list ascii) :
  split_on sep (pre ++ sep :: rest) = split_on sep pre ++ split_on sep rest.
Proof.
  induction pre as [|c pre IH]; simpl.
  - by rewrite decide_True.
  - case_decide; [by rewrite IH|]. rewrite IH.
    pose proof (split_on_nonempty sep pre). by destruct (split_on sep pre).
Qed.

Lemma split_on_absent (sep : ascii) (s : list ascii) :
  sep ∉ s → split_on sep s = [s].
Proof.
  induction s as [|c s IH]; intros H; simpl; [done|].
  apply not_elem_of_cons in H as [Hc H].
  rewrite decide_False by done. by rewrite IH.
Qed.

Lemma split_on_last (sep : ascii) (base ext : list ascii) :
  sep ∉ ext → last (split_on sep (base ++ sep :: ext)) = Some ext.
Proof.
  intros H. rewrite split_on_app, (split_on_absent sep ext) by done. apply last_snoc.
Qed.

End SplitFacts.

Section ResumeProperties.

Import ResumeParser.

(** X29: the kind of a resume is decided by the text after the last dot of
    the file name, case ignored; and whatever fails, the only exception
    that [parse_resume] raises is [ValueError]. *)
Theorem resume_dispatch
    (extract_text_from_pdf extract_text_from_docx : string → string)
    (generate_json : string → string → result value) (system_prompt : string)
    (file_bytes base ext : string) :
  dot ∉ chars ext →
  extension (base +:+ String dot ext) = py_lower ext ∧
  (∀ filename e,
     parse_resume extract_text_from_pdf extract_text_from_docx generate_json
       system_prompt file_bytes filename = Raise e → e = ValueError) ∧
  (py_lower ext ≠ "pdf" → py_lower ext ≠ "docx" → py_lower ext ≠ "doc" →
   parse_resume extract_text_from_pdf extract_text_from_docx generate_json
     system_prompt file_bytes (base +:+ String dot ext) = Raise ValueError).
Proof.
  intros Hdot.
  assert (extension (base +:+ String dot ext) = py_lower ext) as Hext.
  { unfold extension. rewrite chars_append.
    change (chars (String dot ext)) with (dot :: chars ext).
    rewrite split_on_last by done. simpl. by rewrite string_of_chars. }
  split; [done|]. split.
  - intros filename e. unfold parse_resume.
    repeat case_decide; simpl; try (by intros [= <-]);
      repeat case_decide; try (by intros [= <-]);
      destruct (generate_json _ _); by intros [= <-].
  - intros H1 H2 H3. unfold parse_resume. rewrite Hext.
    rewrite decide_False by done. rewrite decide_False by tauto. done.
Qed.

Lemma resume_dispatch_witness :
  extension ("notes.pdf" +:+ String dot "BAK") = "bak" ∧
  parse_resume (fun _ => "text") (fun _ => "text") (fun _ _ => Ok VNone) ""
    "" ("notes.pdf" +:+ String dot "BAK") = Raise ValueError.
Proof.
  destruct (resume_dispatch (fun _ => "text") (fun _ => "text") (fun _ _ => Ok VNone) ""
              "" "notes.pdf" "BAK") as (Hext & _ & Hraise).
  - intros H. repeat (apply elem_of_cons in H as [H|H]; [done|]). inversion H.
  - split; [exact Hext|]. apply Hraise; done.
Defined.

End ResumeProperties.

Section LetterProperties.

Import DocumentBuilder.

Lemma ink_app (a b : list ascii) : ink (a ++ b) = ink a ++ ink b.
Proof. apply filter_app. Qed.

Lemma ink_spaces (ws : list ascii) : Forall (fun c => is_space c = true) ws → ink ws = [].
Proof.
  induction 1 as [|c ws Hc _ IH]; [done|]. unfold ink in *.
  rewrite filter_cons_False by (by rewrite Hc). done.
Qed.

Lemma ink_strip (s : list ascii) : ink (strip_chars s) = ink s.
Proof.
  unfold strip_chars.
  destruct (lstrip_chars_suffix s) as (sp1 & E1 & H1).
  destruct (rstrip_chars_prefix (lstrip_chars s)) as (sp2 & E2 & H2).
  transitivity (ink (sp1 ++ rstrip_chars (lstrip_chars s) ++ sp2));
    [|by rewrite <- E2, <- E1].
  by rewrite !ink_app, (ink_spaces sp1), (ink_spaces sp2), app_nil_r.
Qed.

Lemma ink_split (s : list ascii) :
  concat (map ink (split_on ResumeParser.line_feed s)) = ink s.
Proof.
  induction s as [|c s IH]; [done|].
  assert (ink (c :: s) = ink [c] ++ ink s) as -> by apply (ink_app [c] s).
  rewrite <- IH. cbn [split_on]. case_decide as E.
  - subst c. done.
  - pose proof (split_on_nonempty ResumeParser.line_feed s) as Hne.
    destruct (split_on ResumeParser.line_feed s) as [|piece pieces]; [done|].
    cbn [map concat].
    assert (ink (c :: piece) = ink [c] ++ ink piece) as -> by apply (ink_app [c] piece).
    by rewrite app_assoc.
Qed.

Lemma ink_filter_nonempty (pieces : list (list ascii)) :
  concat (map ink (filter (fun p => p ≠ []) pieces)) = concat (map ink pieces).
Proof.
  induction pieces as [|p pieces IH]; [done|].
  destruct (decide (p = [])) as [->|E].
  - rewrite filter_cons_False by (intros H; by apply H). by rewrite IH.
  - rewrite filter_cons_True by done. simpl. by rewrite IH.
Qed.

(** A carriage return is white space, but it does not split the letter:
    between two words it stays in the paragraph. *)
Lemma body_paragraph_keeps_carriage_return :
  body_paragraphs ("Dear" +:+ String (ascii_of_N 13) "Sir")
  = ["Dear" +:+ String (ascii_of_N 13) "Sir"].
Proof. reflexivity. Qed.

(** X30: the paragraphs of a cover letter are never empty, they neither
    begin nor end with white space and hold no line feed, the one character
    that the letter is split at, and together they hold every character of
    the letter that is not white space, in order: no text of the letter is
    lost.  A carriage return, a vertical tab or a form feed inside a line
    stays inside its paragraph, as [body_paragraph_keeps_carriage_return]
    shows. *)
Theorem body_paragraphs_keep_text (letter_body : string) :
  (∀ p, p ∈ body_paragraphs letter_body →
        p ≠ EmptyString ∧ trimmed (chars p) ∧ ResumeParser.line_feed ∉ chars p) ∧
  concat (map (fun p => ink (chars p)) (body_paragraphs letter_body))
  = ink (chars letter_body).
Proof.
  unfold body_paragraphs. split.
  - intros p Hp. apply list_elem_of_In, in_map_iff in Hp as (q & <- & Hq).
    apply list_elem_of_In, list_elem_of_filter in Hq as [Hne Hq].
    apply list_elem_of_In, in_map_iff in Hq as (piece & <- & Hpiece).
    rewrite chars_of_string. split; [|split].
    + intros E. apply Hne. apply (f_equal chars) in E.
      by rewrite chars_of_string in E.
    + unfold trimmed. apply strip_chars_fixed.
      * apply strip_chars_head.
      * apply strip_chars_last.
    + intros Hin%strip_chars_elem.
      assert (ResumeParser.line_feed ∉ piece); [|done].
      clear -Hpiece. revert piece Hpiece.
      induction (chars letter_body) as [|c s IH]; simpl; intros piece Hpiece.
      * destruct Hpiece as [<-|[]]. by intros H; inversion H.
      * case_decide as E.
        -- destruct Hpiece as [<-|Hpiece]; [by intros H; inversion H | by apply IH].
        -- pose proof (split_on_nonempty ResumeParser.line_feed s) as Hne.
           destruct (split_on ResumeParser.line_feed s) as [|q qs]; [done|].
           destruct Hpiece as [<-|Hpiece].
           ++ apply not_elem_of_cons. split; [done|]. apply IH. by left.
           ++ apply IH. by right.
  - rewrite map_map.
    erewrite map_ext; [|intros q; by rewrite chars_of_string].
    rewrite ink_filter_nonempty, map_map.
    erewrite map_ext; [|intros q; by rewrite ink_strip].
    apply ink_split.
Qed.

End LetterProperties.
